(** * Webshell detector: detection engine and scan entry points

    A shallow embedding of the Go sources

    - [internal/detector] : composite scoring ([calculateTotalScore]),
      feature matching ([featureMatch], [matchRegexPatterns],
      [matchYaraRules]), behaviour analysis ([behaviorAnalyze]) and the
      machine-learning scorer ([mlDetect], [extractFeatures]);
    - [pkg/mlmodel] : [LoadModel] and [Model.Predict];
    - [internal/scanner] : [BaseScanner.Scan], [ManualScanner.Start] and
      [scanSingleFile], the start of the realtime and of the scheduled
      scanner, and [ScheduledScanner.scanDirectory] over a file tree;
    - [cmd/main.go] : [handleManualScan];
    - the counters of [Printer.PrintSummary].

    Conventions of the embedding.

    - A finite Go [float64] is an exact rational ([Q]); the decimal literals
      of the code (0.5, 0.3, 0.2, 0.1, thresholds) are the same rationals,
      and the rounding of finite results is outside the model.  The
      feature and the behaviour score are sums of the integer constants of
      the code and are rationals.  The ML score and the total score depend
      on the weights of the loaded model, any finite numbers: a product or
      sum of theirs can overflow to an infinity, and the sum of opposite
      infinities is NaN.  These scores are values of [float64.t], a
      rational, an infinity or NaN, with the arithmetic and the
      comparisons of the language on them.
    - A Go [(value, error)] return is an [outcome]; a run-time panic (index
      out of range) is the third constructor.  Lines written to standard
      output or to the logger are collected next to the outcome.
    - Everything the code obtains from outside the process (file system,
      regular-expression engine, YARA engine, the traced sandbox run, the
      result store) is read from a [World] record of oracles.
    - [for k, v := range m] over a Go map visits the entries in an
      unspecified order: the order is an argument of the model, constrained
      to be a permutation of the entries of the map. *)

From Stdlib Require Import QArith Qabs Lqa ZArith Lia List String Ascii Bool Permutation.
From stdpp Require Import base strings gmap list pretty.

Open Scope Q_scope.

(** ** Go results: values, errors, panics, and printed lines *)

Inductive outcome (A : Type) : Type :=
| Ok (a : A)
| Err (e : string)
| Panic (e : string).
Arguments Ok {A} a.
Arguments Err {A} e.
Arguments Panic {A} e.

(** A computation returns an outcome together with the lines it printed. *)
Definition M (A : Type) : Type := (outcome A * list string)%type.

Definition ret {A} (a : A) : M A := (Ok a, []).
Definition throw {A} (e : string) : M A := (Err e, []).
Definition panic {A} (e : string) : M A := (Panic e, []).
Definition print (line : string) : M unit := (Ok tt, [line]).

Definition bind {A B} (m : M A) (k : A -> M B) : M B :=
  match m with
  | (Ok a, l) => let (r, l') := k a in (r, l ++ l')
  | (Err e, l) => (Err e, l)
  | (Panic e, l) => (Panic e, l)
  end.

#[global] Instance M_ret : MRet M := @ret.
#[global] Instance M_bind : MBind M := fun A B k m => bind m k.

Definition is_Err {A} (o : outcome A) : bool :=
  match o with Err _ => true | _ => false end.

Definition is_Panic {A} (o : outcome A) : bool :=
  match o with Panic _ => true | _ => false end.

(** ** The [strings] package, on byte strings *)

Module strings.

(** The double-quote character, which occurs in the searched patterns. *)
Definition dq : string := String (ascii_of_nat 34) EmptyString.

Fixpoint HasPrefix (s pre : string) : bool :=
  match pre, s with
  | EmptyString, _ => true
  | String c pre', String d s' => if Ascii.eqb c d then HasPrefix s' pre' else false
  | String _ _, EmptyString => false
  end.

(** [strings.Contains(s, substr)] *)
Fixpoint Contains (s substr : string) : bool :=
  HasPrefix s substr ||
  match s with
  | EmptyString => false
  | String _ s' => Contains s' substr
  end.

(** [strings.Count(s, substr)] for a non-empty [substr]: the number of
    non-overlapping occurrences, found left to right.  [skip] is the
    number of bytes still covered by the last occurrence counted. *)
Fixpoint count_from (skip : nat) (s substr : string) : Z :=
  match s with
  | EmptyString => 0%Z
  | String _ s' =>
      match skip with
      | S k => count_from k s' substr
      | O =>
          if HasPrefix s substr
          then (1 + count_from (String.length substr - 1) s' substr)%Z
          else count_from O s' substr
      end
  end.

(** With an empty [substr] Go returns one more than the number of runes;
    the detector never passes one, and the byte length stands in. *)
Definition Count (s substr : string) : Z :=
  match substr with
  | EmptyString => (Z.of_nat (String.length s) + 1)%Z
  | _ => count_from O s substr
  end.

Definition rev (s : string) : string :=
  string_of_list_ascii (List.rev (list_ascii_of_string s)).

(** [strings.HasSuffix(s, suffix)] *)
Definition HasSuffix (s suffix : string) : bool :=
  HasPrefix (rev s) (rev suffix).

Definition lower_ascii (c : ascii) : ascii :=
  let n := nat_of_ascii c in
  if (65 <=? n)%nat && (n <=? 90)%nat then ascii_of_nat (n + 32) else c.

(** [strings.ToLower] on the ASCII letters.  Go also lowers letters
    outside ASCII; none of them lowers to a letter of the command names
    searched for below. *)
Fixpoint ToLower (s : string) : string :=
  match s with
  | EmptyString => EmptyString
  | String c s' => String (lower_ascii c) (ToLower s')
  end.

(** [strings.Join(elems, sep)] *)
Fixpoint Join (elems : list string) (sep : string) : string :=
  match elems with
  | [] => EmptyString
  | [e] => e
  | e :: rest => e +:+ sep +:+ Join rest sep
  end.

End strings.

(** ** Configuration (the fields the detector reads) *)

Record BehaviorAnalysisConfig := {
  BehaviorAnalysis_Enabled : bool;
  BehaviorAnalysis_Timeout : Z;
}.

Record MachineLearningConfig := {
  MachineLearning_Enabled : bool;
}.

Record YaraConfig := {
  Yara_Enabled : bool;
  RulesDir : string;
  RuleTypes : list string;
  MaxFileSize : Z;
}.

Record DetectionConfig := {
  BehaviorAnalysis : BehaviorAnalysisConfig;
  MachineLearning : MachineLearningConfig;
  Yara : YaraConfig;
}.

Record Config := {
  Detection : DetectionConfig;
}.

(** ** [float64]: finite values, infinities and NaN *)

Module float64.

Inductive t :=
| Num (q : Q)
| PInf
| NInf
| NaN.

(** The least magnitude that rounds to an infinity: [2^1024 - 2^970],
    half a unit in the last place above the largest finite value. *)
Definition overflow : Q := inject_Z (2 ^ 1024 - 2 ^ 970).
Arguments overflow : simpl never.

(** The result of an operation on finite operands, from its exact value. *)
Definition round (q : Q) : t :=
  if Qle_bool overflow q then PInf
  else if Qle_bool q (- overflow) then NInf
  else Num q.
Arguments round : simpl never.

(** [x + y] *)
Definition add (x y : t) : t :=
  match x, y with
  | NaN, _ => NaN
  | _, NaN => NaN
  | Num a, Num b => round (a + b)
  | PInf, NInf => NaN
  | NInf, PInf => NaN
  | PInf, _ => PInf
  | _, PInf => PInf
  | NInf, _ => NInf
  | _, NInf => NInf
  end.

(** An infinity times a finite value: the sign of the value decides, and
    a zero gives NaN. *)
Definition scaleInf (positive : bool) (a : Q) : t :=
  match a ?= 0 with
  | Gt => if positive then PInf else NInf
  | Lt => if positive then NInf else PInf
  | Eq => NaN
  end.

(** [x * y] *)
Definition mul (x y : t) : t :=
  match x, y with
  | NaN, _ => NaN
  | _, NaN => NaN
  | Num a, Num b => round (a * b)
  | Num a, PInf => scaleInf true a
  | PInf, Num a => scaleInf true a
  | Num a, NInf => scaleInf false a
  | NInf, Num a => scaleInf false a
  | PInf, PInf => PInf
  | NInf, NInf => PInf
  | PInf, NInf => NInf
  | NInf, PInf => NInf
  end.

(** [x / y].  The sign of a zero is not modelled: a zero divisor counts
    as positive.  The one division of the code is by a total weight of at
    least 0.5. *)
Definition div (x y : t) : t :=
  match x, y with
  | NaN, _ => NaN
  | _, NaN => NaN
  | Num a, Num b => if Qeq_bool b 0 then scaleInf true a else round (a / b)
  | Num _, PInf => Num 0
  | Num _, NInf => Num 0
  | PInf, Num b => if Qle_bool 0 b then PInf else NInf
  | NInf, Num b => if Qle_bool 0 b then NInf else PInf
  | _, _ => NaN
  end.

(** [x < y]: false when either side is NaN. *)
Definition ltb (x y : t) : bool :=
  match x, y with
  | NaN, _ => false
  | _, NaN => false
  | Num a, Num b => negb (Qle_bool b a)
  | NInf, NInf => false
  | NInf, _ => true
  | _, NInf => false
  | PInf, _ => false
  | Num _, PInf => true
  end.

(** [x <= y]: false when either side is NaN. *)
Definition leb (x y : t) : bool :=
  match x, y with
  | NaN, _ => false
  | _, NaN => false
  | Num a, Num b => Qle_bool a b
  | NInf, _ => true
  | _, PInf => true
  | PInf, _ => false
  | Num _, NInf => false
  end.

(** [x > y] and [x >= y] *)
Definition gtb (x y : t) : bool := ltb y x.
Definition geb (x y : t) : bool := leb y x.

(** The order as propositions, for the statements. *)
Definition lt (x y : t) : Prop := ltb x y = true.
Definition le (x y : t) : Prop := leb x y = true.

(** A finite value between two bounds. *)
Definition within (lo hi : Q) (x : t) : Prop :=
  match x with
  | Num q => lo <= q <= hi
  | _ => False
  end.

(** A finite value of at most [c], or the negative infinity. *)
Definition atMost (x : t) (c : Q) : Prop :=
  match x with
  | Num q => q <= c
  | NInf => True
  | _ => False
  end.

(** The same value: finite values are compared as rationals. *)
Definition eqv (x y : t) : Prop :=
  match x, y with
  | Num a, Num b => a == b
  | PInf, PInf => True
  | NInf, NInf => True
  | NaN, NaN => True
  | _, _ => False
  end.

End float64.

(** ** Package [mlmodel] *)

Module mlmodel.
Import float64.

(** The weights and the threshold come out of [json.Unmarshal], which
    yields finite numbers only. *)
Record ModelData := {
  Weights : list Q;
  ModelData_Threshold : Q;
  ModelData_FeatureCount : Z;
}.

Record Model := {
  Path : string;
  FeatureCount : Z;
  Data : ModelData;
  Threshold : Q;
}.

(** [LoadModel]: [file] is what [os.ReadFile(modelPath)] returned and
    [unmarshal] is [json.Unmarshal] into a [ModelData].  The decoded data
    is stored as it is: nothing relates [feature_count] to the number of
    weights. *)
Definition LoadModel (modelPath : string) (file : string + string)
    (unmarshal : string -> ModelData + string) : outcome Model :=
  match file with
  | inr err => Err ("failed to open model file: " +:+ err)
  | inl bytes =>
      match unmarshal bytes with
      | inr err => Err ("failed to decode model: " +:+ err)
      | inl modelData =>
          Ok {| Path := modelPath;
                FeatureCount := ModelData_FeatureCount modelData;
                Data := modelData;
                Threshold := ModelData_Threshold modelData |}
      end
  end.

(** The loop [for i, feature := range features { score += feature *
    Weights[i] }], started at index [i] with the running [score].
    Indexing a slice past its end panics. *)
Fixpoint dot (weights : list Q) (i : nat) (features : list Q) (score : t)
    : outcome t :=
  match features with
  | [] => Ok score
  | feature :: rest =>
      match weights !! i with
      | Some w => dot weights (S i) rest (add score (mul (Num feature) (Num w)))
      | None => Panic "index out of range"
      end
  end.

(** The clamp of [Predict]: above 1 gives 1, else below 0 gives 0.  Both
    tests are false of NaN, which is returned as it is. *)
Definition clamp01 (score : t) : t :=
  if gtb score (Num 1) then Num 1
  else if ltb score (Num 0) then Num 0
  else score.

(** [Model.Predict] *)
Definition Predict (m : Model) (features : list Q) : outcome t :=
  if negb (Z.of_nat (length features) =? FeatureCount m)%Z then
    Err ("invalid feature count: expected " +:+ pretty (FeatureCount m)
         +:+ ", got " +:+ pretty (Z.of_nat (length features)))
  else
    match dot (Weights (Data m)) 0 features (Num 0) with
    | Ok score => Ok (clamp01 score)
    | Err e => Err e
    | Panic e => Panic e
    end.

End mlmodel.

(** ** Comparisons of scores, as booleans *)

Definition Qgtb (x y : Q) : bool := negb (Qle_bool x y).
Definition Qgeb (x y : Q) : bool := Qle_bool y x.
Infix ">?" := Qgtb (at level 70, no associativity) : Q_scope.
Infix ">=?" := Qgeb (at level 70, no associativity) : Q_scope.
Infix "==?" := Qeq_bool (at level 70, no associativity) : Q_scope.

#[global] Instance Q_inhabited : Inhabited Q := populate 0.

(** ** The world outside the process *)

(** One match reported by the YARA engine ([yara.MatchRule]). *)
Record MatchRule := {
  Rule : string;
  Tags : list string;
}.

(** What happens to one rule file between [yara.NewCompiler] and
    [rules.ScanMem]: the first step that fails, or the matches. *)
Inductive YaraRun :=
| NewCompilerFailed (err : string)
| OpenFailed (err : string)
| AddFileFailed (err : string)
| GetRulesFailed (err : string)
| ScanMemFailed (err : string)
| Scanned (m : list MatchRule).

(** One call of the function passed to [filepath.Walk]: the path, whether
    it is a directory, and the error the walk reports for it, if any. *)
Record Visit := {
  visit_path : string;
  visit_IsDir : bool;
  visit_err : option string;
}.

(** The sandbox of the behaviour analysis: [os.MkdirTemp], [os.WriteFile],
    then [cmd.CombinedOutput] of the traced run (its output and error). *)
Inductive SandboxRun :=
| MkdirTempFailed (err : string)
| WriteFileFailed (err : string)
| Ran (output : string) (err : option string).

Record World := {
  (** [os.ReadFile(path)]: the content, or the error *)
  ReadFile : string -> string + string;
  (** [os.Stat(path)]: the error, if any *)
  Stat : string -> option string;
  (** [regexp.MustCompile(pattern).MatchString(s)] *)
  MatchString : string -> string -> bool;
  (** [filepath.Walk(root, fn)]: the calls of [fn] it makes, in order, as
      long as [fn] returns no error *)
  Walk : string -> list Visit;
  (** compiling the rule file at a path and scanning a content with it *)
  Yara_ : string -> string -> YaraRun;
  (** running a copy of a file (path, content) under the tracer, with a
      timeout in seconds *)
  Sandbox : string -> string -> Z -> SandboxRun;
}.

(** ** Package [detector] *)

Module detector.
Import strings.
Import float64.

(** *** Results *)

Definition RiskLevelType := string.
Definition RiskLevelHigh : RiskLevelType := "HIGH".
Definition RiskLevelMedium : RiskLevelType := "MEDIUM".
Definition RiskLevelLow : RiskLevelType := "LOW".
Definition RiskLevelSafe : RiskLevelType := "SAFE".

Record DetectionResult := {
  FilePath : string;
  IsWebshell : bool;
  RiskLevel : RiskLevelType;
  FeatureScore : Q;
  BehaviorScore : Q;
  MLScore : float64.t;
  MatchedFeatures : list string;
  Behaviors : list string;
  TotalScore : float64.t;
}.

(** Assignments to the fields of [*result]. *)
Definition set_IsWebshell (v : bool) (r : DetectionResult) :=
  {| FilePath := FilePath r; IsWebshell := v; RiskLevel := RiskLevel r;
     FeatureScore := FeatureScore r; BehaviorScore := BehaviorScore r;
     MLScore := MLScore r; MatchedFeatures := MatchedFeatures r;
     Behaviors := Behaviors r; TotalScore := TotalScore r |}.
Definition set_RiskLevel (v : RiskLevelType) (r : DetectionResult) :=
  {| FilePath := FilePath r; IsWebshell := IsWebshell r; RiskLevel := v;
     FeatureScore := FeatureScore r; BehaviorScore := BehaviorScore r;
     MLScore := MLScore r; MatchedFeatures := MatchedFeatures r;
     Behaviors := Behaviors r; TotalScore := TotalScore r |}.
Definition set_FeatureScore (v : Q) (r : DetectionResult) :=
  {| FilePath := FilePath r; IsWebshell := IsWebshell r; RiskLevel := RiskLevel r;
     FeatureScore := v; BehaviorScore := BehaviorScore r;
     MLScore := MLScore r; MatchedFeatures := MatchedFeatures r;
     Behaviors := Behaviors r; TotalScore := TotalScore r |}.
Definition set_BehaviorScore (v : Q) (r : DetectionResult) :=
  {| FilePath := FilePath r; IsWebshell := IsWebshell r; RiskLevel := RiskLevel r;
     FeatureScore := FeatureScore r; BehaviorScore := v;
     MLScore := MLScore r; MatchedFeatures := MatchedFeatures r;
     Behaviors := Behaviors r; TotalScore := TotalScore r |}.
Definition set_MLScore (v : float64.t) (r : DetectionResult) :=
  {| FilePath := FilePath r; IsWebshell := IsWebshell r; RiskLevel := RiskLevel r;
     FeatureScore := FeatureScore r; BehaviorScore := BehaviorScore r;
     MLScore := v; MatchedFeatures := MatchedFeatures r;
     Behaviors := Behaviors r; TotalScore := TotalScore r |}.
Definition set_MatchedFeatures (v : list string) (r : DetectionResult) :=
  {| FilePath := FilePath r; IsWebshell := IsWebshell r; RiskLevel := RiskLevel r;
     FeatureScore := FeatureScore r; BehaviorScore := BehaviorScore r;
     MLScore := MLScore r; MatchedFeatures := v;
     Behaviors := Behaviors r; TotalScore := TotalScore r |}.
Definition set_Behaviors (v : list string) (r : DetectionResult) :=
  {| FilePath := FilePath r; IsWebshell := IsWebshell r; RiskLevel := RiskLevel r;
     FeatureScore := FeatureScore r; BehaviorScore := BehaviorScore r;
     MLScore := MLScore r; MatchedFeatures := MatchedFeatures r;
     Behaviors := v; TotalScore := TotalScore r |}.
Definition set_TotalScore (v : float64.t) (r : DetectionResult) :=
  {| FilePath := FilePath r; IsWebshell := IsWebshell r; RiskLevel := RiskLevel r;
     FeatureScore := FeatureScore r; BehaviorScore := BehaviorScore r;
     MLScore := MLScore r; MatchedFeatures := MatchedFeatures r;
     Behaviors := Behaviors r; TotalScore := v |}.

(** [&DetectionResult{FilePath: filePath}]: every other field has its
    zero value. *)
Definition newResult (filePath : string) : DetectionResult :=
  {| FilePath := filePath; IsWebshell := false; RiskLevel := EmptyString;
     FeatureScore := 0; BehaviorScore := 0; MLScore := Num 0;
     MatchedFeatures := []; Behaviors := []; TotalScore := Num 0 |}.

(** *** Composite scoring: [calculateTotalScore] *)

(** The map literal [weights]; indexing a Go map with an absent key gives
    the zero value, as [!!!] does. *)
Definition weights : gmap string Q :=
  list_to_map [("feature", 0.5); ("behavior", 0.3); ("ml", 0.2)].

(** The running pair [(totalScore, totalWeight)] next to the result. *)
Record Blend := {
  totalScore : float64.t;
  totalWeight : float64.t;
  blended : DetectionResult;
}.

Definition blendFeature (result : DetectionResult) : Blend :=
  {| totalScore := add (Num 0) (mul (Num (FeatureScore result))
                                    (Num (weights !!! "feature")));
     totalWeight := Num (weights !!! "feature");
     blended := result |}.

Definition blendBehavior (cfg : Config) (b : Blend) : Blend :=
  if BehaviorAnalysis_Enabled (BehaviorAnalysis (Detection cfg)) then
    let result :=
      if (length (Behaviors (blended b)) =? 0)%nat
      then set_BehaviorScore 0 (blended b)
      else blended b in
    {| totalScore := add (totalScore b) (mul (Num (BehaviorScore result))
                                             (Num (weights !!! "behavior")));
       totalWeight := add (totalWeight b) (Num (weights !!! "behavior"));
       blended := result |}
  else b.

Definition blendML (cfg : Config) (b : Blend) : Blend :=
  if MachineLearning_Enabled (MachineLearning (Detection cfg)) then
    let result :=
      if (FeatureScore (blended b) ==? 0)
         && (length (Behaviors (blended b)) =? 0)%nat
      then set_MLScore (mul (MLScore (blended b)) (Num 0.1)) (blended b)
      else blended b in
    {| totalScore := add (totalScore b) (mul (MLScore result) (Num (weights !!! "ml")));
       totalWeight := add (totalWeight b) (Num (weights !!! "ml"));
       blended := result |}
  else b.

(** Lines 110-141: the weighted average over the enabled methods. *)
Definition blend (cfg : Config) (result : DetectionResult) : DetectionResult :=
  let b := blendML cfg (blendBehavior cfg (blendFeature result)) in
  set_TotalScore (div (totalScore b) (totalWeight b)) (blended b).

(** Lines 143-157: the [switch] on the blended score. *)
Definition classify (result : DetectionResult) : DetectionResult :=
  if geb (TotalScore result) (Num 85) then
    set_IsWebshell true (set_RiskLevel RiskLevelHigh result)
  else if geb (TotalScore result) (Num 70) then
    set_IsWebshell (FeatureScore result >? 80) (set_RiskLevel RiskLevelMedium result)
  else if geb (TotalScore result) (Num 40) then
    set_IsWebshell false (set_RiskLevel RiskLevelLow result)
  else
    set_IsWebshell false (set_RiskLevel RiskLevelSafe result).

(** Lines 159-163 *)
Definition overrideHigh (result : DetectionResult) : DetectionResult :=
  if FeatureScore result >? 90 then
    set_RiskLevel RiskLevelHigh (set_IsWebshell true result)
  else result.

(** Lines 165-172.  The test of the cap is false of a NaN total, which
    stays as it is. *)
Definition overrideSafe (result : DetectionResult) : DetectionResult :=
  if (FeatureScore result ==? 0) && (length (Behaviors result) =? 0)%nat then
    let result := set_IsWebshell false (set_RiskLevel RiskLevelSafe result) in
    if gtb (TotalScore result) (Num 30) then set_TotalScore (Num 30) result else result
  else result.

(** [calculateTotalScore]: the four steps in the order of the source. *)
Definition calculateTotalScore (cfg : Config) (result : DetectionResult)
    : DetectionResult :=
  overrideSafe (overrideHigh (classify (blend cfg result))).

(** *** Feature matching *)

Record FeatureMatchResult := {
  Score : Q;
  Matches : list string;
  YaraMatches : list string;
  RegexMatches : list string;
}.

Record WebshellPattern := {
  Pattern : string;
  PatternScore : Q;
}.

(** [WebshellPatterns]: the five expressions of the source, with their
    scores. *)
Definition WebshellPatterns : list WebshellPattern := [
  {| Pattern := "\b(?:eval|system|exec|shell_exec|passthru|proc_open|popen|assert|create_function|include|require|file_put_contents|fwrite|fopen|unlink|rename|copy|symlink|base64_decode|gzinflate|str_rot13)\b\s*\(";
     PatternScore := 100 |};
  {| Pattern := "\bcall_user_func\s*\(\s*(?:'.*?'|" +:+ dq +:+ ".*?" +:+ dq
                +:+ "|\$\w+)\s*[,\)]|\barray_map\s*\(|\bcreate_function\s*\(";
     PatternScore := 80 |};
  {| Pattern := "\b(?:base64_decode|gzinflate|gzuncompress|str_rot13|convert_uudecode)\s*\(\s*(?:'[^']*'|"
                +:+ dq +:+ "[^" +:+ dq +:+ "]*" +:+ dq +:+ ")\s*\)";
     PatternScore := 100 |};
  {| Pattern := "\b(?:\$\w+\s*=\s*[\$_](?:POST|GET|REQUEST|COOKIE|SERVER)\b|\$\w+\s*\(\s*\$\w+\s*\))";
     PatternScore := 80 |};
  {| Pattern := "\b(?:file_put_contents|fwrite)\s*\(\s*'.*\.php'\s*,|\bchmod\s*\(\s*'.*'\s*,\s*0777\s*\)|\b@unlink\s*\(\s*__FILE__\s*\)";
     PatternScore := 80 |}
].

(** [matchRegexPatterns]: the loop over [WebshellPatterns], from the
    pattern list [patterns] on, with the running score and matches. *)
Fixpoint matchRegexLoop (w : World) (fileStr : string)
    (patterns : list WebshellPattern) (score : Q) (matches : list string)
    : Q * list string :=
  match patterns with
  | [] => (score, matches)
  | pattern :: rest =>
      if MatchString w (Pattern pattern) fileStr
      then matchRegexLoop w fileStr rest
             (score + PatternScore pattern) (matches ++ [Pattern pattern])
      else matchRegexLoop w fileStr rest score matches
  end.

Definition matchRegexPatterns (w : World) (content : string) : Q * list string :=
  matchRegexLoop w content WebshellPatterns 0 [].

(** [fmt.Sprintf] of a rule match: the rule name, then its tags in
    parentheses. *)
Definition formatMatch (m : MatchRule) : string :=
  Rule m +:+ " (" +:+ Join (Tags m) ", " +:+ ")".

(** The loop [for _, match := range m]: 50 for every match. *)
Definition addMatches (acc : Q * list string) (m : list MatchRule)
    : Q * list string :=
  fold_left (fun acc mr => (fst acc + 50, snd acc ++ [formatMatch mr])) m acc.

(** The function passed to [filepath.Walk]: the updated [(score,
    matches)] and the error it returns, if any. *)
Definition walkFn (w : World) (content : string) (acc : Q * list string)
    (v : Visit) : (Q * list string) * option string :=
  match visit_err v with
  | Some err => (acc, Some err)
  | None =>
      if negb (visit_IsDir v) && HasSuffix (visit_path v) ".yar" then
        match Yara_ w (visit_path v) content with
        | NewCompilerFailed err =>
            (acc, Some ("failed to create YARA compiler: " +:+ err))
        | OpenFailed err =>
            (acc, Some ("failed to open rule file " +:+ visit_path v +:+ ": " +:+ err))
        | AddFileFailed err =>
            (acc, Some ("failed to add rule file " +:+ visit_path v +:+ ": " +:+ err))
        | GetRulesFailed err =>
            (acc, Some ("failed to compile rules from " +:+ visit_path v +:+ ": " +:+ err))
        | ScanMemFailed err =>
            (acc, Some ("failed to scan with YARA: " +:+ err))
        | Scanned m => (addMatches acc m, None)
        end
      else (acc, None)
  end.

(** [filepath.Walk]: the walk stops at the first error [fn] returns and
    returns it. *)
Fixpoint walk (w : World) (content : string) (visits : list Visit)
    (acc : Q * list string) : (Q * list string) * option string :=
  match visits with
  | [] => (acc, None)
  | v :: rest =>
      match walkFn w content acc v with
      | (acc', Some err) => (acc', Some err)
      | (acc', None) => walk w content rest acc'
      end
  end.

(** [filepath.Join(dir, name)], without the lexical cleaning of the
    result: the path is a key of the [Walk] oracle and a part of the
    warning. *)
Definition Join2 (dir name : string) : string := dir +:+ "/" +:+ name.

(** The loop over [RuleTypes]: a failed walk is a printed warning. *)
Fixpoint yaraLoop (w : World) (cfg : YaraConfig) (content : string)
    (ruleTypes : list string) (acc : Q * list string)
    : (Q * list string) * list string :=
  match ruleTypes with
  | [] => (acc, [])
  | ruleType :: rest =>
      let rulePath := Join2 (RulesDir cfg) ruleType in
      match walk w content (Walk w rulePath) acc with
      | (acc', Some err) =>
          let (r, out) := yaraLoop w cfg content rest acc' in
          (r, ("Warning: YARA scan failed for " +:+ rulePath +:+ ": " +:+ err) :: out)
      | (acc', None) => yaraLoop w cfg content rest acc'
      end
  end.

(** [matchYaraRules] *)
Definition matchYaraRules (w : World) (cfg : Config) (content : string)
    : M (Q * list string) :=
  let (acc, out) :=
    yaraLoop w (Yara (Detection cfg)) content
             (RuleTypes (Yara (Detection cfg))) (0, []) in
  let score := if fst acc >? 100 then 100 else fst acc in
  (Ok (score, snd acc), out).

(** [if err != nil { return nil, fmt.Errorf(prefix + err) }] *)
Definition wrap {A} (prefix : string) (m : M A) : M A :=
  match m with
  | (Err e, out) => (Err (prefix +:+ e), out)
  | other => other
  end.

(** [featureMatch] *)
Definition featureMatch (w : World) (cfg : Config) (content : string)
    : M FeatureMatchResult :=
  if (MaxFileSize (Yara (Detection cfg)) <? Z.of_nat (String.length content))%Z then
    throw "file size exceeds maximum allowed size for YARA scanning"
  else
    let (regexScore, regexMatches) := matchRegexPatterns w content in
    let result := {| Score := 0 + regexScore; Matches := [];
                     YaraMatches := []; RegexMatches := regexMatches |} in
    result ← (if Yara_Enabled (Yara (Detection cfg)) then
                yara ← wrap "YARA matching failed: " (matchYaraRules w cfg content);
                mret {| Score := Score result + fst yara; Matches := Matches result;
                        YaraMatches := snd yara;
                        RegexMatches := RegexMatches result |}
              else mret result);
    mret {| Score := if Score result >? 100 then 100 else Score result;
            Matches := RegexMatches result ++ YaraMatches result;
            YaraMatches := YaraMatches result;
            RegexMatches := RegexMatches result |}.

(** *** Behaviour analysis *)

(** [BehaviorAnalysisResult]: its fields [Score] and [Behaviors]. *)
Record BehaviorAnalysisResult := {
  BScore : Q;
  BBehaviors : list string;
}.

(** The value type of the two map literals of [behaviorAnalyze]. *)
Record Action := {
  score : Q;
  behavior : string;
}.

Definition dangerousFileOps : gmap string Action :=
  list_to_map [
    ("unlink(", {| score := 30; behavior := "Attempted to delete files" |});
    ("rmdir(", {| score := 20; behavior := "Attempted to delete directories" |});
    ("chmod(", {| score := 20; behavior := "Attempted to change file permissions" |});
    ("chown(", {| score := 20; behavior := "Attempted to change file ownership" |});
    ("symlink(", {| score := 15; behavior := "Attempted to create symbolic links" |});
    ("rename(", {| score := 10; behavior := "Attempted to rename files" |})
  ].

Definition dangerousCommands : list string :=
  ["sh"; "bash"; "cmd"; "powershell"; "nc"; "netcat"; "curl"; "wget"; "telnet"].

Definition sensitiveFiles : gmap string Action :=
  list_to_map [
    ("/etc/passwd", {| score := 15; behavior := "Attempted to access password file" |});
    ("/etc/shadow", {| score := 25; behavior := "Attempted to access shadow password file" |});
    ("/etc/hosts", {| score := 10; behavior := "Attempted to access hosts file" |});
    ("/proc/", {| score := 15; behavior := "Attempted to access process information" |});
    ("/dev/", {| score := 20; behavior := "Attempted to access device files" |})
  ].

(** The orders in which the two [range] loops visit their maps. *)
Record RangeOrder := {
  fileOpsOrder : list (string * Action);
  sensitiveOrder : list (string * Action);
}.

Definition validOrder (o : RangeOrder) : Prop :=
  Permutation (fileOpsOrder o) (map_to_list dangerousFileOps) /\
  Permutation (sensitiveOrder o) (map_to_list sensitiveFiles).

Definition addBehavior (s : Q) (b : string) (result : BehaviorAnalysisResult) :=
  {| BScore := BScore result + s; BBehaviors := BBehaviors result ++ [b] |}.

(** The two nested conditions of lines 70-71: the pattern occurs in the
    trace, and neither [/tmp/] nor [/var/cache/] occurs in the trace. *)
Definition fileOpCounted (straceOutput pattern : string) : bool :=
  Contains straceOutput pattern &&
  (negb (Contains straceOutput "/tmp/") && negb (Contains straceOutput "/var/cache/")).

(** Lines 69-76 *)
Definition scanFileOps (order : list (string * Action)) (straceOutput : string)
    (result : BehaviorAnalysisResult) : BehaviorAnalysisResult :=
  fold_left (fun result entry =>
               if fileOpCounted straceOutput entry.1
               then addBehavior (Qabs (score entry.2)) (behavior entry.2) result
               else result)
            order result.

(** Lines 78-85 *)
Definition scanConnect (straceOutput : string) (result : BehaviorAnalysisResult)
    : BehaviorAnalysisResult :=
  if Contains straceOutput "connect(" then
    if negb (Contains straceOutput "127.0.0.1") && negb (Contains straceOutput "localhost")
    then addBehavior 20 "Attempted to establish external network connection" result
    else result
  else result.

(** Lines 87-96 *)
Definition scanCommands (straceOutput : string) (result : BehaviorAnalysisResult)
    : BehaviorAnalysisResult :=
  fold_left (fun result cmd =>
               if Contains (ToLower straceOutput) ("execve(" +:+ dq +:+ cmd +:+ dq)
               then addBehavior 25 ("Attempted to execute dangerous command: " +:+ cmd) result
               else result)
            dangerousCommands result.

(** Lines 98-115 *)
Definition scanSensitive (order : list (string * Action)) (straceOutput : string)
    (result : BehaviorAnalysisResult) : BehaviorAnalysisResult :=
  fold_left (fun result entry =>
               if Contains straceOutput ("open(" +:+ dq +:+ entry.1)
               then addBehavior (score entry.2) (behavior entry.2) result
               else result)
            order result.

(** Lines 117-125 *)
Definition normalize (result : BehaviorAnalysisResult) : BehaviorAnalysisResult :=
  let result :=
    if (length (BBehaviors result) =? 0)%nat
    then {| BScore := 0; BBehaviors := BBehaviors result |}
    else result in
  if BScore result >? 100
  then {| BScore := 100; BBehaviors := BBehaviors result |}
  else result.

(** Lines 53-127: the interpretation of the captured trace. *)
Definition analyzeTrace (o : RangeOrder) (straceOutput : string)
    : BehaviorAnalysisResult :=
  normalize
    (scanSensitive (sensitiveOrder o) straceOutput
       (scanCommands straceOutput
          (scanConnect straceOutput
             (scanFileOps (fileOpsOrder o) straceOutput
                {| BScore := 0; BBehaviors := [] |})))).

(** [behaviorAnalyze]: an error of the traced run is an error of the
    analysis unless its text contains [exit status]. *)
Definition behaviorAnalyze (w : World) (cfg : Config) (o : RangeOrder)
    (filePath content : string) : outcome BehaviorAnalysisResult :=
  match Sandbox w filePath content
          (BehaviorAnalysis_Timeout (BehaviorAnalysis (Detection cfg))) with
  | MkdirTempFailed err => Err ("failed to create sandbox: " +:+ err)
  | WriteFileFailed err => Err ("failed to copy file to sandbox: " +:+ err)
  | Ran output err =>
      match err with
      | Some e =>
          if negb (Contains e "exit status")
          then Err ("failed to analyze behavior: " +:+ e)
          else Ok (analyzeTrace o output)
      | None => Ok (analyzeTrace o output)
      end
  end.

(** *** Machine-learning score *)

Definition countAll (fileStr : string) (subs : list string) : Z :=
  fold_left (fun count sub => (count + Count fileStr sub)%Z) subs 0%Z.

(** [extractFeatures]: five features, never an error. *)
Definition extractFeatures (content : string) : outcome (list Q) :=
  Ok [ inject_Z (Z.of_nat (String.length content));
       inject_Z (countAll content ["eval("; "system("; "exec("; "shell_exec("; "passthru("]);
       inject_Z (Count content "base64_decode");
       inject_Z (countAll content ["$_POST"; "$_GET"; "$_REQUEST"; "$_SERVER"]);
       inject_Z (countAll content ["chmod("; "chown("; "fopen("; "file_put_contents("]) ].

(** The detector holds a pointer to the model, which [main] leaves nil
    when the model could not be loaded. *)
Record Detector := {
  config : Config;
  mlModel : option mlmodel.Model;
}.

(** [mlDetect] *)
Definition mlDetect (d : Detector) (content : string) : outcome float64.t :=
  match extractFeatures content with
  | Err e => Err ("failed to extract features: " +:+ e)
  | Panic e => Panic e
  | Ok features =>
      match mlModel d with
      | None => Panic "invalid memory address or nil pointer dereference"
      | Some model =>
          match mlmodel.Predict model features with
          | Err e => Err ("failed to predict: " +:+ e)
          | Panic e => Panic e
          | Ok score => Ok (mul score (Num 100))
          end
      end
  end.

(** *** [Detect] *)

(** [x, err := f(); if err != nil { print warning } else { use x }] *)
Definition orWarn {A} (warning : string) (o : outcome A)
    (use : A -> DetectionResult) (result : DetectionResult) : M DetectionResult :=
  match o with
  | Ok a => mret (use a)
  | Err e => print (warning +:+ e) ;; mret result
  | Panic e => panic e
  end.

Definition Detect (w : World) (d : Detector) (o : RangeOrder) (filePath : string)
    : M DetectionResult :=
  print "Starting detection process..." ;;
  match ReadFile w filePath with
  | inr err => throw ("failed to read file: " +:+ err)
  | inl content =>
      let result := newResult filePath in
      print "1. Running feature matching analysis..." ;;
      featureResult ← wrap "feature matching failed: " (featureMatch w (config d) content);
      let result := set_MatchedFeatures (Matches featureResult)
                      (set_FeatureScore (Score featureResult) result) in
      result ← (if BehaviorAnalysis_Enabled (BehaviorAnalysis (Detection (config d))) then
                  print "2. Running behavior analysis..." ;;
                  orWarn "Warning: Behavior analysis failed: "
                    (behaviorAnalyze w (config d) o filePath content)
                    (fun behaviorResult =>
                       set_Behaviors (BBehaviors behaviorResult)
                         (set_BehaviorScore (BScore behaviorResult) result))
                    result
                else mret result);
      result ← (if MachineLearning_Enabled (MachineLearning (Detection (config d))) then
                  print "3. Running machine learning analysis..." ;;
                  orWarn "Warning: ML detection failed: "
                    (mlDetect d content)
                    (fun mlScore => set_MLScore mlScore result)
                    result
                else mret result);
      let result := calculateTotalScore (config d) result in
      print "Detection process completed." ;;
      mret result
  end.

End detector.

(** ** Package [scanner], and the manual path of [main] *)

Module scanner.
Import detector.

(** The collaborators of package [result]: what the printer writes for a
    result, and the errors of opening the store and of storing into it. *)
Record Sinks := {
  PrintResult : DetectionResult -> list string;
  NewStorage : string -> option string;
  StoreResult : DetectionResult -> string -> option string;
}.

Record BaseScanner := {
  scanner_config : Config;
  scanner_detector : Detector;
  isRunning : bool;
}.

Record ManualScanner := {
  base : BaseScanner;
  filePath : string;
}.

Definition NewBaseScanner (cfg : Config) (model : option mlmodel.Model) : BaseScanner :=
  {| scanner_config := cfg;
     scanner_detector := {| config := cfg; mlModel := model |};
     isRunning := false |}.

Definition NewManualScanner (cfg : Config) (model : option mlmodel.Model)
    (filePath : string) : ManualScanner :=
  {| base := NewBaseScanner cfg model; filePath := filePath |}.

Definition set_isRunning (v : bool) (s : ManualScanner) : ManualScanner :=
  {| base := {| scanner_config := scanner_config (base s);
                scanner_detector := scanner_detector (base s);
                isRunning := v |};
     filePath := filePath s |}.

Definition printLines (lines : list string) : M unit := (Ok tt, lines).

(** Opening the store and storing the result: a failure of either is a
    logged warning. *)
Definition store (k : Sinks) (detectionResult : DetectionResult) : M unit :=
  match NewStorage k "data/results.db" with
  | Some err => print ("Warning: Failed to create result storage: " +:+ err)
  | None =>
      match StoreResult k detectionResult "manual" with
      | Some err => print ("Warning: Failed to store result: " +:+ err)
      | None => mret tt
      end
  end.

(** [BaseScanner.Scan] *)
Definition Scan (w : World) (k : Sinks) (s : BaseScanner) (o : RangeOrder)
    (path : string) : M unit :=
  match Stat w path with
  | Some err => throw ("file not found: " +:+ err)
  | None =>
      detectionResult ← wrap "detection failed: " (Detect w (scanner_detector s) o path);
      printLines (PrintResult k detectionResult) ;;
      store k detectionResult ;;
      if IsWebshell detectionResult
      then throw ("webshell detected in file: " +:+ path)
      else mret tt
  end.

(** [ManualScanner.Start]: the scanner after the call, and what the call
    returned.  It calls the detector itself, not [Scan], and ends with
    [return nil]. *)
Definition Start (w : World) (k : Sinks) (s : ManualScanner) (o : RangeOrder)
    : ManualScanner * M unit :=
  if isRunning (base s) then (s, throw "scanner is already running")
  else
    let s := set_isRunning true s in
    let run :=
      detectionResult ← wrap "scan failed: "
                          (Detect w (scanner_detector (base s)) o (filePath s));
      printLines (PrintResult k detectionResult) ;;
      store k detectionResult ;;
      mret tt in
    match run with
    | (Panic _, _) => (s, run)
    | _ => (set_isRunning false s, run)
    end.

(** [ManualScanner.Stop] *)
Definition Stop (s : ManualScanner) : ManualScanner * M unit :=
  if negb (isRunning (base s)) then (s, mret tt)
  else (set_isRunning false s, mret tt).

(** [handleManualScan] of [main]: the exit status of the process and
    what it wrote.  [log.Fatalf] exits with status 1, a panic with
    status 2; the elapsed time of the last line is left out. *)
Definition handleManualScan (w : World) (k : Sinks) (cfg : Config)
    (model : option mlmodel.Model) (o : RangeOrder) (filePath : string)
    : Z * list string :=
  let manualScanner := NewManualScanner cfg model filePath in
  match Start w k manualScanner o with
  | (_, (Err e, out)) => (1%Z, out ++ ["Scan failed: " +:+ e])
  | (_, (Panic e, out)) => (2%Z, out ++ ["panic: " +:+ e])
  | (manualScanner, (Ok _, out)) =>
      match Stop manualScanner with
      | (_, (Err e, out')) => (1%Z, out ++ out' ++ ["Failed to stop scanner: " +:+ e])
      | (_, (Panic e, out')) => (2%Z, out ++ out' ++ ["panic: " +:+ e])
      | (_, (Ok _, out')) => (0%Z, out ++ out' ++ ["Scan completed"])
      end
  end.

End scanner.

(** ** The wording of the specification, for comparison with the code *)

Module spec.
Import detector strings.

(** The weighted average of a list of (weight, score) pairs: the sum of
    weight times score over the sum of the weights, both summed from the
    first pair on. *)
Definition weightedAverage (methods : list (Q * float64.t)) : float64.t :=
  float64.div
    (fold_left (fun sum m => float64.add sum (float64.mul (float64.Num m.1) m.2))
               methods (float64.Num 0))
    (fold_left (fun sum m => float64.add sum (float64.Num m.1))
               methods (float64.Num 0)).

(** The enabled methods with their fixed weights and the scores that
    enter the average: feature always; behaviour when enabled, with score
    0 when no behaviours were found; ML when enabled, dampened to 10%
    when the feature score is 0 and no behaviours were found. *)
Definition enabledMethods (cfg : Config) (r : DetectionResult)
    : list (Q * float64.t) :=
  [(0.5, float64.Num (FeatureScore r))]
  ++ (if BehaviorAnalysis_Enabled (BehaviorAnalysis (Detection cfg))
      then [(0.3, float64.Num (match Behaviors r with [] => 0 | _ => BehaviorScore r end))]
      else [])
  ++ (if MachineLearning_Enabled (MachineLearning (Detection cfg))
      then [(0.2, if (FeatureScore r ==? 0)
                     && match Behaviors r with [] => true | _ => false end
                  then float64.mul (MLScore r) (float64.Num 0.1) else MLScore r)]
      else []).

(** The per-operation reading of the exclusion rule of the behaviour
    analysis: the trace is a sequence of lines, one operation each; the
    target path of an operation is its first quoted argument; an
    operation is excluded when its own target path contains a benign
    prefix. *)
Definition isNewline (c : ascii) : bool := Ascii.eqb c (ascii_of_nat 10).
Definition isQuote (c : ascii) : bool := Ascii.eqb c (ascii_of_nat 34).

Fixpoint splitLines (s : string) : list string :=
  match s with
  | EmptyString => [EmptyString]
  | String c s' =>
      if isNewline c then EmptyString :: splitLines s'
      else match splitLines s' with
           | l :: ls => String c l :: ls
           | [] => [String c EmptyString]
           end
  end.

Fixpoint afterQuote (s : string) : string :=
  match s with
  | EmptyString => EmptyString
  | String c s' => if isQuote c then s' else afterQuote s'
  end.

Fixpoint untilQuote (s : string) : string :=
  match s with
  | EmptyString => EmptyString
  | String c s' => if isQuote c then EmptyString else String c (untilQuote s')
  end.

Definition targetPath (line : string) : string := untilQuote (afterQuote line).

Definition benignPrefix (path : string) : bool :=
  Contains path "/tmp/" || Contains path "/var/cache/".

(** An operation [pattern] counts when some line of the trace performs
    it on a target path without a benign prefix. *)
Definition operationCounted (straceOutput pattern : string) : bool :=
  existsb (fun line => Contains line pattern && negb (benignPrefix (targetPath line)))
          (splitLines straceOutput).

End spec.

(** ** Concrete inputs *)

Module inputs.
Import detector scanner strings.

Definition newline : string := String (ascii_of_nat 10) EmptyString.

(** The shipped configuration: every method enabled, 10 MB limit. *)
Definition cfg : Config :=
  {| Detection :=
       {| BehaviorAnalysis := {| BehaviorAnalysis_Enabled := true;
                                 BehaviorAnalysis_Timeout := 30 |};
          MachineLearning := {| MachineLearning_Enabled := true |};
          Yara := {| Yara_Enabled := true; RulesDir := "data/rules";
                     RuleTypes := ["webshells"; "crypto"];
                     MaxFileSize := 10485760 |} |} |}.

Definition order : RangeOrder :=
  {| fileOpsOrder := map_to_list dangerousFileOps;
     sensitiveOrder := map_to_list sensitiveFiles |}.

(** A model of five weights that scores by file size only. *)
Definition model : mlmodel.Model :=
  {| mlmodel.Path := "data/models/model.json";
     mlmodel.FeatureCount := 5;
     mlmodel.Data := {| mlmodel.Weights := [0.05; 0; 0; 0; 0];
                        mlmodel.ModelData_Threshold := 0.5;
                        mlmodel.ModelData_FeatureCount := 5 |};
     mlmodel.Threshold := 0.5 |}.

(** A model file that declares five features and lists three weights. *)
Definition shortData : mlmodel.ModelData :=
  {| mlmodel.Weights := [0.05; 0.2; 0.1];
     mlmodel.ModelData_Threshold := 0.5;
     mlmodel.ModelData_FeatureCount := 5 |}.

Definition d : Detector := {| config := cfg; mlModel := Some model |}.

(** A world with one harmless file: no pattern matches, the rule
    directories are missing, the traced run prints one line. *)
Definition cleanWorld : World :=
  {| ReadFile := fun _ => inl "<?php echo 1; ?>";
     Stat := fun _ => None;
     MatchString := fun _ _ => false;
     Walk := fun root => [{| visit_path := root; visit_IsDir := true;
                             visit_err := Some "no such file or directory" |}];
     Yara_ := fun _ _ => Scanned [];
     Sandbox := fun _ _ _ => Ran "+++ exited with 0 +++" None |}.

(** A world with one webshell: the first pattern matches a content that
    calls [eval(]; one rule file matches, one cannot be opened. *)
Definition shellWorld : World :=
  {| ReadFile := fun _ => inl "<?php eval($_POST['c']); ?>";
     Stat := fun _ => None;
     MatchString := fun pattern s =>
                      HasPrefix pattern "\b(?:eval|" && Contains s "eval(";
     Walk := fun root =>
               [{| visit_path := root; visit_IsDir := true; visit_err := None |};
                {| visit_path := root +:+ "/a.yar"; visit_IsDir := false;
                   visit_err := None |};
                {| visit_path := root +:+ "/b.yar"; visit_IsDir := false;
                   visit_err := None |}];
     Yara_ := fun path _ =>
                if HasSuffix path "a.yar"
                then Scanned [{| Rule := "php_eval"; Tags := ["webshell"; "php"] |}]
                else OpenFailed "permission denied";
     Sandbox := fun _ _ _ => Ran "+++ exited with 255 +++" (Some "exit status 255") |}.

Definition sinks : Sinks :=
  {| PrintResult := fun r => ["File: " +:+ FilePath r; "Risk level: " +:+ RiskLevel r];
     NewStorage := fun _ => None;
     StoreResult := fun _ _ => None |}.

(** The trace of a run in a sandbox under [/tmp]: the tracer shows the
    command it started, with the path of the copy of the file, then the
    calls of the script, here the deletion of a file of the web root. *)
Definition execveLine : string :=
  "execve(" +:+ dq +:+ "/usr/bin/php" +:+ dq +:+ ", [" +:+ dq +:+ "php" +:+ dq +:+ ", "
  +:+ dq +:+ "/tmp/webshell-sandbox-2316019422/shell.php" +:+ dq
  +:+ "], 0x7ffd3c1e9a40 /* 12 vars */) = 0".
Definition unlinkLine : string :=
  "unlink(" +:+ dq +:+ "/var/www/html/index.php" +:+ dq +:+ ") = 0".
Definition sandboxTrace : string :=
  execveLine +:+ newline +:+ unlinkLine +:+ newline +:+ "+++ exited with 0 +++".

(** [shellWorld] with a traced run that prints [sandboxTrace]. *)
Definition sandboxWorld : World :=
  {| ReadFile := ReadFile shellWorld;
     Stat := Stat shellWorld;
     MatchString := MatchString shellWorld;
     Walk := Walk shellWorld;
     Yara_ := Yara_ shellWorld;
     Sandbox := fun _ _ _ => Ran sandboxTrace None |}.

(** A model file with two weights of opposite sign near the largest
    finite value, and a file without any pattern of the catalogue, twelve
    bytes long, that names a request variable twice. *)
Definition hugeModel : mlmodel.Model :=
  {| mlmodel.Path := "data/models/model.json";
     mlmodel.FeatureCount := 5;
     mlmodel.Data := {| mlmodel.Weights := [inject_Z (10 ^ 308); 0; 0;
                                            - inject_Z (10 ^ 308); 0];
                        mlmodel.ModelData_Threshold := 0.5;
                        mlmodel.ModelData_FeatureCount := 5 |};
     mlmodel.Threshold := 0.5 |}.

Definition hugeDetector : Detector := {| config := cfg; mlModel := Some hugeModel |}.

Definition postContent : string := "$_POST$_POST".

Definition postWorld : World :=
  {| ReadFile := fun _ => inl postContent;
     Stat := fun _ => None;
     MatchString := fun _ _ => false;
     Walk := fun root => [{| visit_path := root; visit_IsDir := true;
                             visit_err := Some "no such file or directory" |}];
     Yara_ := fun _ _ => Scanned [];
     Sandbox := fun _ _ _ => Ran "+++ exited with 0 +++" None |}.

End inputs.

(** ** Notions used in the statements *)

Module aux.
Import detector.

(** The rule engine reports no match for a content, whatever rule file
    it is scanned with. *)
Definition noYaraMatch (w : World) (content : string) : Prop :=
  forall path m, Yara_ w path content = Scanned m -> m = [].

Definition Qsum (l : list Q) : Q := fold_right Qplus 0 l.

(** What one entry of [dangerousFileOps] adds to the score. *)
Definition fileOpContribution (straceOutput : string) (entry : string * Action) : Q :=
  if fileOpCounted straceOutput entry.1 then Qabs (score entry.2) else 0.

End aux.

(** ** Further inputs *)

Module inputs2.
Import detector scanner strings inputs.

(** A world in which the traced run is killed at its deadline: the error
    of the run does not mention an exit status. *)
Definition timeoutWorld : World :=
  {| ReadFile := fun _ => inl "<?php while (true) { } ?>";
     Stat := fun _ => None;
     MatchString := fun _ _ => false;
     Walk := fun root => [{| visit_path := root; visit_IsDir := true;
                             visit_err := None |}];
     Yara_ := fun _ _ => Scanned [];
     Sandbox := fun _ _ _ => Ran EmptyString (Some "signal: killed") |}.

(** A result on the border of the verdict: feature score 70 with full
    behaviour and ML scores. *)
Definition borderline : DetectionResult :=
  set_Behaviors ["Attempted to delete files"]
    (set_MLScore (float64.Num 100) (set_BehaviorScore 100
       (set_FeatureScore 70 (newResult "upload.php")))).

(** The two maps visited in the reverse of the order of [inputs.order]. *)
Definition reversedOrder : RangeOrder :=
  {| fileOpsOrder := List.rev (map_to_list dangerousFileOps);
     sensitiveOrder := List.rev (map_to_list sensitiveFiles) |}.

(** A trace with a deletion, a permission change, a shell and a read of
    the password file. *)
Definition busyTrace : string :=
  "unlink(" +:+ dq +:+ "/var/www/html/index.php" +:+ dq +:+ ") = 0" +:+ newline
  +:+ "chmod(" +:+ dq +:+ "/var/www/html/x.php" +:+ dq +:+ ", 0777) = 0" +:+ newline
  +:+ "execve(" +:+ dq +:+ "sh" +:+ dq +:+ ", [...]) = 0" +:+ newline
  +:+ "open(" +:+ dq +:+ "/etc/passwd" +:+ dq +:+ ", O_RDONLY) = 3".

(** [shellWorld] with a traced run that prints [busyTrace]. *)
Definition busyWorld : World :=
  {| ReadFile := ReadFile shellWorld;
     Stat := Stat shellWorld;
     MatchString := MatchString shellWorld;
     Walk := Walk shellWorld;
     Yara_ := Yara_ shellWorld;
     Sandbox := fun _ _ _ => Ran busyTrace (Some "exit status 1") |}.

(** A detector whose model declares four features. *)
Definition fourFeatures : mlmodel.Model :=
  {| mlmodel.Path := "data/models/old.json"; mlmodel.FeatureCount := 4;
     mlmodel.Data := {| mlmodel.Weights := [0.05; 0; 0; 0];
                        mlmodel.ModelData_Threshold := 0.5;
                        mlmodel.ModelData_FeatureCount := 4 |};
     mlmodel.Threshold := 0.5 |}.

Definition mismatched : Detector := {| config := cfg; mlModel := Some fourFeatures |}.

End inputs2.

(** ** The parts of the behaviour score *)

Module parts.
Import detector strings.

Definition connectCounted (straceOutput : string) : bool :=
  Contains straceOutput "connect(" &&
  (negb (Contains straceOutput "127.0.0.1") && negb (Contains straceOutput "localhost")).

Definition commandCounted (straceOutput cmd : string) : bool :=
  Contains (ToLower straceOutput) ("execve(" +:+ dq +:+ cmd +:+ dq).

Definition sensitiveCounted (straceOutput file : string) : bool :=
  Contains straceOutput ("open(" +:+ dq +:+ file).

(** The behaviours and the weights the four scans add, for given visiting
    orders of the two maps. *)
Definition observed (o : RangeOrder) (straceOutput : string) : list (Q * string) :=
  List.map (fun entry : string * Action => (Qabs (score entry.2), behavior entry.2))
    (List.filter (fun entry : string * Action => fileOpCounted straceOutput entry.1)
       (fileOpsOrder o))
  ++ (if connectCounted straceOutput
      then [(20, "Attempted to establish external network connection")] else [])
  ++ List.map (fun cmd => (25, "Attempted to execute dangerous command: " +:+ cmd))
       (List.filter (commandCounted straceOutput) dangerousCommands)
  ++ List.map (fun entry : string * Action => (score entry.2, behavior entry.2))
       (List.filter (fun entry : string * Action => sensitiveCounted straceOutput entry.1)
          (sensitiveOrder o)).

End parts.


(** ** [filepath.Ext] *)

Module filepath.

(** The loop of [Ext], from the last byte of the path backwards: it stops
    with no extension at a separator and returns the suffix that starts
    at the first dot it meets.  [suffix] holds the bytes already passed. *)
Fixpoint extFrom (backwards : list ascii) (suffix : list ascii) : list ascii :=
  match backwards with
  | [] => []
  | c :: rest =>
      if Ascii.eqb c "/" then []
      else if Ascii.eqb c "." then c :: suffix
      else extFrom rest (c :: suffix)
  end.

Definition Ext (path : string) : string :=
  string_of_list_ascii (extFrom (List.rev (list_ascii_of_string path)) []).

(** A file type as the shipped configuration lists them: a dot followed
    by bytes other than the dot and the separator. *)
Definition plainByte (c : ascii) : bool :=
  negb (Ascii.eqb c "/") && negb (Ascii.eqb c ".").

Definition plainType (fileType : string) : bool :=
  match fileType with
  | String c rest => Ascii.eqb c "." && forallb plainByte (list_ascii_of_string rest)
  | EmptyString => false
  end.

End filepath.

(** ** More of package [scanner]: the scan of one selected file *)

Module tasks.
Import detector scanner.

(** The loop over [FileTypes] that sets [validExt]. *)
Definition validExt (fileTypes : list string) (path : string) : bool :=
  existsb (String.eqb (filepath.Ext path)) fileTypes.

(** [if err := s.Scan(ctx, path); err != nil { log.Printf(...) }]: the
    statement that ends [scanSingleFile] and that the realtime and
    scheduled scanners run for every selected file. *)
Definition scanAndLog (w : World) (k : Sinks) (s : BaseScanner) (o : RangeOrder)
    (path : string) : M unit :=
  match Scan w k s o path with
  | (Err e, out) => (Ok tt, out ++ ["Error scanning file " +:+ path +:+ ": " +:+ e])
  | other => other
  end.

(** [ManualScanner.scanSingleFile]; [fileTypes] is [config.Scan.FileTypes]. *)
Definition scanSingleFile (w : World) (k : Sinks) (s : ManualScanner)
    (fileTypes : list string) (o : RangeOrder) (filePath : string) : M unit :=
  if negb (validExt fileTypes filePath)
  then print ("Unsupported file type: " +:+ filePath)
  else scanAndLog w k (base s) o filePath.

End tasks.

(** ** Package [result]: the counters of [PrintSummary] *)

Module printer.
Import detector.

Record Summary := {
  totalFiles : Z;
  webshells : Z;
  highRisk : Z;
  mediumRisk : Z;
  lowRisk : Z;
  safe : Z;
}.

(** One round of the loop of [PrintSummary]. *)
Definition count (s : Summary) (result : DetectionResult) : Summary :=
  let webshells := if IsWebshell result then (webshells s + 1)%Z else webshells s in
  if String.eqb (RiskLevel result) RiskLevelHigh then
    {| totalFiles := totalFiles s; webshells := webshells;
       highRisk := (highRisk s + 1)%Z; mediumRisk := mediumRisk s;
       lowRisk := lowRisk s; safe := safe s |}
  else if String.eqb (RiskLevel result) RiskLevelMedium then
    {| totalFiles := totalFiles s; webshells := webshells;
       highRisk := highRisk s; mediumRisk := (mediumRisk s + 1)%Z;
       lowRisk := lowRisk s; safe := safe s |}
  else if String.eqb (RiskLevel result) RiskLevelLow then
    {| totalFiles := totalFiles s; webshells := webshells;
       highRisk := highRisk s; mediumRisk := mediumRisk s;
       lowRisk := (lowRisk s + 1)%Z; safe := safe s |}
  else if String.eqb (RiskLevel result) RiskLevelSafe then
    {| totalFiles := totalFiles s; webshells := webshells;
       highRisk := highRisk s; mediumRisk := mediumRisk s;
       lowRisk := lowRisk s; safe := (safe s + 1)%Z |}
  else
    {| totalFiles := totalFiles s; webshells := webshells;
       highRisk := highRisk s; mediumRisk := mediumRisk s;
       lowRisk := lowRisk s; safe := safe s |}.

(** The counters [PrintSummary] prints for a list of results. *)
Definition summarize (results : list DetectionResult) : Summary :=
  fold_left count results
    {| totalFiles := Z.of_nat (length results); webshells := 0; highRisk := 0;
       mediumRisk := 0; lowRisk := 0; safe := 0 |}.

End printer.

(** ** [filepath.Walk] over a directory tree *)

Module fswalk.

(** What the walk finds at a path: a file with its size, a directory with
    the error of reading its entries, if any, and the entries in lexical
    order, or a path that [os.Lstat] fails on. *)
#[warnings="-register-all"] Inductive Node :=
| FileNode (path : string) (size : Z)
| DirNode (path : string) (readErr : option string) (children : list Node)
| BadNode (path : string) (err : string).

(** The [fs.FileInfo] handed to the walk function; the size of a
    directory, which no walk function of the scanners reads, is 0. *)
Record FileInfo := {
  IsDir : bool;
  Size : Z;
}.

(** What a walk function returns: [nil], [filepath.SkipDir] or another
    error. *)
Inductive Verdict :=
| Continue
| SkipDir
| Fail (err : string).

Definition isDirNode (n : Node) : bool :=
  match n with DirNode _ _ _ => true | _ => false end.

Definition isFail (v : Verdict) : bool :=
  match v with Fail _ => true | _ => false end.

Section Walk.
Context {S : Type}.
(** The walk function, on its state: path, info ([nil] when [Lstat]
    failed) and error. *)
Context (fn : S -> string -> option FileInfo -> option string -> S * Verdict).

(** The recursive [walk] of package [filepath].  A file is handed to the
    walk function.  A directory is handed to it with the error of reading
    its entries; unless that error or the verdict ends the visit, the
    entries follow in order: an entry that cannot be examined is reported
    to the walk function, and only an error other than [SkipDir] ends the
    walk; [SkipDir] from a directory skips that directory, from a file it
    skips the rest of the surrounding directory. *)
Fixpoint walk (n : Node) (st : S) : S * Verdict :=
  match n with
  | FileNode path size => fn st path (Some {| IsDir := false; Size := size |}) None
  | BadNode path err => fn st path None (Some err)
  | DirNode path readErr children =>
      let (st1, v1) := fn st path (Some {| IsDir := true; Size := 0 |}) readErr in
      match readErr, v1 with
      | None, Continue =>
          (fix entries (cs : list Node) (st : S) : S * Verdict :=
             match cs with
             | [] => (st, Continue)
             | c :: cs' =>
                 let (st', v) := walk c st in
                 match c, v with
                 | _, Continue => entries cs' st'
                 | _, Fail err => (st', Fail err)
                 | BadNode _ _, SkipDir => entries cs' st'
                 | DirNode _ _ _, SkipDir => entries cs' st'
                 | FileNode _ _, SkipDir => (st', SkipDir)
                 end
             end) children st1
      | _, _ => (st1, v1)
      end
  end.

(** [filepath.Walk]: [SkipDir] at the root is no error. *)
Definition Walk (root : Node) (st : S) : S * option string :=
  let (st', v) := walk root st in
  match v with
  | Fail err => (st', Some err)
  | _ => (st', None)
  end.

End Walk.

End fswalk.

(** ** [ScheduledScanner.scanDirectory] *)

Module scheduled.
Import fswalk tasks.

(** The part [Scan] of the configuration that the directory scan reads. *)
Record ScanConfig := {
  ExcludeDirs : list string;
  FileTypes : list string;
  Schedule_MaxFileSize : Z;
}.

(** The loop over [ExcludeDirs]: the path is one of them. *)
Definition excluded (scan : ScanConfig) (path : string) : bool :=
  existsb (String.eqb path) (ExcludeDirs scan).

(** The walk function of [scanDirectory].  Its state is the list of the
    paths for which a scan has been started, in the order of the starts;
    the scans themselves run concurrently and are not part of it.
    [filepath.Walk] passes a nil [info] only together with an error, so
    the second case, in which the code would read [info] of nil, does
    not arise in a walk. *)
Definition visit (scan : ScanConfig) (started : list string) (path : string)
    (info : option FileInfo) (err : option string) : list string * Verdict :=
  match err, info with
  | Some e, _ => (started, Fail e)
  | None, None => (started, Fail "invalid memory address or nil pointer dereference")
  | None, Some info =>
      if IsDir info then
        if excluded scan path then (started, SkipDir) else (started, Continue)
      else if (Schedule_MaxFileSize scan <? Size info)%Z then (started, Continue)
      else if validExt (FileTypes scan) path then (started ++ [path], Continue)
      else (started, Continue)
  end.

(** [scanDirectory]: the scans started, and the line logged when the walk
    returns an error. *)
Definition scanDirectory (scan : ScanConfig) (dir : string) (tree : Node)
    : list string * list string :=
  match Walk (visit scan) tree [] with
  | (started, Some err) =>
      (started, ["Error walking directory " +:+ dir +:+ ": " +:+ err])
  | (started, None) => (started, [])
  end.

(** The files of a tree that a scan is due for: not below an excluded or
    unreadable directory, within the size limit, with a listed
    extension; in the order of the walk. *)
Fixpoint due (scan : ScanConfig) (n : Node) : list string :=
  match n with
  | FileNode path size =>
      if (Schedule_MaxFileSize scan <? size)%Z then []
      else if validExt (FileTypes scan) path then [path] else []
  | BadNode _ _ => []
  | DirNode path readErr children =>
      match readErr with
      | Some _ => []
      | None =>
          if excluded scan path then []
          else flat_map (due scan) children
      end
  end.

(** The walk meets no error: every path can be examined and every
    directory outside the excluded ones can be read. *)
Fixpoint sound (scan : ScanConfig) (n : Node) : bool :=
  match n with
  | FileNode _ _ => true
  | BadNode _ _ => false
  | DirNode path readErr children =>
      match readErr with
      | Some _ => false
      | None => excluded scan path || forallb (sound scan) children
      end
  end.

End scheduled.

(** ** [RealtimeScanner.Start] and [ScheduledScanner.Start]: the state *)

Module starts.
Import fswalk scheduled.

(** The realtime scanner: [isRunning], the directories added to the
    watcher, and whether the watch loop [go s.watch()] was started. *)
Record RealtimeScanner := {
  rt_isRunning : bool;
  rt_watched : list string;
  rt_watching : bool;
}.

(** The walk function of [RealtimeScanner.Start]; [add] is
    [s.watcher.Add] with the error it returns, if any.  As for [visit],
    the second case does not arise in a walk. *)
Definition register (excludeDirs : list string) (add : string -> option string)
    (watched : list string) (path : string) (info : option FileInfo)
    (err : option string) : list string * Verdict :=
  match err, info with
  | Some e, _ => (watched, Fail e)
  | None, None => (watched, Fail "invalid memory address or nil pointer dereference")
  | None, Some info =>
      if IsDir info then
        if existsb (String.eqb path) excludeDirs then (watched, SkipDir)
        else match add path with
             | Some e => (watched, Fail e)
             | None => (watched ++ [path], Continue)
             end
      else (watched, Continue)
  end.

(** The loop over [Directories]: the first walk that returns an error
    ends it. *)
Fixpoint registerAll (excludeDirs : list string) (add : string -> option string)
    (tree : string -> Node) (directories : list string) (watched : list string)
    : list string * option string :=
  match directories with
  | [] => (watched, None)
  | dir :: rest =>
      match Walk (register excludeDirs add) (tree dir) watched with
      | (watched', Some err) => (watched', Some err)
      | (watched', None) => registerAll excludeDirs add tree rest watched'
      end
  end.

(** [RealtimeScanner.Start]; [enabled] is [Scan.Realtime.Enabled] and
    [tree] gives the directory tree below each configured directory. *)
Definition RealtimeStart (enabled : bool) (directories excludeDirs : list string)
    (add : string -> option string) (tree : string -> Node) (s : RealtimeScanner)
    : RealtimeScanner * outcome unit :=
  if negb enabled then (s, Err "realtime scanning is disabled in configuration")
  else if rt_isRunning s then (s, Err "scanner is already running")
  else
    match registerAll excludeDirs add tree directories (rt_watched s) with
    | (watched, Some err) =>
        ({| rt_isRunning := true; rt_watched := watched; rt_watching := rt_watching s |},
         Err ("failed to add directory to watcher: " +:+ err))
    | (watched, None) =>
        ({| rt_isRunning := true; rt_watched := watched; rt_watching := true |}, Ok tt)
    end.

(** The scheduled scanner: [isRunning], whether the ticker was created,
    and whether the scan loop was started. *)
Record ScheduledScanner := {
  sc_isRunning : bool;
  sc_ticker : bool;
  sc_looping : bool;
}.

(** [ScheduledScanner.Start], up to the start of the scan loop;
    [parseError] is the error of [time.Parse] on the configured start
    time, if any. *)
Definition ScheduledStart (enabled : bool) (parseError : option string)
    (s : ScheduledScanner) : ScheduledScanner * outcome unit :=
  if negb enabled then (s, Err "scheduled scanning is disabled in configuration")
  else if sc_isRunning s then (s, Err "scanner is already running")
  else
    match parseError with
    | Some err =>
        ({| sc_isRunning := true; sc_ticker := sc_ticker s; sc_looping := sc_looping s |},
         Err ("invalid start time format: " +:+ err))
    | None =>
        ({| sc_isRunning := true; sc_ticker := true; sc_looping := true |}, Ok tt)
    end.

End starts.

(** ** Further inputs: a web root *)

Module inputs3.
Import fswalk scheduled starts.

Definition idle : RealtimeScanner :=
  {| rt_isRunning := false; rt_watched := []; rt_watching := false |}.

Definition scanConfig : ScanConfig :=
  {| ExcludeDirs := ["/var/www/html/cache"; "/var/www/html/uploads"];
     FileTypes := [".php"; ".jsp"; ".asp"; ".aspx"];
     Schedule_MaxFileSize := 10485760 |}.

(** A web root with a page, an archive that is too large, a style sheet,
    a script in an excluded directory, a script in a subdirectory, and a
    script whose extension is in capitals. *)
Definition webRoot : Node :=
  DirNode "/var/www/html" None
    [ DirNode "/var/www/html/cache" None
        [ FileNode "/var/www/html/cache/c.php" 120 ];
      FileNode "/var/www/html/dump.php" 20000000;
      FileNode "/var/www/html/index.php" 2048;
      DirNode "/var/www/html/lib" None
        [ FileNode "/var/www/html/lib/db.php" 512;
          FileNode "/var/www/html/lib/SHELL.PHP" 64 ];
      FileNode "/var/www/html/site.css" 300 ].

(** The same root with a subdirectory that cannot be read. *)
Definition brokenRoot : Node :=
  DirNode "/var/www/html" None
    [ FileNode "/var/www/html/index.php" 2048;
      DirNode "/var/www/html/private" (Some "permission denied") [];
      FileNode "/var/www/html/z.php" 10 ].

End inputs3.

(** * Properties *)

(** ** Score comparisons *)

Lemma Qgtb_true (x y : Q) : (x >? y) = true <-> y < x.
Proof.
  unfold Qgtb. rewrite negb_true_iff, <- not_true_iff_false, Qle_bool_iff.
  split; [apply Qnot_le_lt | apply Qlt_not_le].
Qed.

Lemma Qgtb_false (x y : Q) : (x >? y) = false <-> x <= y.
Proof. unfold Qgtb. rewrite negb_false_iff. apply Qle_bool_iff. Qed.

Lemma Qgeb_true (x y : Q) : (x >=? y) = true <-> y <= x.
Proof. apply Qle_bool_iff. Qed.

Lemma Qgeb_false (x y : Q) : (x >=? y) = false <-> x < y.
Proof.
  unfold Qgeb. rewrite <- not_true_iff_false, Qle_bool_iff.
  split; [apply Qnot_le_lt | apply Qlt_not_le].
Qed.

Lemma Qeqb_true (x y : Q) : (x ==? y) = true <-> x == y.
Proof. apply Qeq_bool_iff. Qed.

Lemma Qeqb_false (x y : Q) : (x ==? y) = false <-> ~ x == y.
Proof. rewrite <- not_true_iff_false, Qeq_bool_iff. reflexivity. Qed.

(** Case analysis on every score comparison in sight, each turned into
    the order fact it decides. *)
Ltac qcase :=
  repeat match goal with
  | |- context [?x >? ?y] =>
      let E := fresh "E" in
      destruct (x >? y) eqn:E;
      [apply Qgtb_true in E | apply Qgtb_false in E]
  | |- context [?x >=? ?y] =>
      let E := fresh "E" in
      destruct (x >=? y) eqn:E;
      [apply Qgeb_true in E | apply Qgeb_false in E]
  | |- context [?x ==? ?y] =>
      let E := fresh "E" in
      destruct (x ==? y) eqn:E;
      [apply Qeqb_true in E | apply Qeqb_false in E]
  end.

(** ** [float64]: rounding, order and arithmetic *)

Lemma overflow_large : 1000000 < float64.overflow.
Proof. vm_compute. reflexivity. Qed.

Lemma round_Num (q : Q) :
  - float64.overflow < q -> q < float64.overflow -> float64.round q = float64.Num q.
Proof.
  intros Hlo Hhi. unfold float64.round.
  destruct (Qle_bool float64.overflow q) eqn:E1.
  { apply Qle_bool_iff in E1. exfalso. revert E1. apply Qlt_not_le, Hhi. }
  destruct (Qle_bool q (- float64.overflow)) eqn:E2.
  { apply Qle_bool_iff in E2. exfalso. revert E2. apply Qlt_not_le, Hlo. }
  reflexivity.
Qed.

(** A value of at most a million in magnitude is far from the overflow. *)
Lemma round_small (q : Q) :
  - 1000000 <= q <= 1000000 -> float64.round q = float64.Num q.
Proof.
  intros [Hlo Hhi]. pose proof overflow_large as Ho.
  apply round_Num.
  - eapply Qlt_le_trans; [|exact Hlo].
    apply Qopp_lt_compat in Ho. exact Ho.
  - eapply Qle_lt_trans; [exact Hhi | exact Ho].
Qed.

Lemma round_eqv (q q' : Q) :
  q == q' -> float64.eqv (float64.round q) (float64.round q').
Proof.
  intros H. unfold float64.round.
  assert (E1 : Qle_bool float64.overflow q = Qle_bool float64.overflow q').
  { apply eq_true_iff_eq. rewrite !Qle_bool_iff, H. reflexivity. }
  assert (E2 : Qle_bool q (- float64.overflow) = Qle_bool q' (- float64.overflow)).
  { apply eq_true_iff_eq. rewrite !Qle_bool_iff, H. reflexivity. }
  rewrite E1, E2.
  destruct (Qle_bool float64.overflow q'); [exact I|].
  destruct (Qle_bool q' (- float64.overflow)); [exact I | exact H].
Qed.

Lemma eqv_refl (x : float64.t) : float64.eqv x x.
Proof. destruct x; cbn; [reflexivity | exact I..]. Qed.

Lemma eqv_trans (x y z : float64.t) :
  float64.eqv x y -> float64.eqv y z -> float64.eqv x z.
Proof.
  destruct x, y, z; cbn; try tauto. intros H1 H2. rewrite H1. exact H2.
Qed.

Lemma scaleInf_eqv positive (a a' : Q) :
  a == a' -> float64.scaleInf positive a = float64.scaleInf positive a'.
Proof. intros H. unfold float64.scaleInf. rewrite H. reflexivity. Qed.

Lemma add_eqv (x x' y y' : float64.t) :
  float64.eqv x x' -> float64.eqv y y' ->
  float64.eqv (float64.add x y) (float64.add x' y').
Proof.
  destruct x, x'; cbn [float64.eqv]; try contradiction;
    destruct y, y'; cbn [float64.eqv float64.add]; try contradiction; try (intros; exact I).
  intros H1 H2. apply round_eqv. rewrite H1, H2. reflexivity.
Qed.

Lemma mul_eqv (x x' y y' : float64.t) :
  float64.eqv x x' -> float64.eqv y y' ->
  float64.eqv (float64.mul x y) (float64.mul x' y').
Proof.
  destruct x, x'; cbn [float64.eqv]; try contradiction;
    destruct y, y'; cbn [float64.eqv float64.mul]; try contradiction;
    intros H1 H2; try exact I.
  - apply round_eqv. rewrite H1, H2. reflexivity.
  - rewrite (scaleInf_eqv _ _ _ H1). apply eqv_refl.
  - rewrite (scaleInf_eqv _ _ _ H1). apply eqv_refl.
  - rewrite (scaleInf_eqv _ _ _ H2). apply eqv_refl.
  - rewrite (scaleInf_eqv _ _ _ H2). apply eqv_refl.
Qed.

Lemma div_eqv (x x' y y' : float64.t) :
  float64.eqv x x' -> float64.eqv y y' ->
  float64.eqv (float64.div x y) (float64.div x' y').
Proof.
  destruct x, x'; cbn [float64.eqv]; try contradiction;
    destruct y, y'; cbn [float64.eqv float64.div]; try contradiction;
    intros H1 H2; try exact I; try reflexivity.
  - assert (E : Qeq_bool q1 0 = Qeq_bool q2 0).
    { apply eq_true_iff_eq. rewrite !Qeq_bool_iff, H2. reflexivity. }
    rewrite E. destruct (Qeq_bool q2 0) eqn:E0.
    + rewrite (scaleInf_eqv _ _ _ H1). apply eqv_refl.
    + apply round_eqv. rewrite H1, H2. reflexivity.
  - assert (E : Qle_bool 0 q = Qle_bool 0 q0).
    { apply eq_true_iff_eq. rewrite !Qle_bool_iff, H2. reflexivity. }
    rewrite E. destruct (Qle_bool 0 q0); exact I.
  - assert (E : Qle_bool 0 q = Qle_bool 0 q0).
    { apply eq_true_iff_eq. rewrite !Qle_bool_iff, H2. reflexivity. }
    rewrite E. destruct (Qle_bool 0 q0); exact I.
Qed.

Lemma mul_comm (x y : float64.t) :
  float64.eqv (float64.mul x y) (float64.mul y x).
Proof.
  destruct x, y; cbn [float64.eqv float64.mul]; try exact I; try apply eqv_refl.
  apply round_eqv. apply Qmult_comm.
Qed.

(** Operations on finite values far from the overflow are exact. *)
Lemma add_small (a b : Q) :
  - 1000000 <= a + b <= 1000000 ->
  float64.add (float64.Num a) (float64.Num b) = float64.Num (a + b).
Proof. intros H. cbn [float64.add]. apply round_small, H. Qed.

Lemma mul_small (a b : Q) :
  - 1000000 <= a * b <= 1000000 ->
  float64.mul (float64.Num a) (float64.Num b) = float64.Num (a * b).
Proof. intros H. cbn [float64.mul]. apply round_small, H. Qed.

Lemma div_small (a b : Q) :
  0 < b -> - 1000000 * b <= a <= 1000000 * b ->
  float64.div (float64.Num a) (float64.Num b) = float64.Num (a / b).
Proof.
  intros Hb [Hlo Hhi]. cbn [float64.div].
  destruct (Qeq_bool b 0) eqn:E.
  { apply Qeq_bool_iff in E. rewrite E in Hb. exfalso. revert Hb. apply Qlt_irrefl. }
  apply round_small. split.
  - apply Qle_shift_div_l; assumption.
  - apply Qle_shift_div_r; assumption.
Qed.

(** NaN absorbs. *)
Lemma add_NaN_r (x : float64.t) : float64.add x float64.NaN = float64.NaN.
Proof. destruct x; reflexivity. Qed.

(** Upper bounds: an overflow to the negative infinity keeps them. *)
Lemma atMost_round (q c : Q) :
  q <= c -> c < float64.overflow -> float64.atMost (float64.round q) c.
Proof.
  intros Hq Hc. unfold float64.round.
  destruct (Qle_bool float64.overflow q) eqn:E1.
  { apply Qle_bool_iff in E1. exfalso.
    apply (Qlt_irrefl c). eapply Qlt_le_trans; [exact Hc|].
    eapply Qle_trans; [exact E1 | exact Hq]. }
  destruct (Qle_bool q (- float64.overflow)); [exact I | exact Hq].
Qed.

Lemma atMost_add (x y : float64.t) (a b : Q) :
  float64.atMost x a -> float64.atMost y b -> a + b < float64.overflow ->
  float64.atMost (float64.add x y) (a + b).
Proof.
  destruct x as [p | | |], y as [q | | |]; cbn [float64.atMost float64.add];
    try contradiction; try (intros; exact I).
  intros Hp Hq Hc. apply atMost_round; [|exact Hc].
  apply Qplus_le_compat; assumption.
Qed.

Lemma atMost_mul (x : float64.t) (a w : Q) :
  float64.atMost x a -> 0 < w -> a * w < float64.overflow ->
  float64.atMost (float64.mul x (float64.Num w)) (a * w).
Proof.
  intros Hx Hw Hc.
  destruct x as [p | | |]; cbn [float64.atMost float64.mul] in *; try contradiction.
  - apply atMost_round; [|exact Hc].
    apply Qmult_le_compat_r; [exact Hx | apply Qlt_le_weak, Hw].
  - unfold float64.scaleInf.
    apply Qgt_alt in Hw. rewrite Hw. exact I.
Qed.

Lemma atMost_div (x : float64.t) (a w : Q) :
  float64.atMost x a -> 0 < w -> a / w < float64.overflow ->
  float64.atMost (float64.div x (float64.Num w)) (a / w).
Proof.
  intros Hx Hw Hc.
  destruct x as [p | | |]; cbn [float64.atMost float64.div] in *; try contradiction.
  - destruct (Qeq_bool w 0) eqn:E.
    { apply Qeq_bool_iff in E. rewrite E in Hw. exfalso. revert Hw. apply Qlt_irrefl. }
    apply atMost_round; [|exact Hc].
    unfold Qdiv. apply Qmult_le_compat_r; [exact Hx|].
    apply Qlt_le_weak, Qinv_lt_0_compat, Hw.
  - assert (E : Qle_bool 0 w = true) by (apply Qle_bool_iff, Qlt_le_weak, Hw).
    rewrite E. exact I.
Qed.

Lemma atMost_not_le (x : float64.t) (c c' : Q) :
  float64.atMost x c -> c < c' -> float64.le (float64.Num c') x -> False.
Proof.
  unfold float64.le.
  destruct x as [p | | |]; cbn [float64.atMost float64.leb]; try contradiction;
    intros Hx Hc H; [|discriminate].
  apply Qle_bool_iff in H. apply (Qlt_irrefl c).
  eapply Qlt_le_trans; [exact Hc|]. eapply Qle_trans; [exact H | exact Hx].
Qed.

(** The comparisons of finite values. *)
Lemma gtb_Num (q c : Q) : float64.gtb (float64.Num q) (float64.Num c) = (q >? c).
Proof. reflexivity. Qed.

Lemma ltb_Num (q c : Q) : float64.ltb (float64.Num q) (float64.Num c) = (c >? q).
Proof. reflexivity. Qed.

(** ** The weights of the blend *)

Import detector aux.

Lemma weights_feature : weights !!! "feature" = 0.5.
Proof. reflexivity. Qed.

Lemma weights_behavior : weights !!! "behavior" = 0.3.
Proof. reflexivity. Qed.

Lemma weights_ml : weights !!! "ml" = 0.2.
Proof. reflexivity. Qed.

(** ** What the stages of [calculateTotalScore] leave unchanged *)

Lemma blendBehavior_fixed cfg b :
  FeatureScore (blended (blendBehavior cfg b)) = FeatureScore (blended b) /\
  Behaviors (blended (blendBehavior cfg b)) = Behaviors (blended b) /\
  MLScore (blended (blendBehavior cfg b)) = MLScore (blended b).
Proof.
  unfold blendBehavior.
  destruct (BehaviorAnalysis_Enabled _); [|done].
  destruct (length _ =? 0)%nat; done.
Qed.

Lemma blendML_fixed cfg b :
  FeatureScore (blended (blendML cfg b)) = FeatureScore (blended b) /\
  Behaviors (blended (blendML cfg b)) = Behaviors (blended b) /\
  BehaviorScore (blended (blendML cfg b)) = BehaviorScore (blended b).
Proof.
  unfold blendML.
  destruct (MachineLearning_Enabled _); [|done].
  destruct (_ && _); done.
Qed.

Lemma blend_fixed cfg r :
  FeatureScore (blend cfg r) = FeatureScore r /\
  Behaviors (blend cfg r) = Behaviors r.
Proof.
  unfold blend; cbn.
  destruct (blendML_fixed cfg (blendBehavior cfg (blendFeature r))) as (-> & -> & _).
  destruct (blendBehavior_fixed cfg (blendFeature r)) as (-> & -> & _).
  done.
Qed.

Lemma classify_fixed r :
  FeatureScore (classify r) = FeatureScore r /\
  Behaviors (classify r) = Behaviors r /\
  TotalScore (classify r) = TotalScore r.
Proof. unfold classify. repeat (destruct (float64.geb _ _)); done. Qed.

Lemma overrideHigh_fixed r :
  FeatureScore (overrideHigh r) = FeatureScore r /\
  Behaviors (overrideHigh r) = Behaviors r /\
  TotalScore (overrideHigh r) = TotalScore r.
Proof. unfold overrideHigh. destruct (_ >? _); done. Qed.

Lemma overrideSafe_fixed r :
  FeatureScore (overrideSafe r) = FeatureScore r /\
  Behaviors (overrideSafe r) = Behaviors r.
Proof.
  unfold overrideSafe. destruct (_ && _); [|done].
  cbv zeta. destruct (float64.gtb _ _); done.
Qed.

Lemma calculateTotalScore_fixed cfg r :
  FeatureScore (calculateTotalScore cfg r) = FeatureScore r /\
  Behaviors (calculateTotalScore cfg r) = Behaviors r.
Proof.
  unfold calculateTotalScore.
  destruct (overrideSafe_fixed (overrideHigh (classify (blend cfg r)))) as (-> & ->).
  destruct (overrideHigh_fixed (classify (blend cfg r))) as (-> & -> & _).
  destruct (classify_fixed (blend cfg r)) as (-> & -> & _).
  apply blend_fixed.
Qed.

Lemma noBehaviors_length (l : list string) : (length l =? 0)%nat = true <-> l = [].
Proof. destruct l; cbn; split; done. Qed.

(** ** The overrides *)

Lemma overrideHigh_high r :
  90 < FeatureScore r ->
  RiskLevel (overrideHigh r) = RiskLevelHigh /\ IsWebshell (overrideHigh r) = true.
Proof.
  intros H. unfold overrideHigh.
  apply Qgtb_true in H. rewrite H. done.
Qed.

Lemma overrideSafe_skipped r :
  ~ FeatureScore r == 0 -> overrideSafe r = r.
Proof.
  intros H. unfold overrideSafe.
  apply Qeqb_false in H. rewrite H. done.
Qed.

Lemma calculateTotalScore_high cfg r :
  90 < FeatureScore r ->
  RiskLevel (calculateTotalScore cfg r) = RiskLevelHigh /\
  IsWebshell (calculateTotalScore cfg r) = true.
Proof.
  intros H. unfold calculateTotalScore.
  set (c := classify (blend cfg r)).
  assert (Hc : FeatureScore c = FeatureScore r).
  { unfold c. destruct (classify_fixed (blend cfg r)) as (-> & _).
    apply blend_fixed. }
  rewrite overrideSafe_skipped.
  - apply overrideHigh_high. rewrite Hc. exact H.
  - destruct (overrideHigh_fixed c) as (-> & _). rewrite Hc. lra.
Qed.

(** The cap of [overrideSafe]: the total ends at most 30 unless it is
    NaN, and a NaN total stays NaN. *)
Lemma overrideSafe_safe r :
  FeatureScore r == 0 -> Behaviors r = [] ->
  RiskLevel (overrideSafe r) = RiskLevelSafe /\
  IsWebshell (overrideSafe r) = false /\
  (TotalScore r = float64.NaN -> TotalScore (overrideSafe r) = float64.NaN) /\
  (TotalScore r <> float64.NaN ->
   float64.le (TotalScore (overrideSafe r)) (float64.Num 30)).
Proof.
  intros HF HB. unfold overrideSafe.
  apply Qeqb_true in HF. rewrite HF, HB. cbn [length Nat.eqb andb].
  cbv zeta. cbn [TotalScore set_IsWebshell set_RiskLevel].
  unfold float64.le.
  destruct (TotalScore r) as [q | | |] eqn:ET; cbn [float64.gtb float64.ltb].
  - destruct (negb (Qle_bool q 30)) eqn:E; cbn; rewrite ?ET; repeat split; try congruence.
    intros _. apply negb_false_iff in E. exact E.
  - cbn. repeat split; congruence.
  - cbn. rewrite ET. repeat split; congruence.
  - cbn. rewrite ET. repeat split; congruence.
Qed.

Lemma calculateTotalScore_safe cfg r :
  FeatureScore r == 0 -> Behaviors r = [] ->
  RiskLevel (calculateTotalScore cfg r) = RiskLevelSafe /\
  IsWebshell (calculateTotalScore cfg r) = false /\
  (TotalScore (blend cfg r) = float64.NaN ->
   TotalScore (calculateTotalScore cfg r) = float64.NaN) /\
  (TotalScore (blend cfg r) <> float64.NaN ->
   float64.le (TotalScore (calculateTotalScore cfg r)) (float64.Num 30)).
Proof.
  intros HF HB. unfold calculateTotalScore.
  set (h := overrideHigh (classify (blend cfg r))).
  assert (Hh : FeatureScore h = FeatureScore r /\ Behaviors h = Behaviors r /\
               TotalScore h = TotalScore (blend cfg r)).
  { unfold h.
    destruct (overrideHigh_fixed (classify (blend cfg r))) as (-> & -> & ->).
    destruct (classify_fixed (blend cfg r)) as (-> & -> & ->).
    destruct (blend_fixed cfg r) as (-> & ->). done. }
  destruct Hh as (HhF & HhB & HhT).
  rewrite <- HhT. apply overrideSafe_safe.
  - rewrite HhF. exact HF.
  - rewrite HhB. exact HB.
Qed.

(** ** The blend *)

Lemma blend_TotalScore cfg r :
  TotalScore (blend cfg r) =
  float64.div (totalScore (blendML cfg (blendBehavior cfg (blendFeature r))))
              (totalWeight (blendML cfg (blendBehavior cfg (blendFeature r)))).
Proof. reflexivity. Qed.

Lemma blend_weightedAverage cfg r :
  float64.eqv (TotalScore (blend cfg r))
              (spec.weightedAverage (spec.enabledMethods cfg r)).
Proof.
  rewrite blend_TotalScore.
  unfold spec.weightedAverage, spec.enabledMethods, blendML, blendBehavior, blendFeature.
  rewrite weights_feature, weights_behavior, weights_ml.
  destruct r as [fp iw rl fs bs ms mf [|b beh] ts];
    destruct (BehaviorAnalysis_Enabled _), (MachineLearning_Enabled _);
    cbn [blended totalScore totalWeight Behaviors FeatureScore BehaviorScore MLScore
         set_BehaviorScore set_MLScore length Nat.eqb andb app fold_left fst snd];
    try (destruct (fs ==? 0);
         cbn [blended totalScore totalWeight Behaviors FeatureScore BehaviorScore MLScore
              set_BehaviorScore set_MLScore length Nat.eqb andb app fold_left fst snd]);
    (apply div_eqv;
     [ repeat (apply add_eqv; [| apply mul_comm]); apply eqv_refl
     | vm_compute; reflexivity ]).
Qed.

(** ** The threshold classification *)

Lemma classify_cases r :
  (float64.le (float64.Num 85) (TotalScore r) ->
     RiskLevel (classify r) = RiskLevelHigh /\ IsWebshell (classify r) = true) /\
  (float64.le (float64.Num 70) (TotalScore r) /\
   float64.lt (TotalScore r) (float64.Num 85) ->
     RiskLevel (classify r) = RiskLevelMedium /\
     IsWebshell (classify r) = (FeatureScore r >? 80)) /\
  (float64.le (float64.Num 40) (TotalScore r) /\
   float64.lt (TotalScore r) (float64.Num 70) ->
     RiskLevel (classify r) = RiskLevelLow /\ IsWebshell (classify r) = false) /\
  (float64.lt (TotalScore r) (float64.Num 40) \/ TotalScore r = float64.NaN ->
     RiskLevel (classify r) = RiskLevelSafe /\ IsWebshell (classify r) = false).
Proof.
  unfold classify, float64.le, float64.lt, float64.geb.
  destruct (TotalScore r) as [q | | |]; cbn [float64.leb float64.ltb].
  - change (Qle_bool 85 q) with (q >=? 85).
    change (Qle_bool 70 q) with (q >=? 70).
    change (Qle_bool 40 q) with (q >=? 40).
    destruct (q >=? 85) eqn:E85;
      [apply Qgeb_true in E85 | apply Qgeb_false in E85];
    (destruct (q >=? 70) eqn:E70;
      [apply Qgeb_true in E70 | apply Qgeb_false in E70]);
    (destruct (q >=? 40) eqn:E40;
      [apply Qgeb_true in E40 | apply Qgeb_false in E40]);
    cbn; repeat split; try (intros; lra); try (intros; intuition (discriminate || lra)).
  - cbn. intuition discriminate.
  - cbn. intuition discriminate.
  - cbn. intuition discriminate.
Qed.

Lemma classify_flagged r :
  IsWebshell (classify r) = true ->
  float64.le (float64.Num 85) (TotalScore r) \/
  (float64.le (float64.Num 70) (TotalScore r) /\ 80 < FeatureScore r).
Proof.
  unfold classify, float64.le. fold (float64.geb (TotalScore r) (float64.Num 85)).
  fold (float64.geb (TotalScore r) (float64.Num 70)).
  destruct (float64.geb (TotalScore r) (float64.Num 85)) eqn:E85; [auto|].
  destruct (float64.geb (TotalScore r) (float64.Num 70)) eqn:E70.
  - cbn. intros H%Qgtb_true. auto.
  - destruct (float64.geb (TotalScore r) (float64.Num 40)); cbn; discriminate.
Qed.

Lemma overrideSafe_cases r :
  overrideSafe r = r \/ IsWebshell (overrideSafe r) = false.
Proof.
  unfold overrideSafe.
  destruct (_ && _); [right | left; reflexivity].
  cbv zeta. destruct (float64.gtb _ _); reflexivity.
Qed.

Lemma calculateTotalScore_flagged cfg r :
  IsWebshell (calculateTotalScore cfg r) = true ->
  90 < FeatureScore (calculateTotalScore cfg r) \/
  float64.le (float64.Num 85) (TotalScore (calculateTotalScore cfg r)) \/
  (float64.le (float64.Num 70) (TotalScore (calculateTotalScore cfg r)) /\
   80 < FeatureScore (calculateTotalScore cfg r)).
Proof.
  destruct (calculateTotalScore_fixed cfg r) as (-> & _).
  unfold calculateTotalScore.
  set (c := classify (blend cfg r)).
  destruct (classify_fixed (blend cfg r)) as (HF & _ & HT). fold c in HF, HT.
  destruct (blend_fixed cfg r) as (HbF & _). rewrite HbF in HF.
  destruct (overrideSafe_cases (overrideHigh c)) as [-> | ->]; [|discriminate].
  destruct (overrideHigh_fixed c) as (_ & _ & ->). rewrite HT.
  unfold overrideHigh. rewrite HF.
  destruct (FeatureScore r >? 90) eqn:E90.
  { apply Qgtb_true in E90. auto. }
  intros H. apply classify_flagged in H. rewrite HbF in H. tauto.
Qed.

(** ** Computations with printed lines *)

Lemma bind_Ok_inv {A B} (m : M A) (k : A -> M B) b out :
  (m ≫= k) = (Ok b, out) ->
  exists a o1 o2, m = (Ok a, o1) /\ k a = (Ok b, o2) /\ out = o1 ++ o2.
Proof.
  unfold mbind, M_bind, bind.
  destruct m as [[a | e | e] o1]; [|discriminate..].
  destruct (k a) as [rb o2] eqn:Hk. intros [= -> <-].
  exists a, o1, o2. done.
Qed.

Lemma wrap_Ok_inv {A} prefix (m : M A) a out :
  wrap prefix m = (Ok a, out) -> m = (Ok a, out).
Proof. destruct m as [[x | e | e] o]; cbn; congruence. Qed.

Lemma wrap_is_Panic {A} prefix (m : M A) :
  is_Panic (wrap prefix m).1 = is_Panic m.1.
Proof. destruct m as [[x | e | e] o]; reflexivity. Qed.

(** ** Feature matching *)

Lemma WebshellPatterns_nonneg :
  Forall (fun p => 0 <= PatternScore p) WebshellPatterns.
Proof. repeat constructor; cbn; lra. Qed.

Lemma matchRegexLoop_nonneg w s patterns score matches :
  Forall (fun p => 0 <= PatternScore p) patterns ->
  0 <= score ->
  0 <= (matchRegexLoop w s patterns score matches).1.
Proof.
  intros HP. revert score matches.
  induction HP as [|p ps Hp _ IH]; intros score matches Hs; cbn; [exact Hs|].
  destruct (MatchString w (Pattern p) s); apply IH; lra.
Qed.

Lemma matchRegexLoop_none w s patterns score matches :
  (forall p, In p patterns -> MatchString w (Pattern p) s = false) ->
  matchRegexLoop w s patterns score matches = (score, matches).
Proof.
  revert score matches.
  induction patterns as [|p ps IH]; intros score matches H; cbn; [reflexivity|].
  rewrite (H p) by (left; reflexivity).
  apply IH. intros q Hq. apply H. right. exact Hq.
Qed.

Lemma addMatches_nonneg acc m : 0 <= acc.1 -> 0 <= (addMatches acc m).1.
Proof.
  unfold addMatches. revert acc.
  induction m as [|mr m IH]; intros acc H; cbn; [exact H|].
  apply IH. cbn. lra.
Qed.

Lemma walkFn_nonneg w content acc v :
  0 <= acc.1 -> 0 <= (walkFn w content acc v).1.1.
Proof.
  intros H. unfold walkFn.
  destruct (visit_err v); [exact H|].
  destruct (_ && _); [|exact H].
  destruct (Yara_ w (visit_path v) content); try exact H.
  cbn. apply addMatches_nonneg, H.
Qed.

Lemma walk_nonneg w content visits acc :
  0 <= acc.1 -> 0 <= (walk w content visits acc).1.1.
Proof.
  revert acc. induction visits as [|v vs IH]; intros acc H; cbn; [exact H|].
  pose proof (walkFn_nonneg w content acc v H) as Hv.
  destruct (walkFn w content acc v) as [acc' [err|]]; cbn in *; [exact Hv|].
  apply IH, Hv.
Qed.

Lemma yaraLoop_nonneg w cfg content ruleTypes acc :
  0 <= acc.1 -> 0 <= (yaraLoop w cfg content ruleTypes acc).1.1.
Proof.
  revert acc. induction ruleTypes as [|t ts IH]; intros acc H; cbn; [exact H|].
  pose proof (walk_nonneg w content (Walk w (Join2 (RulesDir cfg) t)) acc H) as Hw.
  destruct (walk w content _ acc) as [acc' [err|]]; cbn in Hw.
  - specialize (IH acc' Hw). destruct (yaraLoop w cfg content ts acc'). exact IH.
  - apply IH, Hw.
Qed.

(** [matchYaraRules] never returns an error: its score is in [0, 100]. *)
Lemma matchYaraRules_Ok w cfg content :
  exists score matches out,
    matchYaraRules w cfg content = (Ok (score, matches), out) /\
    0 <= score <= 100.
Proof.
  unfold matchYaraRules.
  pose proof (yaraLoop_nonneg w (Yara (Detection cfg)) content
                (RuleTypes (Yara (Detection cfg))) (0, [])) as H.
  destruct (yaraLoop _ _ _ _ _) as [acc out]. cbn in H.
  eexists _, _, _. split; [reflexivity|].
  specialize (H ltac:(lra)).
  qcase; lra.
Qed.

(** Without any match reported by the engine the accumulator of the walk
    is unchanged. *)

Lemma walk_noMatch w content visits acc :
  noYaraMatch w content -> (walk w content visits acc).1 = acc.
Proof.
  intros H. induction visits as [|v vs IH]; cbn; [reflexivity|].
  unfold walkFn.
  destruct (visit_err v); [reflexivity|].
  destruct (_ && _); [|exact IH].
  destruct (Yara_ w (visit_path v) content) eqn:E; try reflexivity.
  rewrite (H _ _ E). cbn. exact IH.
Qed.

Lemma yaraLoop_noMatch w cfg content ruleTypes acc :
  noYaraMatch w content -> (yaraLoop w cfg content ruleTypes acc).1 = acc.
Proof.
  intros H. induction ruleTypes as [|t ts IH]; cbn; [reflexivity|].
  pose proof (walk_noMatch w content (Walk w (Join2 (RulesDir cfg) t)) acc H) as Hw.
  destruct (walk w content _ acc) as [acc' [err|]]; cbn in Hw; subst acc'.
  - destruct (yaraLoop w cfg content ts acc). exact IH.
  - exact IH.
Qed.

Lemma matchYaraRules_noMatch w cfg content :
  noYaraMatch w content ->
  exists out, matchYaraRules w cfg content = (Ok (0, []), out).
Proof.
  intros H. unfold matchYaraRules.
  pose proof (yaraLoop_noMatch w (Yara (Detection cfg)) content
                (RuleTypes (Yara (Detection cfg))) (0, []) H) as Hy.
  destruct (yaraLoop _ _ _ _ _) as [acc out]. cbn in Hy. subst acc.
  exists out. reflexivity.
Qed.



Lemma featureMatch_too_large w cfg content :
  (MaxFileSize (Yara (Detection cfg)) < Z.of_nat (String.length content))%Z ->
  featureMatch w cfg content =
  (Err "file size exceeds maximum allowed size for YARA scanning", []).
Proof.
  intros H. unfold featureMatch.
  apply Z.ltb_lt in H. rewrite H. reflexivity.
Qed.

Lemma featureMatch_within w cfg content :
  (Z.of_nat (String.length content) <= MaxFileSize (Yara (Detection cfg)))%Z ->
  exists fr out,
    featureMatch w cfg content = (Ok fr, out) /\
    0 <= Score fr <= 100 /\
    (Yara_Enabled (Yara (Detection cfg)) = true ->
     forall line,
       In line (yaraLoop w (Yara (Detection cfg)) content
                  (RuleTypes (Yara (Detection cfg))) (0, [])).2 ->
       In line out) /\
    ((forall p, In p WebshellPatterns -> MatchString w (Pattern p) content = false) ->
     noYaraMatch w content ->
     Score fr == 0 /\ Matches fr = []).
Proof.
  intros H. unfold featureMatch.
  apply Z.ltb_ge in H. rewrite H.
  pose proof (matchRegexLoop_nonneg w content WebshellPatterns 0 []
                WebshellPatterns_nonneg ltac:(lra)) as Hrs.
  pose proof (matchRegexLoop_none w content WebshellPatterns 0 []) as Hnone.
  fold (matchRegexPatterns w content) in Hrs, Hnone.
  destruct (matchRegexPatterns w content) as [rs rm]. cbn in Hrs.
  destruct (Yara_Enabled (Yara (Detection cfg))).
  - destruct (matchYaraRules_Ok w cfg content) as (ys & ym & out & Hy & Hys).
    pose proof (matchYaraRules_noMatch w cfg content) as Hym.
    assert (Hout : out = (yaraLoop w (Yara (Detection cfg)) content
                            (RuleTypes (Yara (Detection cfg))) (0, [])).2).
    { revert Hy. unfold matchYaraRules.
      destruct (yaraLoop _ _ _ _ _) as [acc o]. intros [= _ _ <-]. reflexivity. }
    rewrite Hy. cbn.
    eexists _, _. split; [reflexivity|]. cbn.
    split; [qcase; lra|]. split.
    + intros _ line Hl. rewrite !app_nil_r. rewrite Hout. exact Hl.
    + intros Hre Hya.
      destruct (Hym Hya) as (out' & Hy'). rewrite Hy in Hy'. injection Hy' as -> -> _.
      injection (Hnone Hre) as -> ->. split; [qcase; lra | reflexivity].
  - cbn. eexists _, _. split; [reflexivity|]. cbn.
    split; [qcase; lra|]. split; [discriminate|].
    intros Hre _. injection (Hnone Hre) as -> ->.
    split; [qcase; lra | reflexivity].
Qed.

(** ** [Detect] *)

Lemma orWarn_Ok_inv {A} warning (o : outcome A) use result r out :
  orWarn warning o use result = (Ok r, out) ->
  (exists a, o = Ok a /\ r = use a) \/ (is_Err o = true /\ r = result).
Proof.
  destruct o as [a | e | e]; cbn.
  - intros [= <- _]. left. exists a. done.
  - intros [= <- _]. right. done.
  - discriminate.
Qed.

(** The result of a detection is [calculateTotalScore] applied to a
    result that holds the scores of the three methods: the score of a
    method that is disabled or failed is 0. *)
Lemma Detect_Ok_inv w d o filePath r out :
  Detect w d o filePath = (Ok r, out) ->
  exists content fr fout r0,
    ReadFile w filePath = inl content /\
    featureMatch w (config d) content = (Ok fr, fout) /\
    FeatureScore r0 = Score fr /\
    MatchedFeatures r0 = Matches fr /\
    ((Behaviors r0 = [] /\ BehaviorScore r0 = 0) \/
     (exists br, behaviorAnalyze w (config d) o filePath content = Ok br /\
                 Behaviors r0 = BBehaviors br /\ BehaviorScore r0 = BScore br)) /\
    (MLScore r0 = float64.Num 0 \/
     (MachineLearning_Enabled (MachineLearning (Detection (config d))) = true /\
      mlDetect d content = Ok (MLScore r0))) /\
    r = calculateTotalScore (config d) r0.
Proof.
  unfold Detect. intros H.
  apply bind_Ok_inv in H as (? & ? & ? & _ & H & _).
  destruct (ReadFile w filePath) as [content | err]; [|discriminate].
  apply bind_Ok_inv in H as (? & ? & ? & _ & H & _).
  apply bind_Ok_inv in H as (fr & fout & ? & Hfm & H & _).
  apply wrap_Ok_inv in Hfm.
  apply bind_Ok_inv in H as (r1 & ? & ? & Hb & H & _).
  apply bind_Ok_inv in H as (r2 & ? & ? & Hm & H & _).
  apply bind_Ok_inv in H as (? & ? & ? & _ & H & _).
  injection H as <- _.
  exists content, fr, fout, r2. split; [reflexivity|]. split; [exact Hfm|].
  assert (H1 : FeatureScore r1 = Score fr /\ MatchedFeatures r1 = Matches fr /\ MLScore r1 = float64.Num 0 /\
               ((Behaviors r1 = [] /\ BehaviorScore r1 = 0) \/
                (exists br, behaviorAnalyze w (config d) o filePath content = Ok br /\
                   Behaviors r1 = BBehaviors br /\ BehaviorScore r1 = BScore br))).
  { destruct (BehaviorAnalysis_Enabled _).
    - apply bind_Ok_inv in Hb as (? & ? & ? & _ & Hb & _).
      apply orWarn_Ok_inv in Hb as [(br & Hbr & ->) | (_ & ->)]; cbn.
      + repeat split. right. exists br. done.
      + repeat split. left. done.
    - injection Hb as <- _. cbn. repeat split. left. done. }
  destruct H1 as (HF & HMF & HML & HB).
  assert (H2 : FeatureScore r2 = FeatureScore r1 /\ MatchedFeatures r2 = MatchedFeatures r1 /\
               Behaviors r2 = Behaviors r1 /\
               BehaviorScore r2 = BehaviorScore r1 /\
               (MLScore r2 = float64.Num 0 \/
                (MachineLearning_Enabled (MachineLearning (Detection (config d))) = true /\
                 mlDetect d content = Ok (MLScore r2)))).
  { destruct (MachineLearning_Enabled _).
    - apply bind_Ok_inv in Hm as (? & ? & ? & _ & Hm & _).
      apply orWarn_Ok_inv in Hm as [(s & Hs & ->) | (_ & ->)]; cbn.
      + repeat split. right. split; [reflexivity | exact Hs].
      + repeat split. left. exact HML.
    - injection Hm as <- _. repeat split. left. exact HML. }
  destruct H2 as (-> & -> & -> & -> & HM).
  done.
Qed.

(** ** Behaviour analysis *)

Lemma Qsum_cons x l : Qsum (x :: l) = x + Qsum l.
Proof. reflexivity. Qed.

Lemma Qsum_Permutation (l l' : list Q) :
  Permutation l l' -> Qsum l == Qsum l'.
Proof.
  induction 1 as [| x l l' _ IH | x y l | l l' l'' _ IH1 _ IH2].
  - reflexivity.
  - rewrite !Qsum_cons, IH. reflexivity.
  - rewrite !Qsum_cons. ring.
  - rewrite IH1. exact IH2.
Qed.

Lemma dangerousFileOps_entries :
  map_to_list dangerousFileOps =
  [("symlink(", {| score := 15; behavior := "Attempted to create symbolic links" |});
   ("chown(", {| score := 20; behavior := "Attempted to change file ownership" |});
   ("chmod(", {| score := 20; behavior := "Attempted to change file permissions" |});
   ("unlink(", {| score := 30; behavior := "Attempted to delete files" |});
   ("rmdir(", {| score := 20; behavior := "Attempted to delete directories" |});
   ("rename(", {| score := 10; behavior := "Attempted to rename files" |})].
Proof. vm_compute. reflexivity. Qed.

Lemma sensitiveFiles_nonneg :
  Forall (fun entry : string * Action => 0 <= score entry.2) (map_to_list sensitiveFiles).
Proof.
  assert (H : forallb (fun entry : string * Action => Qle_bool 0 (score entry.2))
                (map_to_list sensitiveFiles) = true) by (vm_compute; reflexivity).
  rewrite forallb_forall in H. apply List.Forall_forall.
  intros e He. apply Qle_bool_iff, H, He.
Qed.

Lemma fileOp_step straceOutput result (e : string * Action) :
  BScore (if fileOpCounted straceOutput e.1
          then addBehavior (Qabs (score e.2)) (behavior e.2) result
          else result) ==
  BScore result + fileOpContribution straceOutput e.
Proof.
  unfold fileOpContribution.
  destruct (fileOpCounted straceOutput e.1); cbn; ring.
Qed.

Lemma scanFileOps_score order straceOutput result :
  BScore (scanFileOps order straceOutput result) ==
  BScore result + Qsum (List.map (fileOpContribution straceOutput) order).
Proof.
  unfold scanFileOps. revert result.
  induction order as [|e es IH]; intros result; cbn [fold_left List.map].
  - cbn. ring.
  - rewrite IH, fileOp_step, Qsum_cons. ring.
Qed.

Lemma fileOpContribution_nonneg straceOutput entry :
  0 <= fileOpContribution straceOutput entry.
Proof.
  unfold fileOpContribution.
  destruct (fileOpCounted _ _); [apply Qabs_nonneg | lra].
Qed.

Lemma Qsum_nonneg (l : list Q) : Forall (fun x => 0 <= x) l -> 0 <= Qsum l.
Proof. induction 1; [cbn; lra | rewrite Qsum_cons; lra]. Qed.

Lemma scanFileOps_nonneg order straceOutput result :
  0 <= BScore result -> 0 <= BScore (scanFileOps order straceOutput result).
Proof.
  intros H. rewrite scanFileOps_score.
  assert (0 <= Qsum (List.map (fileOpContribution straceOutput) order)); [|lra].
  apply Qsum_nonneg, List.Forall_forall.
  intros x (e & <- & _)%in_map_iff. apply fileOpContribution_nonneg.
Qed.

Lemma scanConnect_nonneg straceOutput result :
  0 <= BScore result -> 0 <= BScore (scanConnect straceOutput result).
Proof.
  intros H. unfold scanConnect.
  destruct (strings.Contains straceOutput "connect("); [|exact H].
  destruct (_ && _); [cbn; lra | exact H].
Qed.

Lemma scanCommands_nonneg straceOutput result :
  0 <= BScore result -> 0 <= BScore (scanCommands straceOutput result).
Proof.
  unfold scanCommands. generalize dangerousCommands. intros cmds. revert result.
  induction cmds as [|c cs IH]; intros result H; cbn; [exact H|].
  apply IH. destruct (strings.Contains _ _); [cbn; lra | exact H].
Qed.

Lemma scanSensitive_nonneg order straceOutput result :
  Forall (fun entry : string * Action => 0 <= score entry.2) order ->
  0 <= BScore result -> 0 <= BScore (scanSensitive order straceOutput result).
Proof.
  unfold scanSensitive. intros HO. revert result.
  induction HO as [|e es He _ IH]; intros result H; cbn; [exact H|].
  apply IH. destruct (strings.Contains _ _); [cbn; lra | exact H].
Qed.

Lemma normalize_bounds result :
  0 <= BScore result ->
  0 <= BScore (normalize result) <= 100 /\
  (BBehaviors (normalize result) = [] -> BScore (normalize result) = 0).
Proof.
  intros H. unfold normalize.
  destruct (BBehaviors result) as [|b bs] eqn:HB; cbn.
  - qcase; cbn; (split; [lra|]); intros _; [lra | reflexivity].
  - rewrite HB. qcase; cbn; rewrite ?HB; (split; [lra | discriminate]).
Qed.

Lemma analyzeTrace_bounds o straceOutput :
  validOrder o ->
  0 <= BScore (analyzeTrace o straceOutput) <= 100 /\
  (BBehaviors (analyzeTrace o straceOutput) = [] ->
   BScore (analyzeTrace o straceOutput) = 0).
Proof.
  intros [_ Hs]. unfold analyzeTrace.
  apply normalize_bounds, scanSensitive_nonneg.
  - apply (Permutation_Forall (Permutation_sym Hs)), sensitiveFiles_nonneg.
  - apply scanCommands_nonneg, scanConnect_nonneg, scanFileOps_nonneg. cbn. lra.
Qed.

Lemma behaviorAnalyze_Ok_inv w cfg o filePath content br :
  behaviorAnalyze w cfg o filePath content = Ok br ->
  exists output, br = analyzeTrace o output.
Proof.
  unfold behaviorAnalyze.
  destruct (Sandbox w filePath content _) as [e | e | output [e|]]; try discriminate.
  - destruct (negb _); [discriminate|]. intros [= <-]. eauto.
  - intros [= <-]. eauto.
Qed.

(** ** The machine-learning score *)

Import mlmodel.

(** The clamp leaves a value between 0 and 1, except that NaN passes. *)
Lemma clamp01_NaN : clamp01 float64.NaN = float64.NaN.
Proof. reflexivity. Qed.

Lemma clamp01_bounds score :
  score <> float64.NaN -> float64.within 0 1 (clamp01 score).
Proof.
  intros H. unfold clamp01. destruct score as [q | | |]; [| | |congruence].
  - rewrite gtb_Num, ltb_Num.
    destruct (q >? 1) eqn:E1; [cbn; lra | apply Qgtb_false in E1].
    destruct (0 >? q) eqn:E0; [cbn; lra | apply Qgtb_false in E0].
    cbn. lra.
  - cbn. lra.
  - cbn. lra.
Qed.

(** A prediction between 0 and 1 gives a score between 0 and 100. *)
Lemma scale_100 p :
  float64.within 0 1 p -> float64.within 0 100 (float64.mul p (float64.Num 100)).
Proof.
  destruct p as [q | | |]; cbn [float64.within float64.mul]; try contradiction.
  intros H. rewrite round_small by lra. cbn. lra.
Qed.

Lemma Predict_Ok_inv m features p :
  Predict m features = Ok p ->
  Z.of_nat (length features) = FeatureCount m /\
  exists raw, dot (Weights (Data m)) 0 features (float64.Num 0) = Ok raw /\
              p = clamp01 raw.
Proof.
  unfold Predict.
  destruct (Z.of_nat (length features) =? FeatureCount m)%Z eqn:E; cbn; [|discriminate].
  apply Z.eqb_eq in E.
  destruct (dot _ _ _ _) as [raw | e | e]; try discriminate.
  intros [= <-]. split; [exact E|]. exists raw. done.
Qed.

Lemma mlDetect_Ok_inv d content s :
  mlDetect d content = Ok s ->
  exists model features prediction,
    mlModel d = Some model /\
    extractFeatures content = Ok features /\
    Predict model features = Ok prediction /\
    s = float64.mul prediction (float64.Num 100).
Proof.
  unfold mlDetect.
  destruct (extractFeatures content) as [features | e | e] eqn:EF; try discriminate.
  destruct (mlModel d) as [model|]; [|discriminate].
  destruct (Predict model features) as [p | e | e] eqn:EP; try discriminate.
  intros [= <-]. exists model, features, p. done.
Qed.

(** The ML score is the clamped dot product times 100: between 0 and
    100, unless the dot product is NaN, which the clamp lets through. *)
Lemma mlDetect_bounds d content s :
  mlDetect d content = Ok s ->
  exists model features raw,
    mlModel d = Some model /\
    extractFeatures content = Ok features /\
    dot (Weights (Data model)) 0 features (float64.Num 0) = Ok raw /\
    s = float64.mul (clamp01 raw) (float64.Num 100) /\
    (raw = float64.NaN -> s = float64.NaN) /\
    (raw <> float64.NaN -> float64.within 0 100 s).
Proof.
  intros (model & features & p & Hm & Hf & Hp & ->)%mlDetect_Ok_inv.
  apply Predict_Ok_inv in Hp as (_ & raw & Hraw & ->).
  exists model, features, raw. repeat split; try done.
  - intros ->. reflexivity.
  - intros H. apply scale_100, clamp01_bounds, H.
Qed.

Lemma mlDetect_range d content s :
  mlDetect d content = Ok s -> s = float64.NaN \/ float64.within 0 100 s.
Proof.
  intros (model & features & raw & _ & _ & _ & _ & Hnan & Hnum)%mlDetect_bounds.
  destruct raw as [q | | |]; [right; apply Hnum; discriminate..| left; apply Hnan; reflexivity].
Qed.

(** ** [Predict]: the accesses to the weight vector *)

Lemma dot_in_bounds weights features i score :
  (i + length features <= length weights)%nat ->
  exists raw, dot weights i features score = Ok raw.
Proof.
  revert i score. induction features as [|f fs IH]; intros i score H; cbn.
  - eauto.
  - destruct (weights !! i) as [wt|] eqn:E.
    + apply IH. cbn in H. lia.
    + apply lookup_ge_None in E. cbn in H. lia.
Qed.

Lemma dot_out_of_bounds weights features i score :
  (i <= length weights)%nat ->
  (length weights < i + length features)%nat ->
  dot weights i features score = Panic "index out of range".
Proof.
  revert i score. induction features as [|f fs IH]; intros i score Hi H; cbn.
  - cbn in H. lia.
  - destruct (weights !! i) as [wt|] eqn:E; [|reflexivity].
    apply lookup_lt_Some in E. apply IH; [lia|]. cbn in H. lia.
Qed.

Lemma dot_not_Err weights features i score : is_Err (dot weights i features score) = false.
Proof.
  revert i score. induction features as [|f fs IH]; intros i score; cbn; [reflexivity|].
  destruct (weights !! i); [apply IH | reflexivity].
Qed.

Lemma Predict_Err_iff m features :
  is_Err (Predict m features) = true <-> Z.of_nat (length features) <> FeatureCount m.
Proof.
  unfold Predict.
  destruct (Z.of_nat (length features) =? FeatureCount m)%Z eqn:E; cbn.
  - apply Z.eqb_eq in E.
    pose proof (dot_not_Err (Weights (Data m)) features 0 (float64.Num 0)) as H.
    destruct (dot _ _ _ _); cbn in *; split; intros; congruence.
  - apply Z.eqb_neq in E. split; [intros _; exact E | reflexivity].
Qed.

Lemma Predict_in_bounds m features :
  Z.of_nat (length features) = FeatureCount m ->
  (FeatureCount m <= Z.of_nat (length (Weights (Data m))))%Z ->
  (forall i, (i < length features)%nat -> is_Some (Weights (Data m) !! i)) /\
  exists p, Predict m features = Ok p.
Proof.
  intros Hlen Hw. split.
  - intros i Hi. apply lookup_lt_is_Some. lia.
  - unfold Predict. apply Z.eqb_eq in Hlen as E. rewrite E. cbn.
    destruct (dot_in_bounds (Weights (Data m)) features 0 (float64.Num 0)) as (raw & ->); [cbn; lia|].
    eauto.
Qed.

Lemma Predict_out_of_bounds m features :
  Z.of_nat (length features) = FeatureCount m ->
  (Z.of_nat (length (Weights (Data m))) < FeatureCount m)%Z ->
  Weights (Data m) !! length (Weights (Data m)) = None /\
  (length (Weights (Data m)) < length features)%nat /\
  Predict m features = Panic "index out of range".
Proof.
  intros Hlen Hw. split; [apply lookup_ge_None; lia|]. split; [lia|].
  unfold Predict. apply Z.eqb_eq in Hlen as E. rewrite E. cbn.
  rewrite dot_out_of_bounds by (cbn; lia). reflexivity.
Qed.

Lemma LoadModel_accepts modelPath bytes unmarshal modelData :
  unmarshal bytes = inl modelData ->
  LoadModel modelPath (inl bytes) unmarshal =
  Ok {| Path := modelPath; FeatureCount := ModelData_FeatureCount modelData;
        Data := modelData; Threshold := ModelData_Threshold modelData |}.
Proof. intros H. unfold LoadModel. rewrite H. reflexivity. Qed.

(** ** The scanners *)

Import scanner.

Lemma Scan_webshell w k s o path r out :
  Stat w path = None ->
  Detect w (scanner_detector s) o path = (Ok r, out) ->
  IsWebshell r = true ->
  (Scan w k s o path).1 = Err ("webshell detected in file: " +:+ path).
Proof.
  intros HS HD HW. unfold Scan. rewrite HS, HD. cbn.
  destruct (store k r) as [[[] | e | e] so] eqn:E.
  - rewrite HW. reflexivity.
  - exfalso. revert E. unfold store.
    destruct (NewStorage k _); [discriminate|].
    destruct (StoreResult k r _); discriminate.
  - exfalso. revert E. unfold store.
    destruct (NewStorage k _); [discriminate|].
    destruct (StoreResult k r _); discriminate.
Qed.

Lemma store_Ok k r : (store k r).1 = Ok tt.
Proof.
  unfold store. destruct (NewStorage k _); [reflexivity|].
  destruct (StoreResult k r _); reflexivity.
Qed.

Lemma Scan_webshell_only w k s o path :
  (Scan w k s o path).1 = Err ("webshell detected in file: " +:+ path) ->
  Stat w path = None /\
  exists r out, Detect w (scanner_detector s) o path = (Ok r, out) /\ IsWebshell r = true.
Proof.
  unfold Scan.
  destruct (Stat w path) as [e|]; [discriminate|].
  destruct (Detect w (scanner_detector s) o path) as [[r | e | e] out]; cbn;
    [|discriminate..].
  pose proof (store_Ok k r) as Hs.
  destruct (store k r) as [[[] | e | e] so]; cbn in Hs; try discriminate.
  destruct (IsWebshell r) eqn:HW; cbn; [|discriminate].
  intros _. split; [reflexivity|]. eauto.
Qed.

Lemma Start_Ok w k s o r out :
  isRunning (base s) = false ->
  Detect w (scanner_detector (base s)) o (filePath s) = (Ok r, out) ->
  (Start w k s o).2.1 = Ok tt /\ isRunning (base (Start w k s o).1) = false.
Proof.
  intros HR HD. unfold Start. rewrite HR.
  cbn [set_isRunning base scanner_detector filePath].
  rewrite HD. cbn [wrap mbind M_bind bind].
  pose proof (store_Ok k r) as Hs.
  destruct (store k r) as [[[] | e | e] so]; cbn in Hs; try discriminate.
  cbn. done.
Qed.

Lemma Start_Err w k s o e :
  (Start w k s o).2.1 = Err e ->
  (isRunning (base s) = true /\ e = "scanner is already running") \/
  (isRunning (base s) = false /\
   exists e' out, Detect w (scanner_detector (base s)) o (filePath s) = (Err e', out) /\
                  e = "scan failed: " +:+ e').
Proof.
  unfold Start. destruct (isRunning (base s)).
  - intros [= <-]. left. done.
  - cbn [set_isRunning base scanner_detector filePath].
    destruct (Detect _ _ _ _) as [[r | e' | e'] out]; cbn [wrap mbind M_bind bind].
    + pose proof (store_Ok k r) as Hs.
      destruct (store k r) as [[[] | e2 | e2] so]; cbn in Hs; try discriminate.
    + intros [= <-]. right. split; [reflexivity|]. eauto.
    + discriminate.
Qed.

(** * The claims *)

Import inputs.

(** X23: when no regular expression matches the content, the rule engine
    reports no match and the behaviour analysis observes no behaviours,
    the result of [Detect] is SAFE and no webshell, whatever the model;
    its total score is at most 30 unless it is NaN. *)
Theorem clean_content_safe w d o filePath content r out :
  ReadFile w filePath = inl content ->
  (forall p, In p WebshellPatterns -> MatchString w (Pattern p) content = false) ->
  noYaraMatch w content ->
  (forall br, behaviorAnalyze w (config d) o filePath content = Ok br ->
              BBehaviors br = []) ->
  Detect w d o filePath = (Ok r, out) ->
  RiskLevel r = RiskLevelSafe /\ IsWebshell r = false /\
  (TotalScore r = float64.NaN \/ float64.le (TotalScore r) (float64.Num 30)).
Proof.
  intros HR Hre Hya Hbe HD.
  apply Detect_Ok_inv in HD as (c & fr & fout & r0 & HR' & Hfm & HF & _ & HB & _ & ->).
  rewrite HR in HR'. injection HR' as <-.
  destruct (Z.le_gt_cases (Z.of_nat (String.length content))
              (MaxFileSize (Yara (Detection (config d))))) as [Hsz | Hsz].
  - destruct (featureMatch_within w (config d) content Hsz)
      as (fr' & fout' & Hfm' & _ & _ & Hzero).
    rewrite Hfm in Hfm'. injection Hfm' as <- <-.
    destruct (Hzero Hre Hya) as (Hs & _).
    destruct (calculateTotalScore_safe (config d) r0) as (HL & HW & Hnan & Hnum).
    + rewrite HF. exact Hs.
    + destruct HB as [(HB & _) | (br & Hbr & HB & _)]; [exact HB|].
      rewrite HB. apply Hbe, Hbr.
    + split; [exact HL|]. split; [exact HW|].
      destruct (TotalScore (blend (config d) r0)) eqn:ET;
        [right; apply Hnum; discriminate..| left; apply Hnan; reflexivity].
  - rewrite (featureMatch_too_large w (config d) content Hsz) in Hfm. discriminate.
Qed.

Lemma clean_content_safe_witness :
  match Detect cleanWorld d order "index.php" with
  | (Ok r, _) =>
      RiskLevel r = RiskLevelSafe /\ IsWebshell r = false /\
      (TotalScore r = float64.NaN \/ float64.le (TotalScore r) (float64.Num 30))
  | _ => False
  end.
Proof.
  destruct (Detect cleanWorld d order "index.php") as [[r | e | e] out] eqn:E.
  - apply (clean_content_safe cleanWorld d order "index.php"
             "<?php echo 1; ?>" r out).
    + reflexivity.
    + intros p _. reflexivity.
    + intros path m H. vm_compute in H. injection H as <-. reflexivity.
    + intros br H. vm_compute in H. injection H as <-. reflexivity.
    + exact E.
  - vm_compute in E. discriminate E.
  - vm_compute in E. discriminate E.
Defined.

(** C1, at the input on which it fails.  No pattern matches the twelve
    bytes of [postContent], no rule matches and the traced run shows no
    behaviour; with the weights of [hugeModel] the products of the
    features 12 and 2 with the two large weights overflow to opposite
    infinities, whose sum is NaN.  The clamp of [Predict] and the cap at 30
    both compare, and a comparison with NaN is false: the result is SAFE
    and no webshell, but its total score is NaN, not a number of at most
    30. *)
Theorem clean_file_total_is_NaN :
  matchRegexPatterns postWorld postContent = (0, []) /\
  behaviorAnalyze postWorld cfg order "index.php" postContent
  = Ok {| BScore := 0; BBehaviors := [] |} /\
  match Detect postWorld hugeDetector order "index.php" with
  | (Ok r, _) =>
      FeatureScore r = 0 /\ Behaviors r = [] /\
      RiskLevel r = RiskLevelSafe /\ IsWebshell r = false /\
      MLScore r = float64.NaN /\ TotalScore r = float64.NaN /\
      float64.leb (TotalScore r) (float64.Num 30) = false
  | _ => False
  end.
Proof. vm_compute. repeat split; reflexivity. Qed.

(** C2: a feature score above 90 makes the final result HIGH and a
    webshell, whatever the behaviour score, the ML score and the outcome
    of the threshold classification are. *)
Theorem feature_score_above_90_is_high cfg r :
  90 < FeatureScore r ->
  RiskLevel (calculateTotalScore cfg r) = RiskLevelHigh /\
  IsWebshell (calculateTotalScore cfg r) = true.
Proof. apply calculateTotalScore_high. Qed.

Lemma feature_score_above_90_is_high_witness :
  90 < FeatureScore (set_FeatureScore 100 (newResult "shell.php")) /\
  RiskLevel (calculateTotalScore cfg (set_FeatureScore 100 (newResult "shell.php")))
  = RiskLevelHigh /\
  IsWebshell (calculateTotalScore cfg (set_FeatureScore 100 (newResult "shell.php")))
  = true.
Proof.
  assert (H : 90 < FeatureScore (set_FeatureScore 100 (newResult "shell.php")))
    by (cbn; lra).
  split; [exact H|].
  exact (feature_score_above_90_is_high cfg _ H).
Defined.

(** The same through [Detect]: a detection whose feature score is above
    90 returns HIGH and a webshell. *)
Lemma Detect_feature_score_above_90 w d o filePath r out :
  Detect w d o filePath = (Ok r, out) ->
  90 < FeatureScore r ->
  RiskLevel r = RiskLevelHigh /\ IsWebshell r = true.
Proof.
  intros HD H.
  apply Detect_Ok_inv in HD as (c & fr & fout & r0 & _ & _ & _ & _ & _ & _ & ->).
  destruct (calculateTotalScore_fixed (config d) r0) as (HF & _).
  rewrite HF in H. apply calculateTotalScore_high, H.
Qed.

(** C3: the classification of the blended score, before the overrides:
    at least 85 is HIGH and a webshell; from 70 up to 85 is MEDIUM, and a
    webshell exactly when the feature score is above 80; from 40 up to 70
    is LOW and no webshell; below 40 is SAFE and no webshell, and so is a
    total that is NaN, of which every comparison is false.  The overrides
    are applied to the classified result. *)
Theorem threshold_classification cfg r :
  let b := blend cfg r in
  let c := classify b in
  (float64.le (float64.Num 85) (TotalScore b) ->
     RiskLevel c = RiskLevelHigh /\ IsWebshell c = true) /\
  (float64.le (float64.Num 70) (TotalScore b) /\
   float64.lt (TotalScore b) (float64.Num 85) ->
     RiskLevel c = RiskLevelMedium /\ (IsWebshell c = true <-> 80 < FeatureScore r)) /\
  (float64.le (float64.Num 40) (TotalScore b) /\
   float64.lt (TotalScore b) (float64.Num 70) ->
     RiskLevel c = RiskLevelLow /\ IsWebshell c = false) /\
  (float64.lt (TotalScore b) (float64.Num 40) ->
     RiskLevel c = RiskLevelSafe /\ IsWebshell c = false) /\
  (TotalScore b = float64.NaN ->
     RiskLevel c = RiskLevelSafe /\ IsWebshell c = false) /\
  TotalScore c = TotalScore b /\
  calculateTotalScore cfg r = overrideSafe (overrideHigh c).
Proof.
  intros b c. subst c.
  destruct (classify_cases b) as (H1 & H2 & H3 & H4).
  destruct (blend_fixed cfg r) as (HF & _). fold b in HF.
  split; [exact H1|]. split.
  { intros H. destruct (H2 H) as (-> & ->). split; [reflexivity|].
    rewrite HF. apply Qgtb_true. }
  split; [exact H3|].
  split; [intros H; apply H4; left; exact H|].
  split; [intros H; apply H4; right; exact H|].
  split; [apply classify_fixed | reflexivity].
Qed.

(** C4: before the overrides the total score is the weighted average of
    the enabled methods, with weights 0.5, 0.3 and 0.2: the behaviour
    score counts as 0 when no behaviours were found and the ML score as a
    tenth of itself when the feature score is 0 and no behaviours were
    found.  The overrides change the total only by the cap at 30. *)
Theorem blend_is_weighted_average cfg r :
  float64.eqv (TotalScore (blend cfg r))
              (spec.weightedAverage (spec.enabledMethods cfg r)) /\
  (TotalScore (calculateTotalScore cfg r) = TotalScore (blend cfg r) \/
   (FeatureScore r == 0 /\ Behaviors r = [] /\
    float64.lt (float64.Num 30) (TotalScore (blend cfg r)) /\
    TotalScore (calculateTotalScore cfg r) = float64.Num 30)).
Proof.
  split; [apply blend_weightedAverage|].
  unfold calculateTotalScore.
  set (h := overrideHigh (classify (blend cfg r))).
  assert (Hh : FeatureScore h = FeatureScore r /\ Behaviors h = Behaviors r /\
               TotalScore h = TotalScore (blend cfg r)).
  { unfold h.
    destruct (overrideHigh_fixed (classify (blend cfg r))) as (-> & -> & ->).
    destruct (classify_fixed (blend cfg r)) as (-> & -> & ->).
    destruct (blend_fixed cfg r) as (-> & ->). done. }
  destruct Hh as (HF & HB & HT).
  unfold overrideSafe. rewrite HF, HB.
  destruct (FeatureScore r ==? 0) eqn:E0; [apply Qeqb_true in E0 | left; exact HT].
  destruct (Behaviors r) as [|x xs]; [|left; exact HT].
  cbn [length Nat.eqb andb]. cbv zeta.
  cbn [TotalScore set_IsWebshell set_RiskLevel]. rewrite HT.
  destruct (float64.gtb (TotalScore (blend cfg r)) (float64.Num 30)) eqn:E30.
  - right. done.
  - left. cbn. exact HT.
Qed.

(** When [/tmp/] occurs anywhere in the trace, the loop over the
    dangerous file operations adds nothing, whatever the trace shows. *)
Lemma scanFileOps_suppressed order straceOutput result :
  strings.Contains straceOutput "/tmp/" = true ->
  scanFileOps order straceOutput result = result.
Proof.
  intros H.
  assert (Hno : forall pattern, fileOpCounted straceOutput pattern = false).
  { intros pattern. unfold fileOpCounted. rewrite H. apply andb_false_r. }
  unfold scanFileOps.
  induction order as [|e order IH]; [reflexivity|].
  cbn [fold_left]. rewrite Hno. exact IH.
Qed.

(** C5, at the input on which it fails.  [sandboxTrace] is the trace of a
    script that deletes [/var/www/html/index.php]: the target path of the
    deletion has no benign prefix, so the claim counts it with weight 30.
    The code tests the whole trace for [/tmp/], which the tracer's own
    first line contains, the sandbox being a directory under [/tmp]: the
    deletion is not counted and the analysis reports nothing. *)
Theorem sandbox_path_hides_file_operations :
  strings.Contains execveLine "/tmp/" = true /\
  strings.Contains sandboxTrace "unlink(" = true /\
  spec.targetPath unlinkLine = "/var/www/html/index.php" /\
  spec.benignPrefix (spec.targetPath unlinkLine) = false /\
  spec.operationCounted sandboxTrace "unlink(" = true /\
  fileOpCounted sandboxTrace "unlink(" = false /\
  analyzeTrace order sandboxTrace = {| BScore := 0; BBehaviors := [] |} /\
  behaviorAnalyze sandboxWorld cfg order "shell.php" "<?php eval($_POST['c']); ?>"
  = Ok {| BScore := 0; BBehaviors := [] |}.
Proof. vm_compute. repeat split; reflexivity. Qed.

(** C6 as the claim states it fails: the detection of [shell.php] in
    [shellWorld] classifies the file as a webshell, yet
    [ManualScanner.Start] returns no error and [handleManualScan] ends
    with exit status 0. *)
Lemma manual_start_returns_nil_on_webshell :
  match Detect shellWorld d order "shell.php" with
  | (Ok r, _) => IsWebshell r = true
  | _ => False
  end /\
  (Start shellWorld sinks (NewManualScanner cfg (Some model) "shell.php") order).2.1
  = Ok tt /\
  (handleManualScan shellWorld sinks cfg (Some model) order "shell.php").1 = 0%Z.
Proof. vm_compute. repeat split; reflexivity. Qed.

(** C6, amended: [BaseScanner.Scan] returns the error [webshell detected
    in file: path] exactly when the file exists and the detection
    succeeds with [IsWebshell] true, so that this error tells a detection
    from a failure to scan.  [ManualScanner.Start] does not go through
    [Scan]: it returns no error whenever the detection succeeds, and its
    only errors are [scanner is already running] and [scan failed]. *)
Theorem scan_signals_webshell_start_does_not w k (s : BaseScanner)
    (ms : ManualScanner) o path :
  ((Scan w k s o path).1 = Err ("webshell detected in file: " +:+ path) <->
   Stat w path = None /\
   exists r out, Detect w (scanner_detector s) o path = (Ok r, out) /\
                 IsWebshell r = true) /\
  (forall r out,
     isRunning (base ms) = false ->
     Detect w (scanner_detector (base ms)) o (filePath ms) = (Ok r, out) ->
     (Start w k ms o).2.1 = Ok tt) /\
  (forall e,
     (Start w k ms o).2.1 = Err e ->
     e = "scanner is already running" \/ exists e', e = "scan failed: " +:+ e').
Proof.
  split; [split|split].
  - apply Scan_webshell_only.
  - intros (HS & r & out & HD & HW). exact (Scan_webshell w k s o path r out HS HD HW).
  - intros r out HR HD. apply (Start_Ok w k ms o r out HR HD).
  - intros e [(_ & ->) | (_ & e' & out & _ & ->)]%Start_Err; eauto.
Qed.

Lemma scan_signals_webshell_start_does_not_witness :
  (Scan shellWorld sinks (NewBaseScanner cfg (Some model)) order "shell.php").1
  = Err "webshell detected in file: shell.php".
Proof.
  apply (proj1 (scan_signals_webshell_start_does_not shellWorld sinks
                  (NewBaseScanner cfg (Some model))
                  (NewManualScanner cfg (Some model) "shell.php")
                  order "shell.php")).
  split; [reflexivity|].
  destruct (Detect shellWorld (scanner_detector (NewBaseScanner cfg (Some model)))
              order "shell.php") as [[r | e | e] out] eqn:E.
  - exists r, out. split; [reflexivity|].
    vm_compute in E. injection E as <- _. reflexivity.
  - vm_compute in E. discriminate E.
  - vm_compute in E. discriminate E.
Defined.



(** The three sub-scores: the feature score is a sum of non-negative
    terms capped at 100; the behaviour score is a sum of non-negative
    terms capped at 100, and 0 when no behaviour was observed; the ML
    score is the clamped prediction times 100, which lies in [0, 100]
    unless the dot product of the features and the weights is NaN. *)
Lemma sub_scores w cfg o d filePath content :
  (forall fr out,
     featureMatch w cfg content = (Ok fr, out) -> 0 <= Score fr <= 100) /\
  (forall br,
     validOrder o ->
     behaviorAnalyze w cfg o filePath content = Ok br ->
     0 <= BScore br <= 100 /\ (BBehaviors br = [] -> BScore br = 0)) /\
  (forall s,
     mlDetect d content = Ok s -> s = float64.NaN \/ float64.within 0 100 s).
Proof.
  split; [|split].
  - intros fr out H.
    destruct (Z.le_gt_cases (Z.of_nat (String.length content))
                (MaxFileSize (Yara (Detection cfg)))) as [Hsz | Hsz].
    + destruct (featureMatch_within w cfg content Hsz) as (fr' & out' & Hfm & Hb & _).
      rewrite H in Hfm. injection Hfm as <- <-. exact Hb.
    + rewrite (featureMatch_too_large w cfg content Hsz) in H. discriminate.
  - intros br Ho (output & ->)%behaviorAnalyze_Ok_inv.
    apply analyzeTrace_bounds, Ho.
  - intros s. apply mlDetect_range.
Qed.

(** C8, at the input on which it fails.  The features of [postContent]
    are 12, 0, 0, 2 and 0; with the weights of [hugeModel] the first
    product overflows to the positive and the fourth to the negative
    infinity, and their sum is NaN.  Both tests of the clamp of [Predict]
    are false of NaN, so the prediction is NaN, and so is the ML score:
    it is not in [0, 100]. *)
Theorem NaN_prediction_passes_the_clamp :
  extractFeatures postContent = Ok [12; 0; 0; 2; 0] /\
  float64.mul (float64.Num 12) (float64.Num (inject_Z (10 ^ 308))) = float64.PInf /\
  float64.mul (float64.Num 2) (float64.Num (- inject_Z (10 ^ 308))) = float64.NInf /\
  mlmodel.dot (mlmodel.Weights (mlmodel.Data hugeModel)) 0 [12; 0; 0; 2; 0]
              (float64.Num 0) = Ok float64.NaN /\
  mlmodel.clamp01 float64.NaN = float64.NaN /\
  mlmodel.Predict hugeModel [12; 0; 0; 2; 0] = Ok float64.NaN /\
  mlDetect hugeDetector postContent = Ok float64.NaN /\
  float64.leb (float64.Num 0) float64.NaN = false /\
  float64.leb float64.NaN (float64.Num 100) = false.
Proof. vm_compute. repeat split; reflexivity. Qed.

(** C9: a result of the composite scoring is flagged as a webshell only
    if its feature score is above 90, or its total score is at least 85,
    or its total score is at least 70 and its feature score is above 80;
    so a result with a feature score of at most 80 and a total score
    below 85 (or NaN) is never flagged, whatever the behaviour and ML
    scores. *)
Theorem flagged_only_on_feature_or_total cfg r :
  (IsWebshell (calculateTotalScore cfg r) = true ->
   90 < FeatureScore (calculateTotalScore cfg r) \/
   float64.le (float64.Num 85) (TotalScore (calculateTotalScore cfg r)) \/
   (float64.le (float64.Num 70) (TotalScore (calculateTotalScore cfg r)) /\
    80 < FeatureScore (calculateTotalScore cfg r))) /\
  (FeatureScore (calculateTotalScore cfg r) <= 80 ->
   float64.lt (TotalScore (calculateTotalScore cfg r)) (float64.Num 85) \/
   TotalScore (calculateTotalScore cfg r) = float64.NaN ->
   IsWebshell (calculateTotalScore cfg r) = false).
Proof.
  split; [apply calculateTotalScore_flagged|].
  intros HF HT.
  destruct (IsWebshell (calculateTotalScore cfg r)) eqn:E; [|reflexivity].
  apply calculateTotalScore_flagged in E.
  destruct E as [E | [E | [_ E]]]; [lra| |lra].
  exfalso. revert E HT. unfold float64.le, float64.lt.
  destruct (TotalScore (calculateTotalScore cfg r)) as [q | | |];
    cbn [float64.leb float64.ltb]; intros E [HT | HT]; try discriminate.
  apply Qle_bool_iff in E. apply negb_true_iff in HT.
  apply not_true_iff_false in HT. apply HT, Qle_bool_iff, E.
Qed.

(** C10: [Predict] returns an error exactly when the number of features
    differs from the declared feature count, and checks nothing else.
    With at least that many weights every access of the dot product is in
    bounds and a prediction is returned; with fewer, the access at the
    first missing index is out of bounds and the call panics.
    [LoadModel] stores whatever decodes, so such a model is accepted. *)
Theorem Predict_checks_only_feature_count (m : mlmodel.Model) (features : list Q) :
  (is_Err (mlmodel.Predict m features) = true <->
   Z.of_nat (length features) <> mlmodel.FeatureCount m) /\
  (Z.of_nat (length features) = mlmodel.FeatureCount m ->
   (mlmodel.FeatureCount m <= Z.of_nat (length (mlmodel.Weights (mlmodel.Data m))))%Z ->
   (forall i, (i < length features)%nat ->
              is_Some (mlmodel.Weights (mlmodel.Data m) !! i)) /\
   exists p, mlmodel.Predict m features = Ok p) /\
  (Z.of_nat (length features) = mlmodel.FeatureCount m ->
   (Z.of_nat (length (mlmodel.Weights (mlmodel.Data m))) < mlmodel.FeatureCount m)%Z ->
   mlmodel.Weights (mlmodel.Data m) !! length (mlmodel.Weights (mlmodel.Data m)) = None /\
   (length (mlmodel.Weights (mlmodel.Data m)) < length features)%nat /\
   mlmodel.Predict m features = Panic "index out of range") /\
  (forall modelPath bytes unmarshal modelData,
     unmarshal bytes = inl modelData ->
     exists m', mlmodel.LoadModel modelPath (inl bytes) unmarshal = Ok m' /\
                mlmodel.Data m' = modelData /\
                mlmodel.FeatureCount m' = mlmodel.ModelData_FeatureCount modelData).
Proof.
  split; [apply Predict_Err_iff|].
  split; [apply Predict_in_bounds|].
  split; [apply Predict_out_of_bounds|].
  intros modelPath bytes unmarshal modelData H.
  rewrite (LoadModel_accepts _ _ _ _ H). eexists. done.
Qed.

Lemma Predict_checks_only_feature_count_witness :
  match mlmodel.LoadModel "model.json" (inl "{}") (fun _ => inl shortData) with
  | Ok m => mlmodel.Predict m [16; 1; 0; 1; 0] = Panic "index out of range"
  | _ => False
  end.
Proof.
  cbn.
  apply (proj1 (proj2 (proj2 (Predict_checks_only_feature_count _ [16; 1; 0; 1; 0]))));
    cbn; lia.
Defined.

(** * Further properties of the detector *)

(** ** The composite score stays in range *)

Lemma classify_scores r :
  BehaviorScore (classify r) = BehaviorScore r /\ MLScore (classify r) = MLScore r.
Proof. unfold classify. repeat (destruct (float64.geb _ _)); done. Qed.

Lemma overrideHigh_scores r :
  BehaviorScore (overrideHigh r) = BehaviorScore r /\
  MLScore (overrideHigh r) = MLScore r.
Proof. unfold overrideHigh. destruct (_ >? _); done. Qed.

Lemma overrideSafe_scores r :
  BehaviorScore (overrideSafe r) = BehaviorScore r /\
  MLScore (overrideSafe r) = MLScore r.
Proof.
  unfold overrideSafe. destruct (_ && _); [|done].
  cbv zeta. destruct (float64.gtb _ _); done.
Qed.

Lemma blend_scores cfg r :
  (BehaviorScore (blend cfg r) = BehaviorScore r \/ BehaviorScore (blend cfg r) = 0) /\
  (MLScore (blend cfg r) = MLScore r \/
   MLScore (blend cfg r) = float64.mul (MLScore r) (float64.Num 0.1)).
Proof.
  unfold blend, blendML, blendBehavior, blendFeature.
  cbn [blended set_TotalScore BehaviorScore MLScore].
  destruct (BehaviorAnalysis_Enabled _), (MachineLearning_Enabled _);
    cbn [blended];
    repeat match goal with
           | |- context [if ?c then _ else _] => destruct c
           end; cbn [set_BehaviorScore set_MLScore BehaviorScore MLScore]; auto.
Qed.

Lemma calculateTotalScore_scores cfg r :
  (BehaviorScore (calculateTotalScore cfg r) = BehaviorScore r \/
   BehaviorScore (calculateTotalScore cfg r) = 0) /\
  (MLScore (calculateTotalScore cfg r) = MLScore r \/
   MLScore (calculateTotalScore cfg r) = float64.mul (MLScore r) (float64.Num 0.1)).
Proof.
  unfold calculateTotalScore.
  destruct (overrideSafe_scores (overrideHigh (classify (blend cfg r)))) as (-> & ->).
  destruct (overrideHigh_scores (classify (blend cfg r))) as (-> & ->).
  destruct (classify_scores (blend cfg r)) as (-> & ->).
  apply blend_scores.
Qed.

(** The blend of finite scores in range, computed exactly. *)
Ltac exact_blend :=
  repeat first
    [ rewrite mul_small by lra
    | rewrite add_small by lra
    | rewrite div_small by (first [lra | split; lra]) ].

Lemma blend_bounds cfg r m :
  0 <= FeatureScore r <= 100 ->
  0 <= BehaviorScore r <= 100 ->
  MLScore r = float64.Num m -> 0 <= m <= 100 ->
  float64.within 0 100 (TotalScore (blend cfg r)).
Proof.
  intros HF HB HM Hm.
  rewrite blend_TotalScore.
  unfold blendML, blendBehavior, blendFeature.
  rewrite weights_feature, weights_behavior, weights_ml.
  destruct r as [fp iw rl fs bs ms mf [|b beh] ts];
    cbn [FeatureScore BehaviorScore MLScore] in HF, HB, HM; subst ms;
    destruct (BehaviorAnalysis_Enabled _), (MachineLearning_Enabled _);
    cbn [blended totalScore totalWeight Behaviors FeatureScore BehaviorScore MLScore
         set_BehaviorScore set_MLScore length Nat.eqb andb];
    try (destruct (fs ==? 0);
         cbn [blended totalScore totalWeight Behaviors FeatureScore BehaviorScore MLScore
              set_BehaviorScore set_MLScore length Nat.eqb andb]);
    exact_blend; cbn [float64.within];
    (split; [apply Qle_shift_div_l | apply Qle_shift_div_r]); lra.
Qed.

(** A NaN ML score makes the blended total NaN when ML detection is
    enabled. *)
Lemma blend_NaN cfg r :
  MachineLearning_Enabled (MachineLearning (Detection cfg)) = true ->
  MLScore r = float64.NaN ->
  TotalScore (blend cfg r) = float64.NaN /\ MLScore (blend cfg r) = float64.NaN.
Proof.
  intros HE HM.
  unfold blend, blendML. rewrite HE.
  assert (Hb : MLScore (blended (blendBehavior cfg (blendFeature r))) = float64.NaN).
  { destruct (blendBehavior_fixed cfg (blendFeature r)) as (_ & _ & ->). exact HM. }
  destruct (_ && _);
    cbn [blended totalScore totalWeight set_TotalScore set_MLScore MLScore TotalScore];
    rewrite ?Hb; cbn [float64.mul]; rewrite add_NaN_r; done.
Qed.

Lemma calculateTotalScore_TotalScore cfg r :
  TotalScore (calculateTotalScore cfg r) = TotalScore (blend cfg r) \/
  (FeatureScore r == 0 /\ Behaviors r = [] /\
   float64.lt (float64.Num 30) (TotalScore (blend cfg r)) /\
   TotalScore (calculateTotalScore cfg r) = float64.Num 30).
Proof.
  unfold calculateTotalScore.
  set (h := overrideHigh (classify (blend cfg r))).
  assert (Hh : FeatureScore h = FeatureScore r /\ Behaviors h = Behaviors r /\
               TotalScore h = TotalScore (blend cfg r)).
  { unfold h.
    destruct (overrideHigh_fixed (classify (blend cfg r))) as (-> & -> & ->).
    destruct (classify_fixed (blend cfg r)) as (-> & -> & ->).
    destruct (blend_fixed cfg r) as (-> & ->). done. }
  destruct Hh as (HF & HB & HT).
  unfold overrideSafe. rewrite HF, HB.
  destruct (FeatureScore r ==? 0) eqn:E0; [apply Qeqb_true in E0 | left; exact HT].
  destruct (Behaviors r) as [|x xs]; [|left; exact HT].
  cbn [length Nat.eqb andb]. cbv zeta.
  cbn [TotalScore set_IsWebshell set_RiskLevel]. rewrite HT.
  destruct (float64.gtb (TotalScore (blend cfg r)) (float64.Num 30)) eqn:E30.
  - right. done.
  - left. cbn. exact HT.
Qed.

Lemma calculateTotalScore_bounds cfg r m :
  0 <= FeatureScore r <= 100 ->
  0 <= BehaviorScore r <= 100 ->
  MLScore r = float64.Num m -> 0 <= m <= 100 ->
  float64.within 0 100 (TotalScore (calculateTotalScore cfg r)).
Proof.
  intros HF HB HM Hm.
  pose proof (blend_bounds cfg r m HF HB HM Hm) as Hb.
  destruct (calculateTotalScore_TotalScore cfg r) as [-> | (_ & _ & _ & ->)];
    [exact Hb | cbn; lra].
Qed.

Lemma calculateTotalScore_NaN cfg r :
  MachineLearning_Enabled (MachineLearning (Detection cfg)) = true ->
  MLScore r = float64.NaN ->
  TotalScore (calculateTotalScore cfg r) = float64.NaN /\
  MLScore (calculateTotalScore cfg r) = float64.NaN.
Proof.
  intros HE HM.
  destruct (blend_NaN cfg r HE HM) as (HT & HS).
  split.
  - destruct (calculateTotalScore_TotalScore cfg r) as [-> | (_ & _ & H & _)];
      [exact HT|].
    rewrite HT in H. discriminate H.
  - unfold calculateTotalScore.
    destruct (overrideSafe_scores (overrideHigh (classify (blend cfg r)))) as (_ & ->).
    destruct (overrideHigh_scores (classify (blend cfg r))) as (_ & ->).
    destruct (classify_scores (blend cfg r)) as (_ & ->).
    exact HS.
Qed.

(** The scores that [Detect] hands to [calculateTotalScore]: the ML score
    is NaN, with ML detection enabled, or lies in [0, 100]. *)
Lemma Detect_sub_scores w d o filePath r out :
  validOrder o ->
  Detect w d o filePath = (Ok r, out) ->
  exists r0,
    r = calculateTotalScore (config d) r0 /\
    0 <= FeatureScore r0 <= 100 /\
    0 <= BehaviorScore r0 <= 100 /\
    ((MLScore r0 = float64.NaN /\
      MachineLearning_Enabled (MachineLearning (Detection (config d))) = true /\
      exists content, ReadFile w filePath = inl content /\
                      mlDetect d content = Ok float64.NaN) \/
     float64.within 0 100 (MLScore r0)) /\
    (Behaviors r0 = [] -> BehaviorScore r0 = 0).
Proof.
  intros Ho HD.
  apply Detect_Ok_inv in HD as (c & fr & fout & r0 & HR & Hfm & HF & _ & HB & HM & ->).
  exists r0. split; [reflexivity|].
  split.
  { rewrite HF.
    destruct (Z.le_gt_cases (Z.of_nat (String.length c))
                (MaxFileSize (Yara (Detection (config d))))) as [Hsz | Hsz].
    - destruct (featureMatch_within w (config d) c Hsz) as (fr' & out' & Hfm' & Hb & _).
      rewrite Hfm in Hfm'. injection Hfm' as <- <-. exact Hb.
    - rewrite (featureMatch_too_large w (config d) c Hsz) in Hfm. discriminate. }
  split; [|split].
  - destruct HB as [(_ & ->) | (br & Hbr & _ & ->)]; [lra|].
    apply behaviorAnalyze_Ok_inv in Hbr as (output & ->).
    apply analyzeTrace_bounds, Ho.
  - destruct HM as [-> | (HE & HM)]; [right; cbn; lra|].
    destruct (mlDetect_range _ _ _ HM) as [H | H]; [left | right; exact H].
    split; [exact H|]. split; [exact HE|]. exists c. rewrite <- H. done.
  - destruct HB as [(_ & ->) | (br & Hbr & -> & ->)]; [reflexivity|].
    apply behaviorAnalyze_Ok_inv in Hbr as (output & ->).
    apply analyzeTrace_bounds, Ho.
Qed.

Lemma mlDetect_NaN_inv d content :
  mlDetect d content = Ok float64.NaN ->
  exists model features,
    mlModel d = Some model /\
    extractFeatures content = Ok features /\
    dot (Weights (Data model)) 0 features (float64.Num 0) = Ok float64.NaN.
Proof.
  intros (model & features & raw & Hm & Hf & Hraw & _ & _ & Hnum)%mlDetect_bounds.
  exists model, features. split; [exact Hm|]. split; [exact Hf|].
  destruct raw as [q | | |]; [exfalso; apply Hnum; discriminate..| exact Hraw].
Qed.

(** A tenth of a score in range is in range. *)
Lemma damped_within x :
  float64.within 0 100 x ->
  float64.within 0 100 (float64.mul x (float64.Num 0.1)).
Proof.
  destruct x as [q | | |]; cbn [float64.within]; try contradiction.
  intros H. rewrite mul_small by lra. cbn. lra.
Qed.

(** X1: in a result of [Detect] the feature score and the behaviour score
    lie in [0, 100].  The ML score and the total score lie in [0, 100]
    as well, unless the dot product of the features and the weights of
    the model is NaN: then both are NaN. *)
Theorem Detect_scores_in_range_unless_NaN w d o filePath r out :
  validOrder o ->
  Detect w d o filePath = (Ok r, out) ->
  0 <= FeatureScore r <= 100 /\
  0 <= BehaviorScore r <= 100 /\
  ((float64.within 0 100 (MLScore r) /\ float64.within 0 100 (TotalScore r)) \/
   (MLScore r = float64.NaN /\ TotalScore r = float64.NaN /\
    exists content model features,
      ReadFile w filePath = inl content /\
      mlModel d = Some model /\
      extractFeatures content = Ok features /\
      dot (Weights (Data model)) 0 features (float64.Num 0) = Ok float64.NaN)).
Proof.
  intros Ho HD.
  destruct (Detect_sub_scores w d o filePath r out Ho HD)
    as (r0 & -> & HF & HB & HM & _).
  destruct (calculateTotalScore_fixed (config d) r0) as (-> & _).
  split; [exact HF|]. split.
  { destruct (calculateTotalScore_scores (config d) r0) as ([-> | ->] & _); lra. }
  destruct HM as [(HM & HE & content & HR & Hml) | HM].
  - right. destruct (calculateTotalScore_NaN (config d) r0 HE HM) as (-> & ->).
    split; [reflexivity|]. split; [reflexivity|].
    destruct (mlDetect_NaN_inv d content Hml) as (model & features & H1 & H2 & H3).
    exists content, model, features. done.
  - left.
    destruct (MLScore r0) as [m | | |] eqn:EM; cbn [float64.within] in HM;
      try contradiction.
    split.
    + destruct (calculateTotalScore_scores (config d) r0) as (_ & [-> | ->]);
        rewrite EM; [cbn; exact HM | apply damped_within; cbn; exact HM].
    + apply (calculateTotalScore_bounds (config d) r0 m); assumption.
Qed.

Lemma Detect_scores_in_range_unless_NaN_witness :
  match Detect shellWorld d order "shell.php" with
  | (Ok r, _) =>
      0 <= FeatureScore r <= 100 /\ 0 <= BehaviorScore r <= 100 /\
      float64.within 0 100 (MLScore r) /\ float64.within 0 100 (TotalScore r)
  | _ => False
  end.
Proof.
  destruct (Detect shellWorld d order "shell.php") as [[r | e | e] out] eqn:E.
  - destruct (Detect_scores_in_range_unless_NaN shellWorld d order "shell.php" r out)
      as (HF & HB & [(HM & HT) | (HM & _)]).
    + split; apply Permutation_refl.
    + exact E.
    + exact (conj HF (conj HB (conj HM HT))).
    + exfalso. vm_compute in E. injection E as <- _. discriminate HM.
  - vm_compute in E. discriminate E.
  - vm_compute in E. discriminate E.
Defined.

(** ** Risk level and verdict *)

Lemma classify_levels r :
  (RiskLevel (classify r) = RiskLevelHigh /\ IsWebshell (classify r) = true) \/
  (RiskLevel (classify r) = RiskLevelMedium /\
   IsWebshell (classify r) = (FeatureScore r >? 80)) \/
  (RiskLevel (classify r) = RiskLevelLow /\ IsWebshell (classify r) = false) \/
  (RiskLevel (classify r) = RiskLevelSafe /\ IsWebshell (classify r) = false).
Proof. unfold classify. repeat (destruct (float64.geb _ _)); cbn; auto. Qed.

Lemma calculateTotalScore_levels cfg r :
  (RiskLevel (calculateTotalScore cfg r) = RiskLevelHigh /\
   IsWebshell (calculateTotalScore cfg r) = true) \/
  (RiskLevel (calculateTotalScore cfg r) = RiskLevelMedium /\
   (IsWebshell (calculateTotalScore cfg r) = true <-> 80 < FeatureScore r)) \/
  (RiskLevel (calculateTotalScore cfg r) = RiskLevelLow /\
   IsWebshell (calculateTotalScore cfg r) = false) \/
  (RiskLevel (calculateTotalScore cfg r) = RiskLevelSafe /\
   IsWebshell (calculateTotalScore cfg r) = false).
Proof.
  unfold calculateTotalScore.
  set (c := classify (blend cfg r)).
  assert (HcF : FeatureScore c = FeatureScore r).
  { unfold c. destruct (classify_fixed (blend cfg r)) as (-> & _). apply blend_fixed. }
  assert (Hs : overrideSafe (overrideHigh c) = overrideHigh c \/
               (RiskLevel (overrideSafe (overrideHigh c)) = RiskLevelSafe /\
                IsWebshell (overrideSafe (overrideHigh c)) = false)).
  { unfold overrideSafe. destruct (_ && _); [right | left; reflexivity].
    cbv zeta. destruct (float64.gtb _ _); done. }
  destruct Hs as [-> | Hs]; [|auto].
  unfold overrideHigh. rewrite HcF.
  destruct (FeatureScore r >? 90) eqn:E90; [left; done|].
  subst c.
  destruct (classify_levels (blend cfg r)) as [H | [(H1 & H2) | [H | H]]]; auto.
  right. left. split; [exact H1|]. rewrite H2.
  destruct (blend_fixed cfg r) as (-> & _). apply Qgtb_true.
Qed.

(** X2: [calculateTotalScore] always leaves one of the four risk levels, and
    the verdict agrees with it: HIGH is always a webshell, LOW and SAFE
    never are, and MEDIUM is one exactly when the feature score is above
    80. *)
Theorem verdict_agrees_with_risk_level cfg r :
  (RiskLevel (calculateTotalScore cfg r) = RiskLevelHigh /\
   IsWebshell (calculateTotalScore cfg r) = true) \/
  (RiskLevel (calculateTotalScore cfg r) = RiskLevelMedium /\
   (IsWebshell (calculateTotalScore cfg r) = true <-> 80 < FeatureScore r)) \/
  (RiskLevel (calculateTotalScore cfg r) = RiskLevelLow /\
   IsWebshell (calculateTotalScore cfg r) = false) \/
  (RiskLevel (calculateTotalScore cfg r) = RiskLevelSafe /\
   IsWebshell (calculateTotalScore cfg r) = false).
Proof. apply calculateTotalScore_levels. Qed.

(** ** Behaviour and ML evidence alone never flag a file *)

(** With a feature score below 70 and the other two scores at most 100,
    the blended total stays below 85. *)
Lemma blend_below_85 cfg r m :
  FeatureScore r < 70 ->
  0 <= BehaviorScore r <= 100 ->
  MLScore r = float64.Num m -> 0 <= m <= 100 ->
  float64.le (float64.Num 85) (TotalScore (blend cfg r)) -> False.
Proof.
  intros HF HB HM Hm. pose proof overflow_large as Ho.
  rewrite blend_TotalScore.
  unfold blendML, blendBehavior, blendFeature.
  rewrite weights_feature, weights_behavior, weights_ml.
  destruct r as [fp iw rl fs bs ms mf [|b beh] ts];
    cbn [FeatureScore BehaviorScore MLScore] in HF, HB, HM; subst ms;
    destruct (BehaviorAnalysis_Enabled _), (MachineLearning_Enabled _);
    cbn [blended totalScore totalWeight Behaviors FeatureScore BehaviorScore MLScore
         set_BehaviorScore set_MLScore length Nat.eqb andb];
    try (destruct (fs ==? 0);
         cbn [blended totalScore totalWeight Behaviors FeatureScore BehaviorScore MLScore
              set_BehaviorScore set_MLScore length Nat.eqb andb]);
    repeat rewrite (mul_small m) by lra;
    repeat rewrite (mul_small bs) by lra;
    repeat rewrite (mul_small 0) by lra;
    repeat rewrite (mul_small (m * 0.1)) by lra;
    repeat rewrite (add_small 0.5) by lra;
    repeat rewrite (add_small (0.5 + 0.3)) by lra;
    (eapply atMost_not_le;
     [ eapply atMost_div;
       [ repeat (eapply atMost_add;
                 [| first [ eapply atMost_mul; [cbn; apply Qle_refl | lra | lra]
                          | cbn; apply Qle_refl ] | ]);
         try (cbn; apply Qle_refl); try lra
       | lra
       | eapply Qle_lt_trans; [|exact Ho]; apply Qle_shift_div_r; lra ]
     | apply Qlt_shift_div_r; lra ]).
Qed.

(** X3: with behaviour and ML scores in range, a result is flagged as a
    webshell only if its feature score is at least 70, whichever methods
    are enabled. *)
Theorem flagged_needs_feature_score cfg r :
  0 <= BehaviorScore r <= 100 ->
  float64.within 0 100 (MLScore r) ->
  IsWebshell (calculateTotalScore cfg r) = true ->
  70 <= FeatureScore r.
Proof.
  intros HB HM HW.
  pose proof (calculateTotalScore_flagged cfg r HW) as H.
  destruct (calculateTotalScore_fixed cfg r) as (HF & _). rewrite HF in H.
  destruct H as [H | [H | (_ & H)]]; [lra | | lra].
  destruct (Qlt_le_dec (FeatureScore r) 70) as [Hlt | Hge]; [exfalso | exact Hge].
  destruct (MLScore r) as [m | | |] eqn:EM; cbn [float64.within] in HM;
    try contradiction.
  destruct (calculateTotalScore_TotalScore cfg r) as [HT | (_ & _ & _ & HT)];
    rewrite HT in H.
  - exact (blend_below_85 cfg r m Hlt HB EM HM H).
  - discriminate H.
Qed.

Lemma flagged_needs_feature_score_witness :
  IsWebshell (calculateTotalScore cfg inputs2.borderline) = true /\
  70 <= FeatureScore inputs2.borderline.
Proof.
  assert (H : IsWebshell (calculateTotalScore cfg inputs2.borderline) = true)
    by (vm_compute; reflexivity).
  split; [exact H|].
  apply (flagged_needs_feature_score cfg inputs2.borderline); [| | exact H].
  - vm_compute. split; discriminate.
  - vm_compute. split; discriminate.
Defined.

(** ** When [Detect] fails, and how *)

Lemma behaviorAnalyze_not_Panic w cfg o filePath content :
  is_Panic (behaviorAnalyze w cfg o filePath content) = false.
Proof.
  unfold behaviorAnalyze.
  destruct (Sandbox w filePath content _) as [e | e | output [e|]]; try reflexivity.
  destruct (negb _); reflexivity.
Qed.

Lemma extractFeatures_length content :
  exists features, extractFeatures content = Ok features /\ length features = 5%nat.
Proof. eexists. split; reflexivity. Qed.

(** [mlDetect] by cases on the model. *)
Lemma mlDetect_cases (d : Detector) content :
  match mlModel d with
  | None => is_Panic (mlDetect d content) = true
  | Some model =>
      if negb (FeatureCount model =? 5)%Z then is_Err (mlDetect d content) = true
      else if (length (Weights (Data model)) <? 5)%nat
           then mlDetect d content = Panic "index out of range"
           else exists s, mlDetect d content = Ok s
  end.
Proof.
  unfold mlDetect.
  destruct (extractFeatures_length content) as (features & -> & Hlen).
  destruct (mlModel d) as [model|]; [|reflexivity].
  destruct (FeatureCount model =? 5)%Z eqn:E5; cbn [negb].
  - apply Z.eqb_eq in E5.
    destruct (length (Weights (Data model)) <? 5)%nat eqn:EW.
    + apply Nat.ltb_lt in EW.
      destruct (Predict_out_of_bounds model features) as (_ & _ & ->); [lia | lia |].
      reflexivity.
    + apply Nat.ltb_ge in EW.
      destruct (Predict_in_bounds model features) as (_ & p & ->); [lia | lia |].
      eauto.
  - apply Z.eqb_neq in E5.
    assert (H : is_Err (Predict model features) = true)
      by (apply Predict_Err_iff; lia).
    destruct (Predict model features); cbn in *; congruence.
Qed.

(** The steps of [Detect] after a successful feature match: the
    behaviour step and the ML step. *)
Ltac detect_steps HR Hfm :=
  unfold Detect;
  cbn [mbind M_bind bind print];
  rewrite HR;
  cbn [mbind M_bind bind print];
  rewrite Hfm;
  cbn [mbind M_bind bind print wrap].

Lemma Detect_unreadable w d o filePath err :
  ReadFile w filePath = inr err ->
  Detect w d o filePath =
  (Err ("failed to read file: " +:+ err), ["Starting detection process..."]).
Proof. intros HR. unfold Detect. cbn [mbind M_bind bind print]. rewrite HR. reflexivity. Qed.

Lemma Detect_too_large w d o filePath content :
  ReadFile w filePath = inl content ->
  (MaxFileSize (Yara (Detection (config d))) < Z.of_nat (String.length content))%Z ->
  Detect w d o filePath =
  (Err "feature matching failed: file size exceeds maximum allowed size for YARA scanning",
   ["Starting detection process..."; "1. Running feature matching analysis..."]).
Proof.
  intros HR Hsz.
  detect_steps HR (featureMatch_too_large w (config d) content Hsz).
  reflexivity.
Qed.

(** Once the file is read and within the size limit, [Detect] returns a
    result or panics; it panics exactly when the ML step does. *)
Lemma Detect_within w d o filePath content :
  ReadFile w filePath = inl content ->
  (Z.of_nat (String.length content) <= MaxFileSize (Yara (Detection (config d))))%Z ->
  is_Err (Detect w d o filePath).1 = false /\
  is_Panic (Detect w d o filePath).1 =
  MachineLearning_Enabled (MachineLearning (Detection (config d)))
  && is_Panic (mlDetect d content).
Proof.
  intros HR Hsz.
  destruct (featureMatch_within w (config d) content Hsz) as (fr & fout & Hfm & _).
  detect_steps HR Hfm.
  pose proof (behaviorAnalyze_not_Panic w (config d) o filePath content) as HnP.
  destruct (BehaviorAnalysis_Enabled _), (MachineLearning_Enabled _);
    cbn [mbind M_bind bind print orWarn mret M_ret ret andb];
    repeat match goal with
           | |- context [behaviorAnalyze ?a ?b ?c ?e ?f] =>
               destruct (behaviorAnalyze a b c e f); try discriminate HnP
           | |- context [mlDetect ?a ?b] => destruct (mlDetect a b)
           end;
    cbn [mbind M_bind bind print orWarn mret M_ret ret panic is_Panic is_Err fst];
    split; reflexivity.
Qed.

(** X4: [Detect] returns an error exactly when the file cannot be read or is
    longer than the configured maximum: a failure of the behaviour
    analysis or of the ML scorer is never an error of the detection. *)
Theorem Detect_error_iff w d o filePath :
  is_Err (Detect w d o filePath).1 = true <->
  (exists err, ReadFile w filePath = inr err) \/
  (exists content,
     ReadFile w filePath = inl content /\
     (MaxFileSize (Yara (Detection (config d))) < Z.of_nat (String.length content))%Z).
Proof.
  destruct (ReadFile w filePath) as [content | err] eqn:HR.
  - destruct (Z.le_gt_cases (Z.of_nat (String.length content))
                (MaxFileSize (Yara (Detection (config d))))) as [Hsz | Hsz].
    + destruct (Detect_within w d o filePath content HR Hsz) as (-> & _).
      split; [discriminate|].
      intros [(e & [=]) | (c & [= <-] & H)]. lia.
    + rewrite (Detect_too_large w d o filePath content HR) by lia.
      split; [|reflexivity]. intros _. right. exists content. split; [reflexivity | lia].
  - rewrite (Detect_unreadable w d o filePath err HR).
    split; [|reflexivity]. intros _. left. eauto.
Qed.

(** X5: [Detect] panics exactly when the file is read, is within the size
    limit, ML detection is enabled, and the model is nil or declares five
    features but lists fewer than five weights. *)
Theorem Detect_panic_iff w d o filePath :
  is_Panic (Detect w d o filePath).1 = true <->
  exists content,
    ReadFile w filePath = inl content /\
    (Z.of_nat (String.length content) <= MaxFileSize (Yara (Detection (config d))))%Z /\
    MachineLearning_Enabled (MachineLearning (Detection (config d))) = true /\
    (mlModel d = None \/
     exists model, mlModel d = Some model /\ FeatureCount model = 5%Z /\
                   (length (Weights (Data model)) < 5)%nat).
Proof.
  assert (HP : forall content,
             is_Panic (mlDetect d content) = true <->
             (mlModel d = None \/
              exists model, mlModel d = Some model /\ FeatureCount model = 5%Z /\
                            (length (Weights (Data model)) < 5)%nat)).
  { intros content. pose proof (mlDetect_cases d content) as H.
    destruct (mlModel d) as [model|]; [|split; auto].
    destruct (FeatureCount model =? 5)%Z eqn:E5; cbn [negb] in H.
    - apply Z.eqb_eq in E5.
      destruct (length (Weights (Data model)) <? 5)%nat eqn:EW.
      + apply Nat.ltb_lt in EW. rewrite H. split; [|reflexivity].
        intros _. right. exists model. done.
      + apply Nat.ltb_ge in EW. destruct H as (s & ->).
        split; [discriminate|]. intros [[=] | (m & [= <-] & _ & Hlt)]. lia.
    - apply Z.eqb_neq in E5.
      destruct (mlDetect d content); try discriminate H.
      split; [discriminate|]. intros [[=] | (m & [= <-] & H5 & _)]. lia. }
  destruct (ReadFile w filePath) as [content | err] eqn:HR.
  - destruct (Z.le_gt_cases (Z.of_nat (String.length content))
                (MaxFileSize (Yara (Detection (config d))))) as [Hsz | Hsz].
    + destruct (Detect_within w d o filePath content HR Hsz) as (_ & ->).
      rewrite andb_true_iff, HP. split.
      * intros (Hen & H). exists content. done.
      * intros (c & [= <-] & _ & Hen & H). done.
    + rewrite (Detect_too_large w d o filePath content HR) by lia.
      split; [discriminate|]. intros (c & [= <-] & H & _). lia.
  - rewrite (Detect_unreadable w d o filePath err HR).
    split; [discriminate|]. intros (c & [=] & _).
Qed.

(** ** Degraded methods *)

Import inputs2.

(** X6: a failure of the behaviour analysis does not fail the detection: the
    warning is printed, and the result carries no behaviour and a
    behaviour score of 0. *)
Theorem Detect_survives_behavior_failure w d o filePath content e r out :
  ReadFile w filePath = inl content ->
  BehaviorAnalysis_Enabled (BehaviorAnalysis (Detection (config d))) = true ->
  behaviorAnalyze w (config d) o filePath content = Err e ->
  Detect w d o filePath = (Ok r, out) ->
  In ("Warning: Behavior analysis failed: " +:+ e) out /\
  Behaviors r = [] /\ BehaviorScore r = 0.
Proof.
  intros HR Hen Hbe HD.
  pose proof HD as HD'.
  apply Detect_Ok_inv in HD' as (c & fr & fout & r0 & HR' & Hfm & _).
  rewrite HR in HR'. injection HR' as <-.
  revert HD. detect_steps HR Hfm. rewrite Hen, Hbe.
  cbn [mbind M_bind bind print orWarn mret M_ret ret].
  destruct (MachineLearning_Enabled _);
    cbn [mbind M_bind bind print orWarn mret M_ret ret];
    [destruct (mlDetect d content)|];
    cbn [mbind M_bind bind print orWarn mret M_ret ret panic];
    try discriminate;
    intros [= <- <-];
    (split; [cbn [In app]; rewrite ?in_app_iff; cbn [In]; tauto|]);
    match goal with
    | |- Behaviors (calculateTotalScore ?cfg ?r0) = _ /\ _ =>
        destruct (calculateTotalScore_fixed cfg r0) as (_ & ->);
        destruct (calculateTotalScore_scores cfg r0) as ([-> | ->] & _)
    end; split; reflexivity.
Qed.

Lemma Detect_survives_behavior_failure_witness :
  match Detect timeoutWorld d order "loop.php" with
  | (Ok r, out) =>
      In "Warning: Behavior analysis failed: failed to analyze behavior: signal: killed" out /\
      Behaviors r = [] /\ BehaviorScore r = 0
  | _ => False
  end.
Proof.
  destruct (Detect timeoutWorld d order "loop.php") as [[r | e | e] out] eqn:E.
  - apply (Detect_survives_behavior_failure timeoutWorld d order "loop.php"
             "<?php while (true) { } ?>" "failed to analyze behavior: signal: killed"
             r out); [reflexivity | reflexivity | reflexivity | exact E].
  - vm_compute in E. discriminate E.
  - vm_compute in E. discriminate E.
Defined.

(** ** Feature matching: what the score is made of *)

Lemma matchRegexLoop_spec w s patterns score matches :
  (matchRegexLoop w s patterns score matches).2 =
  matches ++ List.map Pattern
               (List.filter (fun p => MatchString w (Pattern p) s) patterns) /\
  (matchRegexLoop w s patterns score matches).1 ==
  score + Qsum (List.map PatternScore
                  (List.filter (fun p => MatchString w (Pattern p) s) patterns)).
Proof.
  revert score matches.
  induction patterns as [|p ps IH]; intros score matches; cbn [matchRegexLoop List.filter].
  - cbn. split; [rewrite app_nil_r; reflexivity | ring].
  - destruct (MatchString w (Pattern p) s).
    + destruct (IH (score + PatternScore p) (matches ++ [Pattern p])) as (-> & ->).
      cbn [List.map]. rewrite Qsum_cons, <- app_assoc. split; [reflexivity | ring].
    + apply IH.
Qed.

(** X7: the regular-expression phase reports the matching patterns of the
    catalogue in catalogue order, each once, and its score is the sum of
    their scores, however often a pattern matches: at most 440. *)
Theorem matchRegexPatterns_presence_only w content :
  (matchRegexPatterns w content).2 =
  List.map Pattern
    (List.filter (fun p => MatchString w (Pattern p) content) WebshellPatterns) /\
  (matchRegexPatterns w content).1 ==
  Qsum (List.map PatternScore
          (List.filter (fun p => MatchString w (Pattern p) content) WebshellPatterns)) /\
  0 <= (matchRegexPatterns w content).1 <= 440.
Proof.
  unfold matchRegexPatterns.
  destruct (matchRegexLoop_spec w content WebshellPatterns 0 []) as (H1 & H2).
  split; [exact H1|]. split; [rewrite H2; ring|].
  rewrite H2. unfold WebshellPatterns. cbn [List.filter Pattern].
  repeat match goal with
         | |- context [MatchString w ?p content] => destruct (MatchString w p content)
         end; vm_compute; split; discriminate.
Qed.

Lemma matchRegexLoop_lower w s patterns score matches p :
  Forall (fun p => 0 <= PatternScore p) patterns ->
  In p patterns ->
  MatchString w (Pattern p) s = true ->
  score + PatternScore p <= (matchRegexLoop w s patterns score matches).1 /\
  In (Pattern p) (matchRegexLoop w s patterns score matches).2.
Proof.
  intros HP. revert score matches.
  induction HP as [|q qs Hq HP IH]; intros score matches Hin Hm; [destruct Hin|].
  cbn [matchRegexLoop].
  destruct Hin as [-> | Hin].
  - rewrite Hm.
    destruct (matchRegexLoop_spec w s qs (score + PatternScore p) (matches ++ [Pattern p]))
      as (-> & ->).
    split.
    + assert (0 <= Qsum (List.map PatternScore
                           (List.filter (fun p => MatchString w (Pattern p) s) qs))); [|lra].
      apply Qsum_nonneg, List.Forall_forall.
      intros x (y & <- & Hy)%in_map_iff.
      apply filter_In in Hy as (Hy & _).
      rewrite List.Forall_forall in HP. apply HP, Hy.
    + rewrite !in_app_iff. left. right. left. reflexivity.
  - destruct (MatchString w (Pattern q) s).
    + destruct (IH (score + PatternScore q) (matches ++ [Pattern q]) Hin Hm) as (H1 & H2).
      split; [lra | exact H2].
    + apply IH; assumption.
Qed.

(** The result of [featureMatch] within the size limit, in terms of the
    two phases; [yscore] is the score of the rule-engine phase. *)
Lemma featureMatch_result w cfg content fr out :
  featureMatch w cfg content = (Ok fr, out) ->
  exists yscore,
    0 <= yscore <= 100 /\
    RegexMatches fr = (matchRegexPatterns w content).2 /\
    Matches fr = RegexMatches fr ++ YaraMatches fr /\
    ((matchRegexPatterns w content).1 + yscore <= 100 ->
     Score fr == (matchRegexPatterns w content).1 + yscore) /\
    (100 <= (matchRegexPatterns w content).1 + yscore -> Score fr == 100) /\
    (if Yara_Enabled (Yara (Detection cfg))
     then exists yout, matchYaraRules w cfg content = (Ok (yscore, YaraMatches fr), yout) /\
                       out = (yout ++ []) ++ []
     else yscore = 0 /\ YaraMatches fr = [] /\ out = []).
Proof.
  unfold featureMatch.
  destruct (_ <? _)%Z; [discriminate|].
  destruct (matchRegexPatterns w content) as [rs rm].
  destruct (Yara_Enabled (Yara (Detection cfg))).
  - destruct (matchYaraRules_Ok w cfg content) as (ys & ym & yout & Hy & Hys).
    rewrite Hy. cbn. intros [= <- <-]. exists ys. cbn.
    split; [exact Hys|]. split; [reflexivity|]. split; [reflexivity|].
    split; [|split].
    + intros H. qcase; lra.
    + intros H. qcase; lra.
    + exists yout. done.
  - cbn. intros [= <- <-]. exists 0. cbn.
    split; [lra|]. split; [reflexivity|]. split; [reflexivity|].
    split; [|split].
    + intros H. qcase; lra.
    + intros H. qcase; lra.
    + done.
Qed.

(** ** The rule-engine phase: 50 for every match, capped at 100 *)

Lemma count_snoc {A} (l : list A) (x : A) :
  inject_Z (Z.of_nat (length (l ++ [x]))) == inject_Z (Z.of_nat (length l)) + 1.
Proof.
  rewrite length_app. cbn [length].
  rewrite Nat2Z.inj_add, inject_Z_plus. reflexivity.
Qed.

Lemma addMatches_counts acc m :
  acc.1 == 50 * inject_Z (Z.of_nat (length acc.2)) ->
  (addMatches acc m).1 == 50 * inject_Z (Z.of_nat (length (addMatches acc m).2)).
Proof.
  unfold addMatches. revert acc.
  induction m as [|mr m IH]; intros acc H; cbn [fold_left]; [exact H|].
  apply IH. cbn [fst snd]. rewrite count_snoc, H. ring.
Qed.

Lemma walk_counts w content visits acc :
  acc.1 == 50 * inject_Z (Z.of_nat (length acc.2)) ->
  (walk w content visits acc).1.1
  == 50 * inject_Z (Z.of_nat (length (walk w content visits acc).1.2)).
Proof.
  revert acc. induction visits as [|v vs IH]; intros acc H; cbn [walk]; [exact H|].
  unfold walkFn.
  destruct (visit_err v); [exact H|].
  destruct (_ && _); [|apply IH, H].
  destruct (Yara_ w (visit_path v) content); try exact H.
  apply IH, addMatches_counts, H.
Qed.

Lemma yaraLoop_counts w cfg content ruleTypes acc :
  acc.1 == 50 * inject_Z (Z.of_nat (length acc.2)) ->
  (yaraLoop w cfg content ruleTypes acc).1.1
  == 50 * inject_Z (Z.of_nat (length (yaraLoop w cfg content ruleTypes acc).1.2)).
Proof.
  revert acc. induction ruleTypes as [|t ts IH]; intros acc H; cbn [yaraLoop]; [exact H|].
  pose proof (walk_counts w content (Walk w (Join2 (RulesDir cfg) t)) acc H) as Hw.
  destruct (walk w content _ acc) as [acc' [err|]]; cbn [fst snd] in Hw.
  - specialize (IH acc' Hw). destruct (yaraLoop w cfg content ts acc'). exact IH.
  - apply IH, Hw.
Qed.

(** X8: the score of [matchYaraRules] is 50 times the number of reported
    matches, capped at 100: 0, 50, or 100 from the second match on. *)
Theorem matchYaraRules_score w cfg content score matches out :
  matchYaraRules w cfg content = (Ok (score, matches), out) ->
  ((length matches <= 2)%nat -> score == 50 * inject_Z (Z.of_nat (length matches))) /\
  ((2 <= length matches)%nat -> score == 100).
Proof.
  unfold matchYaraRules.
  pose proof (yaraLoop_counts w (Yara (Detection cfg)) content
                (RuleTypes (Yara (Detection cfg))) (0, [])) as H.
  destruct (yaraLoop _ _ _ _ _) as [acc yout]. cbn [fst snd] in H.
  specialize (H ltac:(cbn; ring)).
  intros [= <- <- _].
  assert (Hn : forall n, (Z.of_nat (length acc.2) <= n)%Z ->
                         inject_Z (Z.of_nat (length acc.2)) <= inject_Z n).
  { intros n Hle. rewrite <- Zle_Qle. exact Hle. }
  assert (Hn' : forall n, (n <= Z.of_nat (length acc.2))%Z ->
                          inject_Z n <= inject_Z (Z.of_nat (length acc.2))).
  { intros n Hle. rewrite <- Zle_Qle. exact Hle. }
  split; intros Hlen.
  - specialize (Hn 2%Z ltac:(lia)). change (inject_Z 2) with 2 in Hn.
    qcase; lra.
  - specialize (Hn' 2%Z ltac:(lia)). change (inject_Z 2) with 2 in Hn'.
    qcase; lra.
Qed.

Lemma matchYaraRules_score_witness :
  match matchYaraRules shellWorld cfg "<?php eval($_POST['c']); ?>" with
  | (Ok (score, matches), _) => length matches = 2%nat /\ score == 100
  | _ => False
  end.
Proof.
  destruct (matchYaraRules shellWorld cfg "<?php eval($_POST['c']); ?>")
    as [[[score matches] | e | e] out] eqn:E.
  - assert (Hlen : length matches = 2%nat).
    { vm_compute in E. injection E as _ <- _. reflexivity. }
    split; [exact Hlen|].
    apply (matchYaraRules_score _ _ _ _ _ _ E). lia.
  - vm_compute in E. discriminate E.
  - vm_compute in E. discriminate E.
Defined.

(** ** A dangerous pattern decides the verdict *)

Lemma calculateTotalScore_MatchedFeatures cfg r :
  MatchedFeatures (calculateTotalScore cfg r) = MatchedFeatures r.
Proof.
  unfold calculateTotalScore.
  assert (H1 : forall x, MatchedFeatures (overrideSafe x) = MatchedFeatures x).
  { intros x. unfold overrideSafe. destruct (_ && _); [|reflexivity].
    cbv zeta. destruct (float64.gtb _ _); reflexivity. }
  assert (H2 : forall x, MatchedFeatures (overrideHigh x) = MatchedFeatures x).
  { intros x. unfold overrideHigh. destruct (_ >? _); reflexivity. }
  assert (H3 : forall x, MatchedFeatures (classify x) = MatchedFeatures x).
  { intros x. unfold classify. repeat (destruct (float64.geb _ _)); reflexivity. }
  rewrite H1, H2, H3.
  unfold blend, blendML, blendBehavior, blendFeature.
  cbn [set_TotalScore MatchedFeatures].
  destruct (BehaviorAnalysis_Enabled _), (MachineLearning_Enabled _); cbn [blended];
    repeat match goal with
           | |- context [if ?c then _ else _] => destruct c
           end; reflexivity.
Qed.

Lemma Detect_feature w d o filePath content r out :
  ReadFile w filePath = inl content ->
  Detect w d o filePath = (Ok r, out) ->
  exists fr fout,
    featureMatch w (config d) content = (Ok fr, fout) /\
    FeatureScore r = Score fr /\ MatchedFeatures r = Matches fr.
Proof.
  intros HR HD.
  apply Detect_Ok_inv in HD as (c & fr & fout & r0 & HR' & Hfm & HF & HMF & _ & _ & ->).
  rewrite HR in HR'. injection HR' as <-.
  exists fr, fout. split; [exact Hfm|].
  destruct (calculateTotalScore_fixed (config d) r0) as (-> & _).
  split; [exact HF|]. rewrite calculateTotalScore_MatchedFeatures. exact HMF.
Qed.

(** X9: when a pattern of the catalogue with score 100 matches the content,
    the result of [Detect] has feature score 100, is HIGH and a
    webshell, and lists the pattern, whatever the rule engine, the
    behaviour analysis and the model say. *)
Theorem dangerous_pattern_is_high w d o filePath content p r out :
  ReadFile w filePath = inl content ->
  In p WebshellPatterns ->
  PatternScore p == 100 ->
  MatchString w (Pattern p) content = true ->
  Detect w d o filePath = (Ok r, out) ->
  FeatureScore r == 100 /\
  RiskLevel r = RiskLevelHigh /\ IsWebshell r = true /\
  In (Pattern p) (MatchedFeatures r).
Proof.
  intros HR Hin Hp Hm HD.
  destruct (Detect_feature w d o filePath content r out HR HD)
    as (fr & fout & Hfm & HF & HMF).
  destruct (featureMatch_result w (config d) content fr fout Hfm)
    as (ys & Hys & HRM & HM & _ & H100 & _).
  destruct (matchRegexLoop_lower w content WebshellPatterns 0 [] p
              WebshellPatterns_nonneg Hin Hm) as (Hlow & Hlist).
  fold (matchRegexPatterns w content) in Hlow, Hlist.
  assert (HS : FeatureScore r == 100) by (rewrite HF; apply H100; lra).
  split; [exact HS|].
  destruct (Detect_feature_score_above_90 w d o filePath r out HD) as (-> & ->); [lra|].
  split; [reflexivity|]. split; [reflexivity|].
  rewrite HMF, HM, HRM, in_app_iff. left. exact Hlist.
Qed.

Lemma dangerous_pattern_is_high_witness :
  match Detect shellWorld d order "shell.php" with
  | (Ok r, _) => FeatureScore r == 100 /\ RiskLevel r = RiskLevelHigh /\
                 IsWebshell r = true
  | _ => False
  end.
Proof.
  destruct (Detect shellWorld d order "shell.php") as [[r | e | e] out] eqn:E.
  - destruct (dangerous_pattern_is_high shellWorld d order "shell.php"
                "<?php eval($_POST['c']); ?>"
                (List.hd (Build_WebshellPattern EmptyString 0) WebshellPatterns)
                r out) as (H1 & H2 & H3 & _).
    + vm_compute. reflexivity.
    + left. vm_compute. reflexivity.
    + vm_compute. reflexivity.
    + vm_compute. reflexivity.
    + exact E.
    + split; [exact H1|]. split; [exact H2 | exact H3].
  - vm_compute in E. discriminate E.
  - vm_compute in E. discriminate E.
Defined.

(** ** Behaviour analysis: the score and the visiting order of the maps *)

Import parts.

Lemma scan_fold {A} (f : A -> bool) (wf : A -> Q) (nf : A -> string)
    (l : list A) result :
  BBehaviors (fold_left (fun result a =>
                           if f a then addBehavior (wf a) (nf a) result else result)
                        l result)
  = BBehaviors result ++ List.map nf (List.filter f l) /\
  BScore (fold_left (fun result a =>
                       if f a then addBehavior (wf a) (nf a) result else result)
                    l result)
  == BScore result + Qsum (List.map wf (List.filter f l)).
Proof.
  revert result.
  induction l as [|a l IH]; intros result; cbn [fold_left List.filter].
  - cbn [List.map]. split; [rewrite app_nil_r; reflexivity|].
    change (Qsum []) with 0. ring.
  - destruct (f a).
    + destruct (IH (addBehavior (wf a) (nf a) result)) as (-> & ->).
      cbn [List.map addBehavior BBehaviors BScore]. rewrite Qsum_cons, <- app_assoc.
      split; [reflexivity | ring].
    + apply IH.
Qed.

Lemma Qsum_app l l' : Qsum (l ++ l') == Qsum l + Qsum l'.
Proof.
  induction l as [|x l IH].
  - change (Qsum ([] ++ l')) with (Qsum l'). change (Qsum []) with 0. ring.
  - change ((x :: l) ++ l') with (x :: (l ++ l')).
    rewrite !Qsum_cons, IH. ring.
Qed.

Lemma scanFileOps_observed order straceOutput result :
  BBehaviors (scanFileOps order straceOutput result)
  = BBehaviors result
    ++ List.map (fun entry : string * Action => behavior entry.2)
         (List.filter (fun entry : string * Action => fileOpCounted straceOutput entry.1)
            order) /\
  BScore (scanFileOps order straceOutput result)
  == BScore result
     + Qsum (List.map (fun entry : string * Action => Qabs (score entry.2))
               (List.filter (fun entry : string * Action =>
                               fileOpCounted straceOutput entry.1) order)).
Proof.
  exact (scan_fold (fun entry : string * Action => fileOpCounted straceOutput entry.1)
           (fun entry : string * Action => Qabs (score entry.2))
           (fun entry : string * Action => behavior entry.2) order result).
Qed.

Lemma scanConnect_observed straceOutput result :
  BBehaviors (scanConnect straceOutput result)
  = BBehaviors result
    ++ List.map snd (if connectCounted straceOutput
                     then [(20, "Attempted to establish external network connection")]
                     else []) /\
  BScore (scanConnect straceOutput result)
  == BScore result
     + Qsum (List.map fst (if connectCounted straceOutput
                           then [(20, "Attempted to establish external network connection")]
                           else [])).
Proof.
  unfold scanConnect, connectCounted.
  destruct (strings.Contains straceOutput "connect("); cbn [andb].
  - destruct (_ && _); cbn [List.map fst snd addBehavior BBehaviors BScore].
    + split; [reflexivity|]. rewrite Qsum_cons. change (Qsum []) with 0. ring.
    + split; [rewrite app_nil_r; reflexivity|]. change (Qsum []) with 0. ring.
  - cbn [List.map]. split; [rewrite app_nil_r; reflexivity|].
    change (Qsum []) with 0. ring.
Qed.

Lemma scanCommands_observed straceOutput result :
  BBehaviors (scanCommands straceOutput result)
  = BBehaviors result
    ++ List.map (fun cmd => "Attempted to execute dangerous command: " +:+ cmd)
         (List.filter (commandCounted straceOutput) dangerousCommands) /\
  BScore (scanCommands straceOutput result)
  == BScore result
     + Qsum (List.map (fun _ : string => 25)
               (List.filter (commandCounted straceOutput) dangerousCommands)).
Proof.
  exact (scan_fold (commandCounted straceOutput) (fun _ => 25)
           (fun cmd => "Attempted to execute dangerous command: " +:+ cmd)
           dangerousCommands result).
Qed.

Lemma scanSensitive_observed order straceOutput result :
  BBehaviors (scanSensitive order straceOutput result)
  = BBehaviors result
    ++ List.map (fun entry : string * Action => behavior entry.2)
         (List.filter (fun entry : string * Action =>
                         sensitiveCounted straceOutput entry.1) order) /\
  BScore (scanSensitive order straceOutput result)
  == BScore result
     + Qsum (List.map (fun entry : string * Action => score entry.2)
               (List.filter (fun entry : string * Action =>
                               sensitiveCounted straceOutput entry.1) order)).
Proof.
  exact (scan_fold (fun entry : string * Action => sensitiveCounted straceOutput entry.1)
           (fun entry : string * Action => score entry.2)
           (fun entry : string * Action => behavior entry.2) order result).
Qed.

(** Before the final adjustment the result lists the observed behaviours
    and sums their weights. *)
Lemma scans_observed o straceOutput :
  BBehaviors (scanSensitive (sensitiveOrder o) straceOutput
                (scanCommands straceOutput
                   (scanConnect straceOutput
                      (scanFileOps (fileOpsOrder o) straceOutput
                         {| BScore := 0; BBehaviors := [] |}))))
  = List.map snd (observed o straceOutput) /\
  BScore (scanSensitive (sensitiveOrder o) straceOutput
            (scanCommands straceOutput
               (scanConnect straceOutput
                  (scanFileOps (fileOpsOrder o) straceOutput
                     {| BScore := 0; BBehaviors := [] |}))))
  == Qsum (List.map fst (observed o straceOutput)).
Proof.
  unfold observed.
  rewrite !List.map_app, !Qsum_app, !List.map_map.
  cbn [fst snd].
  destruct (scanSensitive_observed (sensitiveOrder o) straceOutput
              (scanCommands straceOutput
                 (scanConnect straceOutput
                    (scanFileOps (fileOpsOrder o) straceOutput
                       {| BScore := 0; BBehaviors := [] |})))) as (-> & ->).
  destruct (scanCommands_observed straceOutput
              (scanConnect straceOutput
                 (scanFileOps (fileOpsOrder o) straceOutput
                    {| BScore := 0; BBehaviors := [] |}))) as (-> & ->).
  destruct (scanConnect_observed straceOutput
              (scanFileOps (fileOpsOrder o) straceOutput
                 {| BScore := 0; BBehaviors := [] |})) as (-> & ->).
  destruct (scanFileOps_observed (fileOpsOrder o) straceOutput
              {| BScore := 0; BBehaviors := [] |}) as (-> & ->).
  cbn [BBehaviors BScore app].
  split; [rewrite <- !app_assoc; reflexivity | ring].
Qed.

Lemma filter_Permutation' {A} (f : A -> bool) (l l' : list A) :
  Permutation l l' -> Permutation (List.filter f l) (List.filter f l').
Proof.
  induction 1 as [| x l l' _ IH | x y l | l l' l'' _ IH1 _ IH2]; cbn [List.filter].
  - constructor.
  - destruct (f x); [constructor|]; exact IH.
  - destruct (f x), (f y); try reflexivity. constructor.
  - etransitivity; eassumption.
Qed.

Lemma observed_Permutation o1 o2 straceOutput :
  validOrder o1 -> validOrder o2 ->
  Permutation (observed o1 straceOutput) (observed o2 straceOutput).
Proof.
  intros (Hf1 & Hs1) (Hf2 & Hs2). unfold observed.
  apply Permutation_app.
  { apply Permutation_map, filter_Permutation'.
    etransitivity; [exact Hf1 | symmetry; exact Hf2]. }
  apply Permutation_app; [reflexivity|].
  apply Permutation_app; [reflexivity|].
  apply Permutation_map, filter_Permutation'.
  etransitivity; [exact Hs1 | symmetry; exact Hs2].
Qed.

Lemma normalize_respects r1 r2 :
  BScore r1 == BScore r2 ->
  Permutation (BBehaviors r1) (BBehaviors r2) ->
  BScore (normalize r1) == BScore (normalize r2) /\
  Permutation (BBehaviors (normalize r1)) (BBehaviors (normalize r2)).
Proof.
  intros HS HP. unfold normalize.
  pose proof (Permutation_length HP) as HL. rewrite <- HL.
  destruct (length (BBehaviors r1) =? 0)%nat; cbn [BScore BBehaviors];
    qcase; cbn [BScore BBehaviors]; (split; [lra | exact HP]).
Qed.

(** X11: the result of the interpretation does not depend on the order in
    which the two maps are visited: the score is the same and the
    behaviours are the same up to their order in the list. *)
Theorem analyzeTrace_order_independent o1 o2 straceOutput :
  validOrder o1 -> validOrder o2 ->
  BScore (analyzeTrace o1 straceOutput) == BScore (analyzeTrace o2 straceOutput) /\
  Permutation (BBehaviors (analyzeTrace o1 straceOutput))
              (BBehaviors (analyzeTrace o2 straceOutput)).
Proof.
  intros H1 H2. unfold analyzeTrace.
  pose proof (observed_Permutation o1 o2 straceOutput H1 H2) as HP.
  destruct (scans_observed o1 straceOutput) as (Hb1 & Hs1).
  destruct (scans_observed o2 straceOutput) as (Hb2 & Hs2).
  apply normalize_respects.
  - rewrite Hs1, Hs2. apply Qsum_Permutation, Permutation_map, HP.
  - rewrite Hb1, Hb2. apply Permutation_map, HP.
Qed.

Lemma analyzeTrace_order_independent_witness :
  validOrder order /\ validOrder reversedOrder /\
  BScore (analyzeTrace order busyTrace) == BScore (analyzeTrace reversedOrder busyTrace) /\
  Permutation (BBehaviors (analyzeTrace order busyTrace))
              (BBehaviors (analyzeTrace reversedOrder busyTrace)).
Proof.
  assert (H1 : validOrder order) by (split; apply Permutation_refl).
  assert (H2 : validOrder reversedOrder)
    by (split; apply Permutation_sym, Permutation_rev).
  split; [exact H1|]. split; [exact H2|].
  exact (analyzeTrace_order_independent order reversedOrder busyTrace H1 H2).
Defined.

(** ** A behaviour score of 0 means no behaviour *)

Lemma dangerousFileOps_weights :
  Forall (fun entry : string * Action => 10 <= Qabs (score entry.2))
         (map_to_list dangerousFileOps).
Proof.
  rewrite dangerousFileOps_entries.
  repeat constructor; vm_compute; discriminate.
Qed.

Lemma sensitiveFiles_weights :
  Forall (fun entry : string * Action => 10 <= score entry.2)
         (map_to_list sensitiveFiles).
Proof.
  assert (H : forallb (fun entry : string * Action => Qle_bool 10 (score entry.2))
                (map_to_list sensitiveFiles) = true) by (vm_compute; reflexivity).
  rewrite forallb_forall in H. apply List.Forall_forall.
  intros e He. apply Qle_bool_iff, H, He.
Qed.

Lemma observed_weights o straceOutput x :
  validOrder o ->
  In x (observed o straceOutput) -> 10 <= x.1.
Proof.
  intros (Hf & Hs). unfold observed. rewrite !in_app_iff.
  intros [H | [H | [H | H]]].
  - apply in_map_iff in H as (e & <- & (He & _)%filter_In).
    pose proof (Permutation_Forall (Permutation_sym Hf) dangerousFileOps_weights) as HF.
    rewrite List.Forall_forall in HF. exact (HF e He).
  - destruct (connectCounted straceOutput); [|destruct H].
    destruct H as [<- | []]. cbn. lra.
  - apply in_map_iff in H as (c & <- & _). cbn. lra.
  - apply in_map_iff in H as (e & <- & (He & _)%filter_In).
    pose proof (Permutation_Forall (Permutation_sym Hs) sensitiveFiles_weights) as HF.
    rewrite List.Forall_forall in HF. exact (HF e He).
Qed.

Lemma Qsum_at_least (l : list Q) :
  (forall x, In x l -> 10 <= x) -> l <> [] -> 10 <= Qsum l.
Proof.
  intros H Hne. destruct l as [|x l]; [congruence|].
  rewrite Qsum_cons.
  assert (0 <= Qsum l).
  { apply Qsum_nonneg, List.Forall_forall. intros y Hy.
    specialize (H y (or_intror Hy)). lra. }
  specialize (H x (or_introl eq_refl)). lra.
Qed.

Lemma analyzeTrace_observed o straceOutput :
  validOrder o ->
  BBehaviors (analyzeTrace o straceOutput) <> [] ->
  10 <= BScore (analyzeTrace o straceOutput) <= 100.
Proof.
  intros Ho Hne. split; [|apply analyzeTrace_bounds, Ho].
  revert Hne. unfold analyzeTrace.
  destruct (scans_observed o straceOutput) as (Hb & Hs).
  set (raw := scanSensitive _ _ _) in *.
  assert (Hraw : BBehaviors raw <> [] -> 10 <= BScore raw).
  { intros Hne. rewrite Hs. apply Qsum_at_least.
    - intros x (y & <- & Hy)%in_map_iff. apply (observed_weights o straceOutput y Ho Hy).
    - rewrite Hb in Hne. destruct (observed o straceOutput); [exfalso; apply Hne; reflexivity | discriminate]. }
  unfold normalize.
  destruct (BBehaviors raw) as [|b bs] eqn:HB; cbn [length Nat.eqb BScore BBehaviors].
  - destruct (0 >? 100); cbn; congruence.
  - intros _. rewrite HB. specialize (Hraw ltac:(discriminate)).
    qcase; cbn [BScore]; lra.
Qed.

Lemma calculateTotalScore_BehaviorScore cfg r :
  Behaviors r <> [] ->
  BehaviorScore (calculateTotalScore cfg r) = BehaviorScore r.
Proof.
  intros Hne. unfold calculateTotalScore.
  destruct (overrideSafe_scores (overrideHigh (classify (blend cfg r)))) as (-> & _).
  destruct (overrideHigh_scores (classify (blend cfg r))) as (-> & _).
  destruct (classify_scores (blend cfg r)) as (-> & _).
  unfold blend, blendML, blendBehavior, blendFeature.
  cbn [set_TotalScore BehaviorScore blended].
  destruct (Behaviors r) as [|b bs] eqn:HB; [congruence|].
  destruct (BehaviorAnalysis_Enabled _), (MachineLearning_Enabled _);
    cbn [blended length Nat.eqb]; rewrite ?HB; cbn [length Nat.eqb];
    rewrite ?andb_false_r; reflexivity.
Qed.

(** X12: in a result of [Detect] the behaviour score and the behaviour list
    agree: without behaviours the score is 0, and with a behaviour it is
    at least 10, the smallest weight of the analysis.  The reset of the
    behaviour score in [calculateTotalScore] therefore never changes
    what the analysis returned. *)
Theorem Detect_behavior_score_agrees w d o filePath r out :
  validOrder o ->
  Detect w d o filePath = (Ok r, out) ->
  (Behaviors r = [] /\ BehaviorScore r = 0) \/
  (Behaviors r <> [] /\ 10 <= BehaviorScore r <= 100).
Proof.
  intros Ho HD.
  apply Detect_Ok_inv in HD as (c & fr & fout & r0 & _ & _ & _ & _ & HB & _ & ->).
  destruct (calculateTotalScore_fixed (config d) r0) as (_ & HBe).
  rewrite HBe.
  destruct (Behaviors r0) as [|b bs] eqn:E.
  - left. split; [reflexivity|].
    assert (H0 : BehaviorScore r0 = 0).
    { destruct HB as [(_ & H0) | (br & Hbr & HBr & ->)]; [exact H0|].
      apply behaviorAnalyze_Ok_inv in Hbr as (output & ->).
      apply analyzeTrace_bounds; [exact Ho | congruence]. }
    destruct (calculateTotalScore_scores (config d) r0) as ([-> | ->] & _); congruence.
  - right. split; [discriminate|].
    rewrite calculateTotalScore_BehaviorScore by (rewrite E; discriminate).
    destruct HB as [(HB & _) | (br & Hbr & HBr & ->)]; [congruence|].
    apply behaviorAnalyze_Ok_inv in Hbr as (output & ->).
    apply analyzeTrace_observed; [exact Ho|]. rewrite <- HBr. discriminate.
Qed.

Lemma Detect_behavior_score_agrees_witness :
  match Detect busyWorld d order "shell.php" with
  | (Ok r, _) => Behaviors r <> [] /\ 10 <= BehaviorScore r <= 100
  | _ => False
  end.
Proof.
  destruct (Detect busyWorld d order "shell.php") as [[r | e | e] out] eqn:E.
  - destruct (Detect_behavior_score_agrees busyWorld d order "shell.php" r out)
      as [(H & _) | H].
    + split; apply Permutation_refl.
    + exact E.
    + exfalso. vm_compute in E. injection E as <- _. discriminate H.
    + exact H.
  - vm_compute in E. discriminate E.
  - vm_compute in E. discriminate E.
Defined.

(** ** The ML scorer: dimension check and the empty file *)

(** X13: with a model loaded, [mlDetect] returns an error exactly when the
    model declares a feature count other than the five features that
    [extractFeatures] produces. *)
Theorem mlDetect_error_iff d content model :
  mlModel d = Some model ->
  (is_Err (mlDetect d content) = true <-> FeatureCount model <> 5%Z).
Proof.
  intros Hm. pose proof (mlDetect_cases d content) as H. rewrite Hm in H.
  destruct (FeatureCount model =? 5)%Z eqn:E5; cbn [negb] in H.
  - apply Z.eqb_eq in E5.
    destruct (length (Weights (Data model)) <? 5)%nat.
    + rewrite H. split; [discriminate | congruence].
    + destruct H as (s & ->). split; [discriminate | congruence].
  - apply Z.eqb_neq in E5. split; [intros _; exact E5 | intros _; exact H].
Qed.

Lemma mlDetect_error_iff_witness :
  is_Err (mlDetect mismatched "<?php echo 1; ?>") = true.
Proof.
  apply (mlDetect_error_iff mismatched "<?php echo 1; ?>" fourFeatures eq_refl).
  vm_compute. discriminate.
Defined.

Lemma dot_zero_features weights i features score raw :
  Forall (fun f => f == 0) features ->
  float64.eqv score (float64.Num 0) ->
  dot weights i features score = Ok raw ->
  float64.eqv raw (float64.Num 0).
Proof.
  intros HF. revert i score.
  induction HF as [|f fs Hf _ IH]; intros i score Hs; cbn [dot].
  - intros [= <-]. exact Hs.
  - destruct (weights !! i) as [wt|]; [|discriminate].
    apply IH.
    eapply eqv_trans.
    { apply add_eqv; [exact Hs|].
      apply (mul_eqv _ (float64.Num 0) _ (float64.Num wt)); [exact Hf | apply eqv_refl]. }
    cbn [float64.mul].
    eapply eqv_trans.
    { apply add_eqv; [apply eqv_refl|].
      apply (round_eqv _ 0). apply Qmult_0_l. }
    rewrite (round_small 0) by lra. rewrite add_small by lra.
    cbn. lra.
Qed.

(** X14: for an empty file every feature is 0, so the ML score is 0 whatever
    the weights of the model are. *)
Theorem mlDetect_empty_file d s :
  mlDetect d EmptyString = Ok s -> float64.eqv s (float64.Num 0).
Proof.
  intros (model & features & raw & Hm & Hf & Hraw & -> & _)%mlDetect_bounds.
  injection Hf as <-.
  apply dot_zero_features in Hraw; [|repeat constructor | apply eqv_refl].
  destruct raw as [q | | |]; cbn [float64.eqv] in Hraw; try contradiction.
  unfold clamp01. rewrite gtb_Num, ltb_Num.
  destruct (q >? 1) eqn:E1; [apply Qgtb_true in E1; lra|].
  destruct (0 >? q) eqn:E0; [apply Qgtb_true in E0; lra|].
  rewrite mul_small by lra. cbn. lra.
Qed.

Lemma mlDetect_empty_file_witness :
  match mlDetect d EmptyString with
  | Ok s => float64.eqv s (float64.Num 0)
  | _ => False
  end.
Proof.
  destruct (mlDetect d EmptyString) as [s | e | e] eqn:E.
  - exact (mlDetect_empty_file d s E).
  - vm_compute in E. discriminate E.
  - vm_compute in E. discriminate E.
Defined.

(** * Further properties of the scanners *)

Import tasks.

(** ** The manual path of [main] *)

Lemma Start_outcome w k s o :
  isRunning (base s) = false ->
  (Start w k s o).2.1 =
  match (Detect w (scanner_detector (base s)) o (filePath s)).1 with
  | Ok _ => Ok tt
  | Err e => Err ("scan failed: " +:+ e)
  | Panic e => Panic e
  end /\
  (is_Panic (Start w k s o).2.1 = false -> isRunning (base (Start w k s o).1) = false).
Proof.
  intros HR. unfold Start. rewrite HR.
  cbn [set_isRunning base scanner_detector filePath].
  destruct (Detect _ _ _ _) as [[r | e | e] out]; cbn [wrap mbind M_bind bind fst].
  - pose proof (store_Ok k r) as Hs.
    destruct (store k r) as [[[] | e | e] so]; cbn in Hs; try discriminate.
    cbn. done.
  - cbn. done.
  - cbn. split; [reflexivity | discriminate].
Qed.

(** X15: the exit status of a manual scan tells whether the detection ran, not
    what it found: it is 0 exactly when [Detect] returns a result, 1
    exactly when [Detect] returns an error, that is when the file cannot
    be read or is longer than the configured maximum, and 2 when the
    detection panics. *)
Theorem handleManualScan_exit_status w k cfg model o filePath :
  let d := {| config := cfg; mlModel := model |} in
  (handleManualScan w k cfg model o filePath).1 =
  match (Detect w d o filePath).1 with
  | Ok _ => 0%Z
  | Err _ => 1%Z
  | Panic _ => 2%Z
  end /\
  ((handleManualScan w k cfg model o filePath).1 = 1%Z <->
   (exists err, ReadFile w filePath = inr err) \/
   (exists content,
      ReadFile w filePath = inl content /\
      (MaxFileSize (Yara (Detection cfg)) < Z.of_nat (String.length content))%Z)).
Proof.
  intros d.
  assert (H : (handleManualScan w k cfg model o filePath).1 =
              match (Detect w d o filePath).1 with
              | Ok _ => 0%Z | Err _ => 1%Z | Panic _ => 2%Z end).
  { unfold handleManualScan.
    destruct (Start_outcome w k (NewManualScanner cfg model filePath) o eq_refl)
      as (Hout & Hrun).
    cbn [NewManualScanner NewBaseScanner base scanner_detector scanner.filePath] in Hout.
    fold d in Hout.
    destruct (Start w k (NewManualScanner cfg model filePath) o) as [s' [res out]].
    cbn [fst snd] in Hout, Hrun. rewrite Hout in *.
    destruct (Detect w d o filePath).1 as [r | e | e]; [|reflexivity..].
    unfold Stop. rewrite (Hrun eq_refl). reflexivity. }
  split; [exact H|]. rewrite H.
  destruct (ReadFile w filePath) as [content | err] eqn:HR.
  - destruct (Z.le_gt_cases (Z.of_nat (String.length content))
                (MaxFileSize (Yara (Detection cfg)))) as [Hsz | Hsz].
    + destruct (Detect_within w d o filePath content HR Hsz) as (HE & _).
      destruct (Detect w d o filePath).1; try discriminate HE.
      * split; [discriminate|]. intros [(e & [=]) | (c & [= <-] & Hc)]. lia.
      * split; [discriminate|]. intros [(e' & [=]) | (c & [= <-] & Hc)]. lia.
    + rewrite (Detect_too_large w d o filePath content HR) by (cbn; lia).
      split; [|reflexivity]. intros _. right. exists content. split; [reflexivity | lia].
  - rewrite (Detect_unreadable w d o filePath err HR).
    split; [|reflexivity]. intros _. left. eauto.
Qed.

(** X16: [Start] on a running scanner refuses at once, without a detection
    and without a change of state; on an idle scanner it leaves the
    scanner as it found it unless the detection panics, so that the
    scanner can be started again and [Stop] has nothing to do. *)
Theorem Start_leaves_scanner_idle w k s o :
  (isRunning (base s) = true ->
   Start w k s o = (s, (Err "scanner is already running", []))) /\
  (isRunning (base s) = false ->
   is_Panic (Start w k s o).2.1 = false ->
   (Start w k s o).1 = s /\ Stop (Start w k s o).1 = (s, (Ok tt, []))).
Proof.
  split.
  - intros HR. unfold Start. rewrite HR. reflexivity.
  - intros HR HP.
    assert (Hs : (Start w k s o).1 = s).
    { revert HP. unfold Start. rewrite HR.
      destruct s as [[c dt run] fp]. cbn in HR. subst run.
      cbn [set_isRunning base scanner_detector scanner.filePath scanner_config].
      destruct (Detect w dt o fp) as [[r | e | e] out]; cbn [wrap mbind M_bind bind].
      - pose proof (store_Ok k r) as Hst.
        destruct (store k r) as [[[] | e | e] so]; cbn in Hst; try discriminate.
        cbn. reflexivity.
      - reflexivity.
      - cbn. discriminate. }
    split; [exact Hs|]. rewrite Hs. unfold Stop. rewrite HR. reflexivity.
Qed.

(** ** Which files are scanned: the extension filter *)

Import filepath.

Lemma append_String c (a b : string) : String c a +:+ b = String c (a +:+ b).
Proof. reflexivity. Qed.

Lemma list_ascii_of_string_app (a b : string) :
  list_ascii_of_string (a +:+ b) = list_ascii_of_string a ++ list_ascii_of_string b.
Proof.
  induction a as [|c a IH]; [reflexivity|].
  rewrite append_String. cbn [list_ascii_of_string]. rewrite IH. reflexivity.
Qed.

Lemma string_of_list_ascii_app (a b : list ascii) :
  string_of_list_ascii (a ++ b) = string_of_list_ascii a +:+ string_of_list_ascii b.
Proof.
  induction a as [|c a IH]; [reflexivity|].
  cbn [app string_of_list_ascii]. rewrite append_String, IH. reflexivity.
Qed.

Lemma extFrom_plain l rest suffix :
  forallb plainByte l = true ->
  extFrom (l ++ "."%char :: rest) suffix = "."%char :: (List.rev l ++ suffix).
Proof.
  revert suffix. induction l as [|c l IH]; intros suffix H; cbn.
  - reflexivity.
  - cbn in H. apply andb_true_iff in H as (Hc & Hl).
    unfold plainByte in Hc. apply andb_true_iff in Hc as (H1 & H2).
    apply negb_true_iff in H1, H2. rewrite H1, H2, (IH _ Hl), <- app_assoc.
    reflexivity.
Qed.

Lemma extFrom_cases backwards suffix :
  extFrom backwards suffix = [] \/
  exists l rest, backwards = l ++ "."%char :: rest /\ forallb plainByte l = true /\
                 extFrom backwards suffix = "."%char :: (List.rev l ++ suffix).
Proof.
  revert suffix. induction backwards as [|c back IH]; intros suffix; cbn; [left; reflexivity|].
  destruct (Ascii.eqb c "/") eqn:E1; [left; reflexivity|].
  destruct (Ascii.eqb c ".") eqn:E2.
  - apply Ascii.eqb_eq in E2. subst c. right. exists [], back. done.
  - destruct (IH (c :: suffix)) as [H | (l & rest & -> & Hl & H)]; [left; exact H|].
    right. exists (c :: l), rest. split; [reflexivity|]. split.
    + cbn. unfold plainByte at 1. rewrite E1, E2. exact Hl.
    + rewrite H. cbn. rewrite <- app_assoc. reflexivity.
Qed.

(** The extension of a path is a suffix of it: empty, or a plain type. *)
Lemma Ext_suffix path :
  (exists stem, path = stem +:+ Ext path) /\
  (Ext path = EmptyString \/ plainType (Ext path) = true).
Proof.
  unfold Ext.
  destruct (extFrom_cases (List.rev (list_ascii_of_string path)) [])
    as [-> | (l & rest & Hrev & Hl & ->)].
  - split; [|left; reflexivity]. exists path. cbn [string_of_list_ascii].
    induction path as [|c p IH]; [reflexivity|].
    rewrite append_String, <- IH. reflexivity.
  - rewrite app_nil_r. split.
    + exists (string_of_list_ascii (List.rev rest)).
      rewrite <- string_of_list_ascii_app.
      apply (f_equal (@List.rev ascii)) in Hrev.
      rewrite List.rev_involutive, List.rev_app_distr in Hrev. cbn in Hrev.
      rewrite <- app_assoc in Hrev. cbn in Hrev.
      rewrite <- Hrev. symmetry. apply string_of_list_ascii_of_string.
    + right. cbn. rewrite list_ascii_of_string_of_list_ascii.
      rewrite forallb_forall in *. intros x Hx. apply Hl, in_rev, Hx.
Qed.

Lemma Ext_plain stem fileType :
  plainType fileType = true -> Ext (stem +:+ fileType) = fileType.
Proof.
  destruct fileType as [|c rest]; [discriminate|]. cbn [plainType].
  intros (Hc & Hrest)%andb_true_iff. apply Ascii.eqb_eq in Hc. subst c.
  unfold Ext. rewrite list_ascii_of_string_app. cbn [list_ascii_of_string].
  rewrite List.rev_app_distr. cbn [List.rev]. rewrite <- app_assoc. cbn [app].
  rewrite extFrom_plain.
  - rewrite List.rev_involutive, app_nil_r. cbn.
    rewrite string_of_list_ascii_of_string. reflexivity.
  - rewrite forallb_forall in *. intros x Hx. apply Hrest, in_rev, Hx.
Qed.

Lemma validExt_true fileTypes path :
  validExt fileTypes path = true <-> In (Ext path) fileTypes.
Proof.
  unfold validExt. rewrite existsb_exists. split.
  - intros (ft & Hin & ->%String.eqb_eq). exact Hin.
  - intros Hin. exists (Ext path). split; [exact Hin | apply String.eqb_refl].
Qed.

(** X18: a path passes the extension filter only if it ends with one of the
    listed file types, byte for byte; and for a listed type that is a dot
    followed by bytes other than dot and slash, every path that ends
    with it passes. *)
Theorem validExt_suffix fileTypes path :
  (validExt fileTypes path = true ->
   exists fileType stem, In fileType fileTypes /\ path = stem +:+ fileType) /\
  (forall fileType stem,
     In fileType fileTypes -> plainType fileType = true ->
     path = stem +:+ fileType -> validExt fileTypes path = true).
Proof.
  split.
  - intros H%validExt_true. destruct (Ext_suffix path) as ((stem & Hs) & _).
    exists (Ext path), stem. done.
  - intros ft stem Hin Hp ->. apply validExt_true. rewrite (Ext_plain stem ft Hp). exact Hin.
Qed.

(** X19: [scanSingleFile] never fails.  A path that does not pass the
    filter is only reported as unsupported, and nothing is read or
    scanned.  For a path that passes, every error of [Scan] (a file that
    is not found, a detection that fails, the detection of a webshell)
    becomes the logged line [Error scanning file path: error] after the
    output of the scan, and a scan without error adds no line. *)
Theorem scanSingleFile_logs_errors w k s fileTypes o filePath :
  is_Err (scanSingleFile w k s fileTypes o filePath).1 = false /\
  (validExt fileTypes filePath = false ->
   scanSingleFile w k s fileTypes o filePath =
   (Ok tt, ["Unsupported file type: " +:+ filePath])) /\
  (validExt fileTypes filePath = true ->
   (forall e out,
      Scan w k (base s) o filePath = (Err e, out) ->
      scanSingleFile w k s fileTypes o filePath =
      (Ok tt, out ++ ["Error scanning file " +:+ filePath +:+ ": " +:+ e])) /\
   (forall out,
      Scan w k (base s) o filePath = (Ok tt, out) ->
      scanSingleFile w k s fileTypes o filePath = (Ok tt, out)) /\
   (forall err,
      Stat w filePath = Some err ->
      scanSingleFile w k s fileTypes o filePath =
      (Ok tt, ["Error scanning file " +:+ filePath +:+ ": file not found: " +:+ err])) /\
   (forall e out,
      Stat w filePath = None ->
      Detect w (scanner_detector (base s)) o filePath = (Err e, out) ->
      scanSingleFile w k s fileTypes o filePath =
      (Ok tt, out ++ ["Error scanning file " +:+ filePath
                      +:+ ": detection failed: " +:+ e])) /\
   (forall r out,
      Stat w filePath = None ->
      Detect w (scanner_detector (base s)) o filePath = (Ok r, out) ->
      IsWebshell r = true ->
      (scanSingleFile w k s fileTypes o filePath).1 = Ok tt /\
      In ("Error scanning file " +:+ filePath +:+ ": webshell detected in file: "
          +:+ filePath)
         (scanSingleFile w k s fileTypes o filePath).2)).
Proof.
  unfold scanSingleFile, scanAndLog.
  destruct (validExt fileTypes filePath); cbn [negb].
  - split; [|split; [discriminate|intros _]].
    + destruct (Scan w k (base s) o filePath) as [[[] | e | e] out]; reflexivity.
    + split; [intros e out ->; reflexivity|].
      split; [intros out ->; reflexivity|].
      split; [|split].
      * intros err HS. unfold Scan. rewrite HS. reflexivity.
      * intros e out HS HD. unfold Scan. rewrite HS, HD. reflexivity.
      * intros r out HS HD HW.
        pose proof (Scan_webshell w k (base s) o filePath r out HS HD HW) as H.
        destruct (Scan w k (base s) o filePath) as [res sout]. cbn [fst] in H. subst res.
        cbn [fst snd]. split; [reflexivity|]. apply in_app_iff. right. left. reflexivity.
  - split; [reflexivity|]. split; [reflexivity | discriminate].
Qed.

Lemma scanSingleFile_logs_errors_witness :
  validExt [".php"; ".jsp"] "shell.php" = true /\
  (scanSingleFile shellWorld sinks (NewManualScanner cfg (Some model) "shell.php")
     [".php"; ".jsp"] order "shell.php").1 = Ok tt /\
  In "Error scanning file shell.php: webshell detected in file: shell.php"
     (scanSingleFile shellWorld sinks (NewManualScanner cfg (Some model) "shell.php")
        [".php"; ".jsp"] order "shell.php").2.
Proof.
  assert (Hv : validExt [".php"; ".jsp"] "shell.php" = true) by (vm_compute; reflexivity).
  split; [exact Hv|].
  destruct (Detect shellWorld
              (scanner_detector (base (NewManualScanner cfg (Some model) "shell.php")))
              order "shell.php") as [[r | e | e] out] eqn:E.
  - apply (proj2 (proj2 (proj2 (proj2 (proj2 (proj2
             (scanSingleFile_logs_errors shellWorld sinks
                (NewManualScanner cfg (Some model) "shell.php")
                [".php"; ".jsp"] order "shell.php")) Hv)))) r out eq_refl E).
    vm_compute in E. injection E as <- _. reflexivity.
  - exfalso. vm_compute in E. discriminate E.
  - exfalso. vm_compute in E. discriminate E.
Defined.

(** ** The counters of [PrintSummary] *)

Import printer.

Lemma count_step cfg r0 s :
  let r := calculateTotalScore cfg r0 in
  totalFiles (count s r) = totalFiles s /\
  (highRisk (count s r) + mediumRisk (count s r) + lowRisk (count s r)
   + safe (count s r)
   = highRisk s + mediumRisk s + lowRisk s + safe s + 1)%Z /\
  ((highRisk s <= webshells s <= highRisk s + mediumRisk s)%Z ->
   (highRisk (count s r) <= webshells (count s r)
    <= highRisk (count s r) + mediumRisk (count s r))%Z).
Proof.
  intros r. unfold count.
  destruct (calculateTotalScore_levels cfg r0)
    as [(HL & HW) | [(HL & HW) | [(HL & HW) | (HL & HW)]]]; fold r in HL, HW;
    rewrite HL; cbn [String.eqb Ascii.eqb Bool.eqb RiskLevelHigh RiskLevelMedium
                     RiskLevelLow RiskLevelSafe];
    cbn [totalFiles webshells highRisk mediumRisk lowRisk safe];
    try rewrite HW; (split; [reflexivity|]); (split; [lia|]); intros H;
    try lia; destruct (IsWebshell r); lia.
Qed.

Lemma summarize_fold results s n :
  Forall (fun r => exists cfg r0, r = calculateTotalScore cfg r0) results ->
  (highRisk s + mediumRisk s + lowRisk s + safe s = n)%Z ->
  (highRisk s <= webshells s <= highRisk s + mediumRisk s)%Z ->
  let s' := fold_left count results s in
  totalFiles s' = totalFiles s /\
  (highRisk s' + mediumRisk s' + lowRisk s' + safe s' = n + Z.of_nat (length results))%Z /\
  (highRisk s' <= webshells s' <= highRisk s' + mediumRisk s')%Z.
Proof.
  intros HF. revert s n.
  induction HF as [|r rs (cfg & r0 & ->) _ IH]; intros s n Hn Hw; cbn [fold_left length].
  - repeat split; lia.
  - destruct (count_step cfg r0 s) as (Ht & Hsum & Hweb).
    destruct (IH (count s (calculateTotalScore cfg r0)) (n + 1)%Z) as (H1 & H2 & H3).
    + lia.
    + apply Hweb, Hw.
    + split; [congruence|]. split; [lia | exact H3].
Qed.

(** X22: for results of the detector the counters of [PrintSummary] are
    consistent: the four risk counters add up to the number of files, and
    the number of webshells lies between the number of HIGH results and
    the number of HIGH and MEDIUM results. *)
Theorem summary_counters_consistent results :
  Forall (fun r => exists cfg r0, r = calculateTotalScore cfg r0) results ->
  (highRisk (summarize results) + mediumRisk (summarize results)
   + lowRisk (summarize results) + safe (summarize results)
   = totalFiles (summarize results))%Z /\
  (highRisk (summarize results) <= webshells (summarize results)
   <= highRisk (summarize results) + mediumRisk (summarize results))%Z.
Proof.
  intros HF. unfold summarize.
  destruct (summarize_fold results
              {| totalFiles := Z.of_nat (length results); webshells := 0; highRisk := 0;
                 mediumRisk := 0; lowRisk := 0; safe := 0 |} 0%Z HF)
    as (H1 & H2 & H3); cbn; try lia.
  rewrite H1. cbn [totalFiles]. split; [lia | exact H3].
Qed.

Lemma summary_counters_consistent_witness :
  (highRisk (summarize [calculateTotalScore cfg borderline;
                        calculateTotalScore cfg (newResult "index.php")])
   + mediumRisk (summarize [calculateTotalScore cfg borderline;
                            calculateTotalScore cfg (newResult "index.php")])
   + lowRisk (summarize [calculateTotalScore cfg borderline;
                         calculateTotalScore cfg (newResult "index.php")])
   + safe (summarize [calculateTotalScore cfg borderline;
                      calculateTotalScore cfg (newResult "index.php")])
   = 2)%Z.
Proof.
  refine (eq_trans (proj1 (summary_counters_consistent _ _)) _).
  - repeat constructor; eexists _, _; reflexivity.
  - vm_compute. reflexivity.
Defined.

(** ** A failing rule file ends the walk of its rule type *)

Lemma walk_app w content before after acc :
  walk w content (before ++ after) acc =
  match walk w content before acc with
  | (acc', Some err) => (acc', Some err)
  | (acc', None) => walk w content after acc'
  end.
Proof.
  revert acc. induction before as [|v vs IH]; intros acc; cbn [app walk]; [reflexivity|].
  destruct (walkFn w content acc v) as [acc' [err|]]; [reflexivity | apply IH].
Qed.

Lemma walkFn_failure_keeps w content acc v acc' err :
  walkFn w content acc v = (acc', Some err) -> acc' = acc.
Proof.
  unfold walkFn.
  destruct (visit_err v); [congruence|].
  destruct (_ && _); [|discriminate].
  destruct (Yara_ w (visit_path v) content); congruence.
Qed.

(** X10: when the function passed to [filepath.Walk] returns an error for a
    visit, the walk of that rule type ends there: the matches collected
    before are kept, and whatever comes after in the walk, a matching
    rule file included, is neither scanned nor scored. *)
Theorem walk_ends_at_first_failure w content before v after acc err :
  (walk w content before acc).2 = None ->
  (walkFn w content (walk w content before acc).1 v).2 = Some err ->
  walk w content (before ++ v :: after) acc = ((walk w content before acc).1, Some err).
Proof.
  intros Hb Hv. rewrite walk_app.
  destruct (walk w content before acc) as [acc' e]. cbn [fst snd] in *. subst e.
  cbn [walk].
  destruct (walkFn w content acc' v) as [acc'' e] eqn:E. cbn [snd] in Hv. subst e.
  rewrite (walkFn_failure_keeps _ _ _ _ _ _ E). reflexivity.
Qed.

Lemma walk_ends_at_first_failure_witness :
  walk shellWorld "<?php eval($_POST['c']); ?>"
    ([{| visit_path := "data/rules/webshells"; visit_IsDir := true; visit_err := None |};
      {| visit_path := "data/rules/webshells/a.yar"; visit_IsDir := false;
         visit_err := None |}]
     ++ {| visit_path := "data/rules/webshells/b.yar"; visit_IsDir := false;
           visit_err := None |}
        :: [{| visit_path := "data/rules/webshells/a.yar"; visit_IsDir := false;
               visit_err := None |}])
    (0, [])
  = ((50, ["php_eval (webshell, php)"]),
     Some "failed to open rule file data/rules/webshells/b.yar: permission denied").
Proof.
  refine (eq_trans (walk_ends_at_first_failure shellWorld _ _ _ _ _
                      "failed to open rule file data/rules/webshells/b.yar: permission denied"
                      _ _) _).
  - vm_compute. reflexivity.
  - vm_compute. reflexivity.
  - vm_compute. reflexivity.
Defined.

(** ** The result store cannot change the outcome of a scan *)

(** X17: what [Scan] returns does not depend on the printer or on the result
    store: a store that cannot be opened or written only adds a warning
    to the log. *)
Theorem Scan_outcome_ignores_sinks w k k' s o path :
  (Scan w k s o path).1 = (Scan w k' s o path).1.
Proof.
  unfold Scan.
  destruct (Stat w path); [reflexivity|].
  destruct (Detect w (scanner_detector s) o path) as [[r | e | e] out];
    cbn [wrap mbind M_bind bind printLines]; [|reflexivity..].
  pose proof (store_Ok k r) as H. pose proof (store_Ok k' r) as H'.
  destruct (store k r) as [[[] | e | e] so]; cbn in H; try discriminate.
  destruct (store k' r) as [[[] | e | e] so']; cbn in H'; try discriminate.
  cbn [mbind M_bind bind].
  destruct (IsWebshell r); reflexivity.
Qed.

(** ** The scheduled scan of a directory tree *)

Import fswalk scheduled.

Lemma Node_nested_ind (P : Node -> Prop) :
  (forall path size, P (FileNode path size)) ->
  (forall path readErr children, Forall P children -> P (DirNode path readErr children)) ->
  (forall path err, P (BadNode path err)) ->
  forall n, P n.
Proof.
  intros HF HD HB. fix IH 1.
  intros [path size | path readErr children | path err];
    [apply HF | apply HD | apply HB].
  revert children. fix IHc 1.
  intros [|c cs]; constructor; [apply IH | apply IHc].
Qed.

Lemma walk_visit scan n :
  forall started,
  exists sel v,
    walk (visit scan) n started = (started ++ sel, v) /\
    isFail v = negb (sound scan n) /\
    (exists rest, due scan n = sel ++ rest) /\
    (isFail v = false -> sel = due scan n) /\
    (v = SkipDir -> isDirNode n = true).
Proof.
  induction n as [path size | path readErr children IH | path err] using Node_nested_ind;
    intros started.
  - cbn [walk visit due sound IsDir Size].
    destruct (_ <? _)%Z.
    + exists [], Continue. rewrite app_nil_r. repeat split; try done. exists []. done.
    + destruct (validExt _ _).
      * exists [path], Continue. repeat split; try done. exists []. done.
      * exists [], Continue. rewrite app_nil_r. repeat split; try done. exists []. done.
  - cbn [walk due sound]. unfold visit at 1. cbn [IsDir].
    destruct readErr as [e|].
    { exists [], (Fail e). rewrite app_nil_r. repeat split; try done. exists []. done. }
    destruct (excluded scan path).
    { exists [], SkipDir. rewrite app_nil_r. repeat split; try done. exists []. done. }
    cbn [orb].
    assert (H : exists sel v,
               (fix entries (cs : list Node) (st : list string) : list string * Verdict :=
                  match cs with
                  | [] => (st, Continue)
                  | c :: cs' =>
                      let (st', v) := walk (visit scan) c st in
                      match c, v with
                      | _, Continue => entries cs' st'
                      | _, Fail err => (st', Fail err)
                      | BadNode _ _, SkipDir => entries cs' st'
                      | DirNode _ _ _, SkipDir => entries cs' st'
                      | FileNode _ _, SkipDir => (st', SkipDir)
                      end
                  end) children started = (started ++ sel, v) /\
               isFail v = negb (forallb (sound scan) children) /\
               (exists rest, flat_map (due scan) children = sel ++ rest) /\
               (isFail v = false -> sel = flat_map (due scan) children) /\
               v <> SkipDir).
    { clear path. revert started.
      induction IH as [|c cs Hc _ IHcs]; intros started.
      - exists [], Continue. rewrite app_nil_r. repeat split; try done. exists []. done.
      - cbn [flat_map forallb].
        destruct (Hc started) as (sel & v & -> & Hf & (rest & Hr) & Hs & Hd).
        destruct v as [| | e].
        + cbn [isFail] in Hf. symmetry in Hf. apply negb_false_iff in Hf. rewrite Hf. cbn [andb].
          rewrite (Hs eq_refl).
          destruct (IHcs (started ++ due scan c)) as (sel' & v' & Heq & Hf' & (rest' & Hr') & Hs' & Hd').
          exists (due scan c ++ sel'), v'.
          split.
          { destruct c; rewrite Heq, <- app_assoc; reflexivity. }
          split; [exact Hf'|]. split.
          { exists rest'. rewrite Hr', <- app_assoc. reflexivity. }
          split; [|exact Hd'].
          intros Hv. rewrite (Hs' Hv). reflexivity.
        + specialize (Hd eq_refl). destruct c; try discriminate Hd.
          cbn [isFail] in Hf. symmetry in Hf. apply negb_false_iff in Hf. rewrite Hf. cbn [andb].
          rewrite (Hs eq_refl).
          destruct (IHcs (started ++ due scan (DirNode path readErr children)))
            as (sel' & v' & Heq & Hf' & (rest' & Hr') & Hs' & Hd').
          exists (due scan (DirNode path readErr children) ++ sel'), v'.
          split; [rewrite Heq, <- app_assoc; reflexivity|].
          split; [exact Hf'|]. split.
          { exists rest'. rewrite Hr', <- app_assoc. reflexivity. }
          split; [|exact Hd'].
          intros Hv. rewrite (Hs' Hv). reflexivity.
        + cbn [isFail] in Hf. symmetry in Hf. apply negb_true_iff in Hf. rewrite Hf. cbn [andb].
          exists sel, (Fail e).
          split; [destruct c; reflexivity|].
          split; [reflexivity|]. split.
          { exists (rest ++ flat_map (due scan) cs). rewrite Hr, <- app_assoc. reflexivity. }
          split; [discriminate | discriminate]. }
    destruct H as (sel & v & Heq & Hf & Hr & Hs & Hd).
    exists sel, v. split; [exact Heq|]. repeat split; assumption || done.
  - cbn [walk visit due sound].
    exists [], (Fail err). rewrite app_nil_r. repeat split; try done. exists []. done.
Qed.

Lemma due_validExt scan n path :
  In path (due scan n) -> validExt (FileTypes scan) path = true.
Proof.
  induction n as [p size | p readErr children IH | p err] using Node_nested_ind;
    cbn [due].
  - destruct (_ <? _)%Z; [intros []|].
    destruct (validExt (FileTypes scan) p) eqn:E; [|intros []].
    intros [<- | []]. exact E.
  - destruct readErr; [intros []|]. destruct (excluded scan p); [intros []|].
    intros (c & Hc & Hp)%in_flat_map.
    rewrite List.Forall_forall in IH. exact (IH c Hc Hp).
  - intros [].
Qed.

(** The walk of a directory that is read and not excluded, entry by
    entry. *)
Lemma walk_dir_cons scan path c cs st :
  excluded scan path = false ->
  walk (visit scan) (DirNode path None (c :: cs)) st =
  let (st', v) := walk (visit scan) c st in
  match c, v with
  | _, Continue => walk (visit scan) (DirNode path None cs) st'
  | _, Fail err => (st', Fail err)
  | BadNode _ _, SkipDir => walk (visit scan) (DirNode path None cs) st'
  | DirNode _ _ _, SkipDir => walk (visit scan) (DirNode path None cs) st'
  | FileNode _ _, SkipDir => (st', SkipDir)
  end.
Proof.
  intros He.
  assert (Hv : forall st, visit scan st path (Some {| IsDir := true; Size := 0 |}) None
                          = (st, Continue)).
  { intros st0. unfold visit. cbn [IsDir]. rewrite He. reflexivity. }
  cbn [walk]. rewrite Hv.
  destruct (walk (visit scan) c st) as [st' v].
  destruct c, v; rewrite ?Hv; reflexivity.
Qed.

Lemma walk_dir_nil scan path st :
  excluded scan path = false ->
  walk (visit scan) (DirNode path None []) st = (st, Continue).
Proof.
  intros He. cbn [walk]. unfold visit. cbn [IsDir]. rewrite He. reflexivity.
Qed.

(** The walk adds to the scans already started, whatever they are. *)
Lemma walk_started scan n :
  forall st,
    walk (visit scan) n st =
    (st ++ (walk (visit scan) n []).1, (walk (visit scan) n []).2).
Proof.
  induction n as [path size | path readErr children IH | path err] using Node_nested_ind;
    intros st.
  - cbn [walk visit IsDir Size].
    destruct (_ <? _)%Z; [rewrite app_nil_r; reflexivity|].
    destruct (validExt _ _); [reflexivity | rewrite app_nil_r; reflexivity].
  - destruct readErr as [e|].
    { cbn [walk visit]. rewrite app_nil_r. reflexivity. }
    destruct (excluded scan path) eqn:He.
    { cbn [walk]. unfold visit. cbn [IsDir]. rewrite He. rewrite app_nil_r. reflexivity. }
    revert st. induction IH as [|c cs Hc _ IHcs]; intros st.
    + rewrite !walk_dir_nil by exact He. rewrite app_nil_r. reflexivity.
    + rewrite !(walk_dir_cons scan path c cs) by exact He.
      rewrite (Hc st).
      destruct (walk (visit scan) c []) as [sel v]. cbn [fst snd app].
      destruct c, v; cbn [fst snd]; try reflexivity;
        rewrite (IHcs (st ++ sel)), (IHcs sel); cbn [fst snd];
        rewrite app_assoc; reflexivity.
  - cbn [walk visit]. rewrite app_nil_r. reflexivity.
Qed.

(** What the walk of a tree starts, and the error it ends with. *)
Lemma walk_sound scan n :
  sound scan n = true ->
  (walk (visit scan) n []).1 = due scan n /\
  isFail (walk (visit scan) n []).2 = false /\
  ((walk (visit scan) n []).2 = SkipDir -> isDirNode n = true).
Proof.
  intros Hs.
  destruct (walk_visit scan n []) as (sel & v & Heq & Hf & _ & Hd & Hk).
  rewrite Heq. cbn [fst snd app]. rewrite Hs in Hf. cbn [negb] in Hf.
  split; [exact (Hd Hf)|]. split; [exact Hf | exact Hk].
Qed.

Lemma walk_unsound scan n :
  sound scan n = false -> exists err, (walk (visit scan) n []).2 = Fail err.
Proof.
  intros Hs.
  destruct (walk_visit scan n []) as (sel & v & Heq & Hf & _).
  rewrite Heq. cbn [fst snd]. rewrite Hs in Hf. cbn [negb] in Hf.
  destruct v as [| | e]; try discriminate Hf. eauto.
Qed.

(** In a directory, the entries before the first one that fails are
    walked in full, the failing one as far as it gets, and the ones
    after it not at all. *)
Lemma walk_dir_until_failure scan path before bad after :
  excluded scan path = false ->
  forallb (sound scan) before = true ->
  sound scan bad = false ->
  forall st,
    walk (visit scan) (DirNode path None (before ++ bad :: after)) st =
    (st ++ flat_map (due scan) before ++ (walk (visit scan) bad []).1,
     (walk (visit scan) bad []).2).
Proof.
  intros He Hb Hbad.
  destruct (walk_unsound scan bad Hbad) as (err & Herr).
  induction before as [|c cs IH]; intros st; cbn [app flat_map].
  - rewrite walk_dir_cons by exact He.
    rewrite (walk_started scan bad st), Herr.
    destruct bad; reflexivity.
  - cbn [forallb] in Hb. apply andb_true_iff in Hb as (Hc & Hcs).
    rewrite walk_dir_cons by exact He.
    rewrite (walk_started scan c st).
    destruct (walk_sound scan c Hc) as (-> & Hf & Hk).
    destruct (walk (visit scan) c []).2 as [| | e] eqn:Ev; [| |discriminate Hf].
    + rewrite (IH Hcs). rewrite <- !app_assoc. destruct c; reflexivity.
    + specialize (Hk eq_refl). destruct c; try discriminate Hk.
      rewrite (IH Hcs). rewrite <- !app_assoc. reflexivity.
Qed.

(** X20: [scanDirectory] starts scans only for files that are due (not
    below an excluded directory, within the size limit, with a listed
    extension), in the order of the walk.  A walk without an error starts
    a scan for every file that is due and logs nothing.  An error ends
    the walk and is logged: in a directory, the entries before the first
    one that fails are scanned in full, the failing entry as far as its
    own walk gets, and the entries after it not at all; a path that
    cannot be examined and a directory that cannot be read start no
    scan. *)
Theorem scanDirectory_starts_due_files scan dir tree :
  (exists rest, due scan tree = (scanDirectory scan dir tree).1 ++ rest) /\
  (forall path, In path (scanDirectory scan dir tree).1 ->
                validExt (FileTypes scan) path = true) /\
  (sound scan tree = true ->
   scanDirectory scan dir tree = (due scan tree, [])) /\
  (sound scan tree = false ->
   exists err, (scanDirectory scan dir tree).2 =
               ["Error walking directory " +:+ dir +:+ ": " +:+ err]) /\
  (forall path before bad after,
     tree = DirNode path None (before ++ bad :: after) ->
     excluded scan path = false ->
     forallb (sound scan) before = true ->
     sound scan bad = false ->
     scanDirectory scan dir tree =
     (flat_map (due scan) before ++ (scanDirectory scan dir bad).1,
      (scanDirectory scan dir bad).2)) /\
  (forall path err,
     tree = BadNode path err ->
     scanDirectory scan dir tree =
     ([], ["Error walking directory " +:+ dir +:+ ": " +:+ err])) /\
  (forall path err children,
     tree = DirNode path (Some err) children ->
     scanDirectory scan dir tree =
     ([], ["Error walking directory " +:+ dir +:+ ": " +:+ err])).
Proof.
  split; [|split; [|split; [|split; [|split; [|split]]]]].
  - unfold scanDirectory, Walk.
    destruct (walk_visit scan tree []) as (sel & v & -> & _ & Hr & _).
    cbn [app]. destruct v; exact Hr.
  - unfold scanDirectory, Walk.
    destruct (walk_visit scan tree []) as (sel & v & -> & _ & (rest & Hr) & _).
    cbn [app].
    assert (Hval : forall path, In path sel -> validExt (FileTypes scan) path = true).
    { intros path Hp. apply (due_validExt scan tree). rewrite Hr. apply in_app_iff. auto. }
    destruct v; exact Hval.
  - intros Hs. unfold scanDirectory, Walk.
    destruct (walk_sound scan tree Hs) as (Hd & Hf & _).
    destruct (walk (visit scan) tree []) as [sel v]. cbn [fst snd] in Hd, Hf.
    subst sel. destruct v; [reflexivity | reflexivity | discriminate Hf].
  - intros Hs. unfold scanDirectory, Walk.
    destruct (walk_unsound scan tree Hs) as (err & Herr).
    destruct (walk (visit scan) tree []) as [sel v]. cbn [snd] in Herr. subst v.
    exists err. reflexivity.
  - intros path before bad after -> He Hb Hbad.
    unfold scanDirectory, Walk.
    rewrite (walk_dir_until_failure scan path before bad after He Hb Hbad []).
    cbn [app].
    destruct (walk_unsound scan bad Hbad) as (err & Herr).
    destruct (walk (visit scan) bad []) as [sel v]. cbn [fst snd] in *. subst v.
    reflexivity.
  - intros path err ->. reflexivity.
  - intros path err children ->. reflexivity.
Qed.

Import inputs3.

Lemma scanDirectory_starts_due_files_witness :
  (sound scanConfig webRoot = true /\
   scanDirectory scanConfig "/var/www/html" webRoot
   = (["/var/www/html/index.php"; "/var/www/html/lib/db.php"], [])) /\
  scanDirectory scanConfig "/var/www/html" brokenRoot
  = (["/var/www/html/index.php"],
     ["Error walking directory /var/www/html: permission denied"]).
Proof.
  split.
  - assert (H : sound scanConfig webRoot = true) by (vm_compute; reflexivity).
    split; [exact H|].
    refine (eq_trans (proj1 (proj2 (proj2 (scanDirectory_starts_due_files
                                             scanConfig "/var/www/html" webRoot))) H) _).
    vm_compute. reflexivity.
  - refine (eq_trans
              (proj1 (proj2 (proj2 (proj2 (proj2
                 (scanDirectory_starts_due_files scanConfig "/var/www/html" brokenRoot)))))
                 "/var/www/html"
                 [FileNode "/var/www/html/index.php" 2048]
                 (DirNode "/var/www/html/private" (Some "permission denied") [])
                 [FileNode "/var/www/html/z.php" 10]
                 eq_refl _ _ _) _).
    + vm_compute. reflexivity.
    + vm_compute. reflexivity.
    + vm_compute. reflexivity.
    + vm_compute. reflexivity.
Defined.


(** ** A failed start leaves the scanner marked as running *)

Import starts.

(** X21: [RealtimeScanner.Start] and [ScheduledScanner.Start] set [isRunning]
    before the steps that can fail.  When the registration of the
    directories (realtime) or the parsing of the start time (scheduled)
    fails, the scanner stays marked as running although no loop was
    started, and every further [Start] is refused as already running. *)
Theorem failed_start_leaves_running :
  (forall directories excludeDirs add tree s s' e,
     rt_isRunning s = false ->
     RealtimeStart true directories excludeDirs add tree s = (s', Err e) ->
     rt_isRunning s' = true /\ rt_watching s' = rt_watching s /\
     forall directories' excludeDirs' add' tree',
       RealtimeStart true directories' excludeDirs' add' tree' s'
       = (s', Err "scanner is already running")) /\
  (forall parseError s s' e,
     sc_isRunning s = false ->
     ScheduledStart true parseError s = (s', Err e) ->
     sc_isRunning s' = true /\ sc_looping s' = sc_looping s /\
     forall parseError',
       ScheduledStart true parseError' s' = (s', Err "scanner is already running")).
Proof.
  split.
  - intros directories excludeDirs add tree s s' e HR. unfold RealtimeStart at 1.
    rewrite HR. cbn [negb].
    destruct (registerAll _ _ _ _ _) as [watched [err|]]; [|discriminate].
    intros [= <- _]. cbn. repeat split. 
  - intros parseError s s' e HR. unfold ScheduledStart at 1.
    rewrite HR. cbn [negb].
    destruct parseError as [err|]; [|discriminate].
    intros [= <- _]. cbn. repeat split.
Qed.

Lemma failed_start_leaves_running_witness :
  match RealtimeStart true ["/var/www/html"] [] (fun _ => None) (fun _ => brokenRoot)
          idle with
  | (s', Err e) =>
      e = "failed to add directory to watcher: permission denied" /\
      rt_isRunning s' = true /\ rt_watching s' = false
  | _ => False
  end.
Proof.
  destruct (RealtimeStart true ["/var/www/html"] [] (fun _ => None) (fun _ => brokenRoot)
              idle) as [s' [[] | e | e]] eqn:E.
  - vm_compute in E. discriminate E.
  - destruct (proj1 failed_start_leaves_running ["/var/www/html"] [] (fun _ => None)
                (fun _ => brokenRoot) idle s' e eq_refl E) as (H1 & H2 & _).
    split; [|split; [exact H1 | exact H2]].
    vm_compute in E. injection E as _ <-. reflexivity.
  - vm_compute in E. discriminate E.
Defined.
